(** * llm-foundry: in-context-learning batch construction and data utilities

    A shallow embedding of
    - [llmfoundry/eval/datasets/in_context_learning_evaluation.py]
      (the ICL dataset classes: effective batch size, EOS fix-up of the
      preamble, answer-length pre-pass, prompt construction, tokenization
      of multiple-choice and schema examples, collation, microbatch
      splitting, sample counts, and the partition by category);
    - [llmfoundry/data/utils.py]
      ([LossGeneratingTokensCollatorWrapper], [_validate_cfg],
      [validate_ds_replication] and [get_tokens_per_batch_func]).

    Python integers are [Z], Python lists are [list], ordered dictionaries
    whose iteration order is observable are association lists, dictionaries
    that are only read and written by key are [gmap]s, and raising an
    exception is the [Raise] branch of [result]. *)

From Stdlib Require Import ZArith Lia SpecFloat.
From stdpp Require Import base option list strings gmap sorting.

Set Warnings "-register-all".
Local Open Scope Z_scope.

(** ** Python preliminaries *)

Module Py.

(** The exception classes that the modelled code can raise. *)
Inductive exn : Type :=
  | ValueError (msg : string)
  | TypeError
  | KeyError (key : string)
  | IndexError
  | RuntimeError
  | NotImplementedError
  | AttributeError
  | OverflowError
  | ZeroDivisionError.

(** A computation either returns or raises. *)
Inductive result (A : Type) : Type :=
  | Ok (a : A)
  | Raise (e : exn).
Arguments Ok {A} a.
Arguments Raise {A} e.

#[global] Instance result_ret : MRet result := fun _ a => Ok a.
#[global] Instance result_bind : MBind result := fun _ _ f m =>
  match m with
  | Ok a => f a
  | Raise e => Raise e
  end.

#[global] Instance result_fmap : FMap result := fun _ _ f m =>
  match m with
  | Ok a => Ok (f a)
  | Raise e => Raise e
  end.

Definition is_ok {A} (r : result A) : bool :=
  match r with Ok _ => true | Raise _ => false end.

Definition is_value_error {A} (r : result A) : bool :=
  match r with Raise (ValueError _) => true | _ => false end.

(** [mapM]: a list comprehension whose body may raise; the first exception
    wins, as in Python. *)
Fixpoint mapM {A B} (f : A -> result B) (l : list A) : result (list B) :=
  match l with
  | [] => Ok []
  | x :: l' => y ← f x; ys ← mapM f l'; Ok (y :: ys)
  end.

(** Torch tensors of token ids, as far as this code uses them: 1-D index
    vectors and 2-D [rows x width] token matrices. *)
Inductive tensor : Type :=
  | T1 (v : list Z)
  | T2 (rows : list (list Z)).

(** Python values that can sit in a batch or in a dataset config. *)
Inductive pyval : Type :=
  | PNone
  | PBool (b : bool)
  | PInt (z : Z)
  | PFloat (f : spec_float)
  | PStr (s : string)
  | PTensor (t : tensor)
  | PList (l : list pyval)
  | PTuple (l : list pyval)
  | PDict (d : list (string * pyval)).

(** An ordered, string-keyed Python [dict]. *)
Abbreviation pydict := (list (string * pyval)).

(** [k in keys] for a list of key names. *)
Definition key_in (k : string) (keys : list string) : bool :=
  bool_decide (k ∈ keys).

(** [d[k]]: lookup that raises [KeyError]. *)
Fixpoint dict_get {V} (d : list (string * V)) (k : string) : option V :=
  match d with
  | [] => None
  | (k', v) :: d' => if String.eqb k k' then Some v else dict_get d' k
  end.

Definition dict_getitem {V} (d : list (string * V)) (k : string) : result V :=
  match dict_get d k with
  | Some v => Ok v
  | None => Raise (KeyError k)
  end.

(** [d[k] = v]: overwrite in place when present, append otherwise. *)
Fixpoint dict_set {V} (d : list (string * V)) (k : string) (v : V)
  : list (string * V) :=
  match d with
  | [] => [(k, v)]
  | (k', v') :: d' =>
      if String.eqb k k' then (k, v) :: d' else (k', v') :: dict_set d' k v
  end.

(** [seq[idx]] for an index that the code takes from [range]. *)
Definition getitem {A} (l : list A) (idx : nat) : result A :=
  match l !! idx with
  | Some x => Ok x
  | None => Raise IndexError
  end.

(** Python's [a // b] on ints. *)
Definition floordiv (a b : Z) : result Z :=
  if b =? 0 then Raise ZeroDivisionError else Ok (a `div` b).

(** [len(v)]. *)
Definition tensor_len (t : tensor) : Z :=
  match t with
  | T1 v => Z.of_nat (length v)
  | T2 rows => Z.of_nat (length rows)
  end.

Definition py_len (v : pyval) : result Z :=
  match v with
  | PStr s => Ok (Z.of_nat (String.length s))
  | PTensor t => Ok (tensor_len t)
  | PList l | PTuple l => Ok (Z.of_nat (length l))
  | PDict d => Ok (Z.of_nat (length d))
  | PNone | PBool _ | PInt _ | PFloat _ => Raise TypeError
  end.

(** [l[start:stop]] for [0 <= start], the only slices this code takes. *)
Definition slice {A} (l : list A) (start stop : Z) : list A :=
  take (Z.to_nat stop - Z.to_nat start) (drop (Z.to_nat start) l).

Definition py_slice (v : pyval) (start stop : Z) : result pyval :=
  match v with
  | PStr s =>
      Ok (PStr (String.substring (Z.to_nat start)
                          (Z.to_nat stop - Z.to_nat start) s))
  | PTensor (T1 l) => Ok (PTensor (T1 (slice l start stop)))
  | PTensor (T2 rows) => Ok (PTensor (T2 (slice rows start stop)))
  | PList l => Ok (PList (slice l start stop))
  | PTuple l => Ok (PTuple (slice l start stop))
  | PNone | PBool _ | PInt _ | PFloat _ | PDict _ => Raise TypeError
  end.

(** [range(0, stop, step)] as a list. *)
Definition py_range0 (stop step : Z) : result (list Z) :=
  if step =? 0 then Raise (ValueError "range() arg 3 must not be zero")
  else
    let count :=
      if 0 <? step
      then (if 0 <? stop then (stop + step - 1) `div` step else 0)
      else (if stop <? 0 then (- stop + - step - 1) `div` (- step) else 0) in
    Ok ((fun i : nat => Z.of_nat i * step) <$> seq 0 (Z.to_nat count)).

(** The type tags that [type(x)] and [isinstance] distinguish. *)
Inductive pytype : Type :=
  | TyNone | TyBool | TyInt | TyFloat | TyStr | TyTensor | TyList | TyTuple
  | TyDict.

#[global] Instance pytype_eq_dec : EqDecision pytype.
Proof. solve_decision. Defined.

Definition type_of (v : pyval) : pytype :=
  match v with
  | PNone => TyNone
  | PBool _ => TyBool
  | PInt _ => TyInt
  | PFloat _ => TyFloat
  | PStr _ => TyStr
  | PTensor _ => TyTensor
  | PList _ => TyList
  | PTuple _ => TyTuple
  | PDict _ => TyDict
  end.

(** [isinstance(v, (int, float, str, bool))]. *)
Definition is_primitive (v : pyval) : bool :=
  match v with
  | PBool _ | PInt _ | PFloat _ | PStr _ => true
  | _ => false
  end.

End Py.
Import Py.

(** ** The batch splitters imported from [composer.core.data_spec]

    [split_batch] calls [_split_list] and [_default_split_batch], which the
    module imports from the composer library; they are not among the
    sources. They are given here as definitions, following spec section 4.5
    for what a split is and the library for the corner cases (a sequence
    that already fits, a size that is not positive, an unsupported type). *)

Module Composer.

(** Modelled from the spec: [_split_list] is imported from
    [composer.core.data_spec] and is not part of this repository. The
    splitter of spec section 4.5 cuts a sequence into consecutive runs of
    [microbatch_size] entries; the library does so with
    [[l[start:start + microbatch_size] for start in range(0, len(l),
    microbatch_size)]], returning [[l]] when the sequence already fits. *)
Definition _split_list (l : pyval) (microbatch_size : Z)
  : result (list pyval) :=
  len ← py_len l;
  if len <=? microbatch_size then Ok [l]
  else
    starts ← py_range0 len microbatch_size;
    mapM (fun start => py_slice l start (start + microbatch_size)) starts.

(** Modelled from the spec: [torch.Tensor.split(split_size)] along the
    first dimension, the tensor counterpart of the list splitter. It is a
    library function: torch raises [RuntimeError] for a negative size, and
    for a zero size unless the tensor is empty. *)
Definition torch_split (t : tensor) (split_size : Z) : result (list pyval) :=
  if split_size <? 0 then Raise RuntimeError
  else if split_size =? 0 then
    if tensor_len t =? 0 then Ok [PTensor t] else Raise RuntimeError
  else if tensor_len t =? 0 then Ok [PTensor t]
  else
    starts ← py_range0 (tensor_len t) split_size;
    mapM (fun start => py_slice (PTensor t) start (start + split_size)) starts.

(** Modelled from the spec: [_split_tensor] of [composer.core.data_spec]. *)
Definition _split_tensor (t : tensor) (microbatch_size : Z)
  : result (list pyval) :=
  if tensor_len t <=? microbatch_size then Ok [PTensor t]
  else torch_split t microbatch_size.

(** Modelled from the spec: [_check_list_is_primitives] of
    [composer.core.data_spec]: all entries have the type of the first, which
    is one of int, float, str, bool. *)
Definition _check_list_is_primitives (l : list pyval) : bool :=
  match l with
  | [] => true
  | first :: _ =>
      is_primitive first
      && forallb (fun item => bool_decide (type_of item = type_of first)) l
  end.

(** [list(zip( *result))]: the transpose, cut at the shortest entry. *)
Definition zip_star (result : list (list pyval)) : list pyval :=
  match result with
  | [] => []
  | r :: _ =>
      let n := foldr (fun r acc => Nat.min (length r) acc) (length r) result in
      (fun i => PTuple (omap (fun r : list pyval => r !! i) result))
        <$> seq 0 n
  end.

(** A microbatch size as the callers may pass it: [Union[int, float]]. *)
Inductive mbsize : Type :=
  | SzInt (n : Z)
  | SzFloat (f : spec_float).

(** Modelled from the spec: [_split_mapping] of [composer.core.data_spec],
    the splitter for a whole dict batch: tensors, lists and nested dicts are
    split, primitives are broadcast once the number of chunks is known. The
    argument is the [PDict] value itself so that the recursion into nested
    dicts is structural. *)
Fixpoint _split_mapping (m : pyval) (microbatch_size : Z) {struct m}
  : result (list pyval) :=
  match m with
  | PDict items =>
      chunked ←
        (fix loop (items : pydict) : result (list (string * list pyval)) :=
           match items with
           | [] => Ok []
           | (k, v) :: items' =>
               c ← match v with
                   | PTensor t => Some <$> _split_tensor t microbatch_size
                   | PList _ | PTuple _ => Some <$> _split_list v microbatch_size
                   | PDict _ => Some <$> _split_mapping v microbatch_size
                   | PBool _ | PInt _ | PFloat _ | PStr _ => Ok None
                   | PNone => Raise (ValueError "Unsupported batch type")
                   end;
               rest ← loop items';
               Ok (match c with
                   | Some c => (k, c) :: rest
                   | None => rest
                   end)
           end) items;
      let num_chunks :=
        match chunked with
        | [] => 1%nat
        | (_, c) :: _ => length c
        end in
      let chunked :=
        foldl (fun chunked '(k, v) =>
                 if is_primitive v
                 then dict_set chunked k (replicate num_chunks v)
                 else chunked) chunked items in
      mapM (fun idx =>
              PDict <$> mapM (fun '(k, c) => v ← getitem c idx; Ok (k, v))
                             chunked)
           (seq 0 num_chunks)
  | _ => Raise TypeError
  end.

(** Modelled from the spec: [_default_split_batch] of
    [composer.core.data_spec]. A fractional microbatch size is rejected
    first (spec section 4.5: the size must be an integer); then the batch is
    split according to its type. *)
Definition _default_split_batch (batch : pyval) (microbatch_size : mbsize)
  : result (list pyval) :=
  match microbatch_size with
  | SzFloat _ =>
      Raise (ValueError
        "_default_split_batch does not support floating point microbatch_size.")
  | SzInt n =>
      match batch with
      | PTensor t => _split_tensor t n
      | PDict _ => _split_mapping batch n
      | PList l | PTuple l =>
          if _check_list_is_primitives l then _split_list batch n
          else
            result ← mapM (fun item =>
                             match item with
                             | PTensor t => _split_tensor t n
                             | PList _ | PTuple _ => _split_list item n
                             | _ => Raise (ValueError "Unsupported batch type")
                             end) l;
            Ok (zip_star result)
      | _ => Raise NotImplementedError
      end
  end.

End Composer.
Import Composer.

(** ** The ICL datasets *)

Module ICL.

(** The dataset classes of the module. [Schema] extends [MultipleChoice];
    the other three extend the base class directly. *)
Inductive variant : Type :=
  | Base
  | LanguageModeling
  | MultipleChoice
  | Schema
  | GenerationWithAnswers.

(** The attributes of a dataset object that the modelled methods read.
    [base_generation_kwargs] is the ['generation_kwargs'] entry of
    [base_batch], present when the constructor was given generation
    arguments. *)
Record dataset : Type := {
  kind : variant;
  num_choices : Z;
  eos_token_id : option Z;
  pad_tok_id : Z;
  tokenize_labels : bool;
  base_generation_kwargs : option pyval;
  static_keys : list string;
  list_keys : list string;
  tensor_keys : list string;
  list_of_tensors_keys : list string;
  list_of_tuples_keys : list string;
  list_of_primitives : list string;
}.

Definition multi_choice (v : variant) : bool :=
  match v with MultipleChoice | Schema => true | _ => false end.

(** [get_effective_batch_size]: the base class returns its argument; the
    multiple-choice class (and the schema class, which repeats the body)
    divides by the number of choices. *)
Definition get_effective_batch_size (ds : dataset) (batch_size : Z) : result Z :=
  if multi_choice (kind ds) then
    let batch_size := Z.max (num_choices ds) batch_size in
    floordiv batch_size (num_choices ds)
  else Ok batch_size.

(** [_fix_eos_on_preamble]: [input_ids[-1]] is stdpp's [last],
    [input_ids[:-1]] is [removelast]. *)
Definition _fix_eos_on_preamble (tokenizer_eos : option Z) (input_ids : list Z)
  : list Z :=
  match tokenizer_eos with
  | Some eos =>
      if bool_decide (1 < Z.of_nat (length input_ids))
         && bool_decide (last input_ids = Some eos)
      then removelast input_ids
      else input_ids
  | None => input_ids
  end.

(** *** Microbatch splitting *)

(** The dict [chunked] of the splitters: per key, the sequence of chunks. *)
Abbreviation chunks := (list (string * list pyval)).

(** The first loop of [split_batch]: [entry k v] is the branch taken for one
    item, [None] standing for [pass]. *)
Fixpoint split_loop (entry : string -> pyval -> result (option (list pyval)))
    (items : pydict) (chunked : chunks) : result chunks :=
  match items with
  | [] => Ok chunked
  | (k, v) :: items' =>
      c ← entry k v;
      split_loop entry items'
        (match c with
         | Some c => dict_set chunked k c
         | None => chunked
         end)
  end.

(** The second loop: [chunked[k] = [v] * num_chunks] for the static keys. *)
Definition broadcast_static (statics : list string) (num_chunks : nat)
    (items : pydict) (chunked : chunks) : chunks :=
  foldl (fun chunked '(k, v) =>
           if key_in k statics
           then dict_set chunked k (replicate num_chunks v)
           else chunked) chunked items.

(** [[{k: v[idx] for k, v in chunked.items()} for idx in range(num_chunks)]]. *)
Definition assemble (chunked : chunks) (num_chunks : nat)
  : result (list pydict) :=
  mapM (fun idx => mapM (fun '(k, c) => v ← getitem c idx; Ok (k, v)) chunked)
       (seq 0 num_chunks).

(** The branch of [InContextLearningMultipleChoiceTaskDataset.split_batch]
    for one batch item. *)
Definition MultipleChoice_split_entry (ds : dataset) (microbatch_size : Z)
    (k : string) (v : pyval) : result (option (list pyval)) :=
  if key_in k (static_keys ds) then Ok None
  else if bool_decide (type_of v = TyList) then
    if key_in k (list_of_tensors_keys ds) then
      Some <$> _split_list v (microbatch_size * num_choices ds)
    else if key_in k (list_of_tuples_keys ds) then
      Some <$> _split_list v microbatch_size
    else if key_in k (list_of_primitives ds) then
      Some <$> _default_split_batch v (SzInt microbatch_size)
    else Raise (ValueError "Unexpected key in list splitting")
  else if key_in k (tensor_keys ds) then
    Some <$> _default_split_batch v (SzInt (microbatch_size * num_choices ds))
  else Raise (ValueError "Unexpected key in batch splitting").

Definition float_size_error : exn :=
  ValueError "split_batch does not support floating point microbatch_size.".

Definition MultipleChoice_split_batch (ds : dataset) (batch : pydict)
    (microbatch_size : mbsize) : result (list pydict) :=
  match microbatch_size with
  | SzFloat _ => Raise float_size_error
  | SzInt n =>
      chunked ← split_loop (MultipleChoice_split_entry ds n) batch [];
      input_ids ← dict_getitem chunked "input_ids";
      let num_chunks := length input_ids in
      assemble (broadcast_static (static_keys ds) num_chunks batch chunked)
               num_chunks
  end.

(** The branch of
    [InContextLearningGenerationTaskWithAnswersDataset.split_batch] for one
    batch item. *)
Definition GenerationWithAnswers_split_entry (ds : dataset)
    (microbatch_size : Z) (k : string) (v : pyval)
  : result (option (list pyval)) :=
  if key_in k (static_keys ds) then Ok None
  else if key_in k (list_keys ds) then Some <$> _split_list v microbatch_size
  else if key_in k (tensor_keys ds) then
    Some <$> _default_split_batch v (SzInt microbatch_size)
  else Raise (ValueError "Unexpected key in batch splitting").

Definition GenerationWithAnswers_split_batch (ds : dataset) (batch : pydict)
    (microbatch_size : mbsize) : result (list pydict) :=
  match microbatch_size with
  | SzFloat _ => Raise float_size_error
  | SzInt n =>
      chunked ← split_loop (GenerationWithAnswers_split_entry ds n) batch [];
      input_ids ← dict_getitem chunked "input_ids";
      let num_chunks := length input_ids in
      assemble (broadcast_static (static_keys ds) num_chunks batch chunked)
               num_chunks
  end.

(** [split_batch], dispatched on the class: the base class (and the
    language-modelling class, which does not override it) hands the whole
    batch to composer's default splitter. *)
Definition split_batch (ds : dataset) (batch : pydict)
    (microbatch_size : mbsize) : result (list pyval) :=
  match kind ds with
  | Base | LanguageModeling =>
      _default_split_batch (PDict batch) microbatch_size
  | MultipleChoice | Schema =>
      (fun mbs : list pydict => PDict <$> mbs)
        <$> MultipleChoice_split_batch ds batch microbatch_size
  | GenerationWithAnswers =>
      (fun mbs : list pydict => PDict <$> mbs)
        <$> GenerationWithAnswers_split_batch ds batch microbatch_size
  end.

(** *** Multiple-choice collation *)

(** A tokenized multiple-choice record, as [tokenize_example] builds it:
    the padded context of every choice under [context_key], the continuation
    span of every choice, and the gold index. *)
Record tokenized_mc : Type := {
  tok_contexts : list (list Z);
  tok_continuation_indices : list (list Z);
  tok_gold : Z;
}.

(** The list-valued entries of the batch while [collate_fn] fills them. *)
Record mc_lists : Type := {
  b_input_ids : list (list Z);
  b_continuation_indices : list (list Z);
  b_labels : list (list Z);
  b_gold_indices : list Z;
  b_choice_groupings : list (Z * Z);
}.

(** The list entries of [base_batch], all empty. *)
Definition base_lists : mc_lists :=
  {| b_input_ids := []; b_continuation_indices := []; b_labels := [];
     b_gold_indices := []; b_choice_groupings := [] |}.

(** [for i, context_enc in enumerate(data_pair[self.context_key])]. *)
Fixpoint choice_loop (i : nat) (contexts : list (list Z))
    (continuation_indices : list (list Z)) (b : mc_lists) : result mc_lists :=
  match contexts with
  | [] => Ok b
  | context_enc :: contexts' =>
      span ← getitem continuation_indices i;
      choice_loop (S i) contexts' continuation_indices
        {| b_input_ids := b_input_ids b ++ [context_enc];
           b_continuation_indices := b_continuation_indices b ++ [span];
           b_labels := b_labels b ++ [context_enc];
           b_gold_indices := b_gold_indices b;
           b_choice_groupings := b_choice_groupings b |}
  end.

(** [for data_pair in data]. *)
Fixpoint collate_loop (data : list tokenized_mc) (b : mc_lists)
  : result mc_lists :=
  match data with
  | [] => Ok b
  | data_pair :: data' =>
      let choice_start_idx := Z.of_nat (length (b_continuation_indices b)) in
      b ← choice_loop 0 (tok_contexts data_pair)
            (tok_continuation_indices data_pair) b;
      let gold := b_gold_indices b ++ [tok_gold data_pair] in
      let choice_end_idx := Z.of_nat (length (b_continuation_indices b)) in
      collate_loop data'
        {| b_input_ids := b_input_ids b;
           b_continuation_indices := b_continuation_indices b;
           b_labels := b_labels b;
           b_gold_indices := gold;
           b_choice_groupings :=
             b_choice_groupings b ++ [(choice_start_idx, choice_end_idx)] |}
  end.

Definition token_list (l : list Z) : pyval := PList (PInt <$> l).

(** Modelled from the spec: [convert_tokens_to_tensors] lives in
    [llmfoundry/eval/datasets/utils.py], which is not among the sources. By
    spec section 4.4 it converts the list-of-token-lists entries into dense
    tensors, one row per token list: [input_ids] always, [labels] and the
    [continuation_indices] spans when labels are tokenized. The result is
    given here together with the static entries of [base_batch]. *)
Definition convert_tokens_to_tensors (ds : dataset) (b : mc_lists) : pydict :=
  [ ("input_ids", PTensor (T2 (b_input_ids b)));
    ("continuation_indices",
      PList ((if tokenize_labels ds
              then fun span => PTensor (T1 span)
              else token_list) <$> b_continuation_indices b));
    ("mode", PStr "icl_task");
    ("labels",
      if tokenize_labels ds then PTensor (T2 (b_labels b))
      else PList (token_list <$> b_labels b));
    ("gold_indices", PList (PInt <$> b_gold_indices b));
    ("choice_groupings",
      PList ((fun '(s, e) => PTuple [PInt s; PInt e])
               <$> b_choice_groupings b)) ]
  ++ match base_generation_kwargs ds with
     | Some kw => [("generation_kwargs", kw)]
     | None => []
     end.

(** [~(batch['input_ids'] == self.pad_tok_id)], booleans as 0 and 1. *)
Definition attention_mask (pad : Z) (input_ids : list (list Z)) : tensor :=
  T2 ((fun row : list Z => (fun tok => if tok =? pad then 0 else 1) <$> row)
        <$> input_ids).

(** [InContextLearningMultipleChoiceTaskDataset.collate_fn]. *)
Definition MultipleChoice_collate_fn (ds : dataset) (data : list tokenized_mc)
  : result pydict :=
  b ← collate_loop data base_lists;
  let batch := convert_tokens_to_tensors ds b in
  Ok (dict_set batch "attention_mask"
        (PTensor (attention_mask (pad_tok_id ds) (b_input_ids b)))).

(** *** The answer-length pre-pass of the generation dataset *)

(** Allow models slightly more tokens than the most verbose
    chain-of-thought answer of the dataset. *)
Definition _MAX_ANSWER_BUFFER_LENGTH : Z := 10.

(** A row of the loaded corpus: [aliases] and [chain_of_thought] are read
    with [examples.get(..., default)]. *)
Record example : Type := {
  ex_context : string;
  ex_answer : string;
  ex_aliases : option (list string);
  ex_chain_of_thought : option string;
}.

(** The loaded corpus; [features_chain_of_thought] is
    ['chain_of_thought' in dataset.features]. *)
Record corpus : Type := {
  features_chain_of_thought : bool;
  rows : list example;
}.

(** A row after the [dataset.map] of [read_dataset]. *)
Record mapped_example : Type := {
  m_context : string;
  m_answer : string;
  m_aliases : list string;
  m_chain_of_thought : string;
}.

(** The attributes that [read_dataset] reads and assigns, and the warnings
    it has logged. *)
Record gen_state : Type := {
  max_seq_len : Z;
  max_answer_length : Z;
  padding_size : Z;
  has_cot : bool;
  cot_delimiter : string;
  warnings : list string;
}.

(** The lambda of [dataset.map]: [set([answer] + aliases)] keeps one copy of
    every string (in an order Python does not fix). *)
Definition map_example (examples : example) : mapped_example :=
  {| m_context := ex_context examples;
     m_answer := ex_answer examples;
     m_aliases :=
       remove_dups (ex_answer examples :: default [] (ex_aliases examples));
     m_chain_of_thought := default "" (ex_chain_of_thought examples) |}.

Section GenerationWithAnswers.

(** The tokenizer collaborator, [tokenizer(text)['input_ids']] with special
    tokens enabled. *)
Variable tokenizer : string -> list Z.

(** The text whose tokens are counted for one answer. *)
Definition response (self : gen_state) (example_cot answer : string) : string :=
  if has_cot self then example_cot +:+ cot_delimiter self +:+ answer
  else answer.

(** [_get_max_answer_length]. *)
Definition _get_max_answer_length (self : gen_state)
    (dataset : list mapped_example) : Z :=
  let max_answer_length :=
    foldl (fun max_answer_length example =>
             let all_answers := m_answer example :: m_aliases example in
             foldl (fun max_answer_length answer =>
                      let tokenized_response :=
                        tokenizer
                          (response self (m_chain_of_thought example) answer) in
                      Z.max max_answer_length
                            (Z.of_nat (length tokenized_response)))
                   max_answer_length all_answers)
          0 dataset in
  max_answer_length
  + (if 0 <? Z.of_nat (String.length (cot_delimiter self))
     then _MAX_ANSWER_BUFFER_LENGTH else 0).

Definition max_seq_len_warning : string :=
  "`max_seq_len` was less than `max_answer_len`: setting `max_seq_len`=`max_answer_len`".

(** [InContextLearningGenerationTaskWithAnswersDataset.read_dataset], after
    the corpus has been loaded. *)
Definition read_dataset (self : gen_state) (loaded : corpus)
  : gen_state * list mapped_example :=
  let has_cot' := features_chain_of_thought loaded in
  let dataset := map_example <$> rows loaded in
  let self :=
    {| max_seq_len := max_seq_len self;
       max_answer_length := max_answer_length self;
       padding_size := padding_size self;
       has_cot := has_cot';
       cot_delimiter := cot_delimiter self;
       warnings := warnings self |} in
  let max_answer_length' := _get_max_answer_length self dataset in
  let '(max_seq_len', warnings') :=
    if max_seq_len self <? max_answer_length'
    then (max_answer_length', warnings self ++ [max_seq_len_warning])
    else (max_seq_len self, warnings self) in
  ({| max_seq_len := max_seq_len';
      max_answer_length := max_answer_length';
      padding_size := max_seq_len' - max_answer_length';
      has_cot := has_cot';
      cot_delimiter := cot_delimiter self;
      warnings := warnings' |}, dataset).

End GenerationWithAnswers.

(** *** Samples in a batch *)

(** [v.shape[0]]. *)
Definition py_shape0 (v : pyval) : result Z :=
  match v with
  | PTensor t => Ok (tensor_len t)
  | _ => Raise AttributeError
  end.

(** [get_num_samples_in_batch]: the number of rows, divided by the number
    of choices in the multiple-choice class (which the schema class
    inherits). *)
Definition get_num_samples_in_batch (ds : dataset) (batch : pydict)
  : result Z :=
  input_ids ← dict_getitem batch "input_ids";
  rows ← py_shape0 input_ids;
  if multi_choice (kind ds) then floordiv rows (num_choices ds) else Ok rows.

(** *** Generation arguments *)

(** [d.update(new)]. *)
Definition dict_update {V} (d new : list (string * V)) : list (string * V) :=
  foldl (fun d kv => dict_set d kv.1 kv.2) d new.

(** [update_generation_kwargs]: a falsy (empty) argument changes nothing;
    otherwise the ['generation_kwargs'] entry of [base_batch] is created if
    missing and updated in place. *)
Definition update_generation_kwargs (base_batch generation_kwargs : pydict)
  : result pydict :=
  match generation_kwargs with
  | [] => Ok base_batch
  | _ :: _ =>
      let base_batch :=
        match dict_get base_batch "generation_kwargs" with
        | None => dict_set base_batch "generation_kwargs" (PDict [])
        | Some _ => base_batch
        end in
      current ← dict_getitem base_batch "generation_kwargs";
      match current with
      | PDict d =>
          Ok (dict_set base_batch "generation_kwargs"
                (PDict (dict_update d generation_kwargs)))
      | _ => Raise AttributeError
      end
  end.

(** *** The answer of a generation example *)

(** [InContextLearningGenerationTaskWithAnswersDataset.get_answer_from_example]
    on a row of the mapped dataset. *)
Definition GenerationWithAnswers_get_answer_from_example (self : gen_state)
    (example : mapped_example) : string :=
  if has_cot self
  then m_chain_of_thought example +:+ cot_delimiter self +:+ m_answer example
  else m_answer example.

(** *** Prompt construction *)

(** The string attributes of a dataset object that the prompt methods
    read. *)
Record prompt_attrs : Type := {
  prelimiter : string;
  example_delimiter : string;
  continuation_delimiter : string;
  prefix_space : bool;
}.

(** [s.startswith(' ')]. *)
Definition startswith_space (s : string) : bool := String.prefix " " s.

(** [len(s) > 0]. *)
Definition nonempty (s : string) : bool := 0 <? Z.of_nat (String.length s).

Section Prompt.

Context {Example : Type}.
Variable self : prompt_attrs.

(** [example[self.context_key]] and [example[self.answer_key]]. *)
Variable context_of : Example -> string.
Variable answer_of : Example -> string.

(** [InContextLearningDataset.get_answer_from_example]. *)
Definition Base_get_answer_from_example (example : Example)
    (in_context : bool) : string :=
  let cont := answer_of example in
  if prefix_space self && negb (startswith_space cont) && negb in_context
  then " " +:+ cont
  else cont.

(** The method [get_answer_from_example] of the class at hand, which
    [construct_context] calls through [self]. *)
Variable get_answer_from_example : Example -> bool -> string.

(** [InContextLearningDataset.construct_context]. *)
Definition construct_context (example : Example) (preceding_text : string)
    (add_answer : bool) : string :=
  let ctxt := context_of example in
  let ctxt := prelimiter self +:+ ctxt in
  let ctxt :=
    if nonempty preceding_text then example_delimiter self +:+ ctxt
    else ctxt in
  let ctxt := ctxt +:+ continuation_delimiter self in
  if add_answer then ctxt +:+ get_answer_from_example example add_answer
  else ctxt.

(** [get_fewshot_sample_idxs(len(self.dataset), num_fewshot, example_idx,
    fewshot_rng)], a library function over a seeded sampler: the indices it
    draws for this call, in the order the loop visits them. *)
Variable get_fewshot_sample_idxs : Z -> Z -> Z -> list nat.

(** [InContextLearningDataset._generate_few_shot_prompt]. *)
Definition _generate_few_shot_prompt (dataset : list Example)
    (num_fewshot example_idx : Z) (preamble : string) : result string :=
  let few_shot_text := preamble in
  if 0 <? num_fewshot then
    let fewshot_idxs :=
      get_fewshot_sample_idxs (Z.of_nat (length dataset)) num_fewshot
        example_idx in
    foldl (fun acc fewshot_idx =>
             few_shot_text ← acc;
             shot ← getitem dataset fewshot_idx;
             let ctxt := construct_context shot few_shot_text true in
             Ok (few_shot_text +:+ ctxt))
          (Ok few_shot_text) fewshot_idxs
  else Ok few_shot_text.

End Prompt.

(** *** Tokenizing multiple-choice and schema examples *)

(** The attributes of a dataset object that [tokenize_example] reads. *)
Record tokenize_attrs : Type := {
  tokenizer_eos_token_id : option Z;
  strips_data : bool;
  adds_prefix_space : bool;
  context_padding_size : Z;
  padding_token : Z;
  padding_side : string;
}.

(** The lists of a tokenized example while [tokenize_example] fills
    them: [context_key], [answer_key] and ['continuation_indices']. *)
Record tokenized_lists : Type := {
  t_contexts : list (list Z);
  t_answers : list (list Z);
  t_continuation_indices : list (list Z);
}.

(** [f' {s}' if not s.startswith(' ') else s]. *)
Definition with_leading_space (s : string) : string :=
  if negb (startswith_space s) then " " +:+ s else s.

Section Tokenize.

(** The collaborators: the tokenizer ([tokenizer(text,
    add_special_tokens=b)['input_ids']]), [str.rstrip], and the helpers
    [trim_context], [get_continuation_span] and [make_padded_input] of
    [llmfoundry/eval/datasets/utils.py]. *)
Variable tokenizer : bool -> string -> list Z.
Variable rstrip : string -> string.
Variable trim_context : list Z -> list Z -> Z -> list Z.
Variable get_continuation_span : list Z -> list Z -> list Z.
Variable make_padded_input : list Z -> list Z -> Z -> Z -> string -> list Z.

Variable self : tokenize_attrs.

(** The body shared by the two loops: trim, locate the continuation, pad,
    and append to the three lists. *)
Definition append_choice (context tokenized_answer : list Z)
    (tokenized_example : tokenized_lists) : tokenized_lists :=
  let trimmed_context :=
    trim_context context tokenized_answer (context_padding_size self) in
  let continuation_indices :=
    get_continuation_span trimmed_context tokenized_answer in
  let padded_context :=
    make_padded_input trimmed_context tokenized_answer
      (context_padding_size self) (padding_token self) (padding_side self) in
  {| t_contexts := t_contexts tokenized_example ++ [padded_context];
     t_answers := t_answers tokenized_example ++ [tokenized_answer];
     t_continuation_indices :=
       t_continuation_indices tokenized_example ++ [continuation_indices] |}.

Definition no_lists : tokenized_lists :=
  {| t_contexts := []; t_answers := []; t_continuation_indices := [] |}.

(** [InContextLearningMultipleChoiceTaskDataset.tokenize_example] on an
    example with the given choices and gold index: the record handed to
    [collate_fn], and the tokenized answers. *)
Definition MultipleChoice_tokenize_example (prompt_and_fewshot ctxt : string)
    (choices : list string) (gold : Z) : tokenized_mc * list (list Z) :=
  let preamble := tokenizer true prompt_and_fewshot in
  let preamble := _fix_eos_on_preamble (tokenizer_eos_token_id self) preamble in
  let ctxt := if strips_data self then rstrip ctxt else ctxt in
  let tokenized_context := tokenizer false ctxt in
  let tokenized_context := preamble ++ tokenized_context in
  let tokenized_example :=
    foldl (fun tokenized_example choice =>
             let choice :=
               if adds_prefix_space self then with_leading_space choice
               else choice in
             let tokenized_answer := tokenizer false choice in
             append_choice tokenized_context tokenized_answer
               tokenized_example)
          no_lists choices in
  ({| tok_contexts := t_contexts tokenized_example;
      tok_continuation_indices := t_continuation_indices tokenized_example;
      tok_gold := gold |},
   t_answers tokenized_example).

(** [InContextLearningSchemaTaskDataset.tokenize_example] on the context
    options of an example with the given continuation and gold index. *)
Definition Schema_tokenize_example (prompt_and_fewshot : string)
    (context_options : list string) (continuation : string) (gold : Z)
  : tokenized_mc * list (list Z) :=
  let preamble := tokenizer true prompt_and_fewshot in
  let preamble := _fix_eos_on_preamble (tokenizer_eos_token_id self) preamble in
  let encoded_contexts :=
    (fun c => preamble ++ tokenizer false c) <$> context_options in
  let continuation :=
    if adds_prefix_space self then with_leading_space continuation
    else continuation in
  let tokenized_continuation := tokenizer false continuation in
  let tokenized_example :=
    foldl (fun tokenized_example context =>
             append_choice context tokenized_continuation tokenized_example)
          no_lists encoded_contexts in
  ({| tok_contexts := t_contexts tokenized_example;
      tok_continuation_indices := t_continuation_indices tokenized_example;
      tok_gold := gold |},
   t_answers tokenized_example).

End Tokenize.

(** *** The contexts of a schema example *)

(** [l[i]] for an int index: a negative index counts from the end. *)
Definition py_getitem {A} (l : list A) (i : Z) : result A :=
  let len := Z.of_nat (length l) in
  if 0 <=? i then getitem l (Z.to_nat i)
  else if - len <=? i then getitem l (Z.to_nat (len + i))
  else Raise IndexError.

Section SchemaContexts.

Variable self : prompt_attrs.
Variable strip_data : bool.
Variable rstrip : string -> string.

(** [InContextLearningSchemaTaskDataset.construct_context] on an example
    with the given context options, gold index and continuation. *)
Definition Schema_construct_context (context_options : list string)
    (gold_idx : Z) (continuation : string) (preceding_text : string)
  : result string :=
  context ← py_getitem context_options gold_idx;
  let context :=
    if nonempty preceding_text then example_delimiter self +:+ context
    else context in
  Ok (prelimiter self +:+ context +:+ continuation_delimiter self
      +:+ continuation).

(** [InContextLearningSchemaTaskDataset._construct_multiple_contexts]. *)
Definition _construct_multiple_contexts (context_options : list string)
    (preceding_text : string) : list string :=
  if nonempty preceding_text then
    let cont_del :=
      if strip_data then rstrip (continuation_delimiter self)
      else continuation_delimiter self in
    (fun c => prelimiter self +:+ example_delimiter self +:+ c +:+ cont_del)
      <$> context_options
  else (fun c => prelimiter self +:+ c) <$> context_options.

End SchemaContexts.

(** *** Partition by category *)

(** [s.split('/')]. *)
Fixpoint split_slash (s : string) : list string :=
  match s with
  | EmptyString => [EmptyString]
  | String c s' =>
      if String.eqb (String c EmptyString) "/"
      then EmptyString :: split_slash s'
      else match split_slash s' with
           | h :: t => String c h :: t
           | [] => [String c EmptyString]
           end
  end.

(** ['/'.join(l)]. *)
Fixpoint join_slash (l : list string) : string :=
  match l with
  | [] => ""
  | s :: l' =>
      match l' with
      | [] => s
      | _ :: _ => s +:+ "/" +:+ join_slash l'
      end
  end.

(** The file a category is written to:
    ['/'.join(path[:-1]) + f'/{cat}_{path[-1]}']. *)
Definition category_destination (destination_path cat : string)
  : result string :=
  let path := split_slash destination_path in
  let directory := join_slash (removelast path) in
  name ← match last path with
         | Some s => Ok s
         | None => Raise IndexError
         end;
  Ok (directory +:+ "/" +:+ cat +:+ "_" +:+ name).


Section PartitionByCategory.

Context {Row : Type}.

(** [l['category']] for a row of the loaded dataset. *)
Variable category_of : Row -> string.

(** The process environment: [dist.get_local_rank()], [os.path.abspath] and
    [dist.all_gather_object]. *)
Variable local_rank : Z.
Variable abspath : string -> string.
Variable all_gather_object : string -> list string.



End PartitionByCategory.

End ICL.

(** ** [llmfoundry/data/utils.py] *)

Module DataUtils.

(** *** Config validation *)

(** The scalar values a dataset config holds under the keys that
    [_validate_cfg] reads. *)
Inductive cfgval : Type :=
  | CNone
  | CBool (b : bool)
  | CInt (z : Z)
  | CFloat (f : spec_float)
  | CStr (s : string).

(** Truthiness, as [if dataset_cfg.pop(flag, False)] tests it. *)
Definition truthy (c : cfgval) : bool :=
  match c with
  | CNone => false
  | CBool b => b
  | CInt z => negb (z =? 0)
  | CFloat (S754_zero _) => false
  | CFloat _ => true
  | CStr s => negb (String.eqb s "")
  end.

(** The integer a float is exactly equal to, if any: a finite float is
    [(-1)^s * m * 2^e]. *)
Definition float_exact_int (f : spec_float) : option Z :=
  match f with
  | S754_zero _ => Some 0
  | S754_finite s m e =>
      let sign := if s then -1 else 1 in
      if 0 <=? e then Some (sign * (Z.pos m * 2 ^ e))
      else if Z.pos m `mod` 2 ^ (- e) =? 0
           then Some (sign * (Z.pos m `div` 2 ^ (- e)))
           else None
  | S754_infinity _ | S754_nan => None
  end.

(** [int(f)] on a float: truncation toward zero. *)
Definition int_of_float (f : spec_float) : result Z :=
  match f with
  | S754_zero _ => Ok 0
  | S754_finite s m e =>
      let sign := if s then -1 else 1 in
      if 0 <=? e then Ok (sign * (Z.pos m * 2 ^ e))
      else Ok (sign * (Z.pos m `div` 2 ^ (- e)))
  | S754_infinity _ => Raise OverflowError
  | S754_nan => Raise (ValueError "cannot convert float NaN to integer")
  end.

(** [c != i] for a config value and an int. *)
Definition ne_int (c : cfgval) (i : Z) : bool :=
  match c with
  | CNone => true
  | CBool b => negb (Z.b2z b =? i)
  | CInt z => negb (z =? i)
  | CFloat f => negb (bool_decide (float_exact_int f = Some i))
  | CStr _ => true
  end.

Definition is_not_none (c : cfgval) : bool :=
  match c with CNone => false | _ => true end.

(** [c != t] for a config value and a tokenizer's optional token id. *)
Definition ne_token_id (c : cfgval) (t : option Z) : bool :=
  match t with
  | Some i => ne_int c i
  | None => is_not_none c
  end.

(** What [_validate_cfg] leaves behind when it returns: the config, which it
    mutates, and the warnings it logged. *)
Record validated : Type := {
  cfg_out : gmap string cfgval;
  logged : list string;
}.

Definition eos_mismatch_str : string :=
  "Provided eos_token_id does not match the eos_token_id of the tokenizer.".
Definition bos_mismatch_str : string :=
  "Provided bos_token_id does not match the bos_token_id of the tokenizer.".

Section ValidateCfg.

(** Python's [int(s)] on a string, which parses it or raises. *)
Variable int_of_str : string -> result Z.

(** [int(max_seq_len)]. *)
Definition py_int (c : cfgval) : result Z :=
  match c with
  | CNone => Raise TypeError
  | CBool b => Ok (Z.b2z b)
  | CInt z => Ok z
  | CFloat f => int_of_float f
  | CStr s => int_of_str s
  end.

(** One of the two token-id checks: the flag is popped only when the ids
    differ. *)
Definition check_token_id (key flag msg : string) (tokenizer_id : option Z)
    (st : validated) : result validated :=
  let token_id := default CNone (cfg_out st !! key) in
  if is_not_none token_id && ne_token_id token_id tokenizer_id then
    let override := default (CBool false) (cfg_out st !! flag) in
    let cfg := delete flag (cfg_out st) in
    if truthy override
    then Ok {| cfg_out := cfg; logged := logged st ++ [msg] |}
    else Raise (ValueError msg)
  else Ok st.

(** [_validate_cfg(dataset_cfg, tokenizer)], with the tokenizer given by its
    two token ids. *)
Definition _validate_cfg (dataset_cfg : gmap string cfgval)
    (tokenizer_eos_token_id tokenizer_bos_token_id : option Z)
  : result validated :=
  st ← check_token_id "eos_token_id" "override_eos_token_id_mismatch_error"
         eos_mismatch_str tokenizer_eos_token_id
         {| cfg_out := dataset_cfg; logged := [] |};
  st ← check_token_id "bos_token_id" "override_bos_token_id_mismatch_error"
         bos_mismatch_str tokenizer_bos_token_id st;
  let max_seq_len := default CNone (cfg_out st !! "max_seq_len") in
  if is_not_none max_seq_len then
    i ← py_int max_seq_len;
    if ne_int max_seq_len i
    then Raise (ValueError "max_seq_len must be an integer")
    else Ok {| cfg_out := <["max_seq_len" := CInt i]> (cfg_out st);
               logged := logged st |}
  else Ok st.

End ValidateCfg.

(** *** The token-counting collator wrapper *)

(** What a token-counting function returns: an int, or a dict with the
    entries ['total'] and ['loss_generating']. *)
Inductive num_tokens : Type :=
  | CountInt (n : Z)
  | CountDict (total loss_generating : Z).

Definition _token_count_batch_keys : list string :=
  ["input_ids"; "attention_mask"; "labels"; "decoder_attention_mask"].

(** [v.shape[0]]. *)
Definition shape0 (v : pyval) : result Z :=
  match v with
  | PTensor t => Ok (tensor_len t)
  | _ => Raise AttributeError
  end.

Section LossGeneratingTokensCollatorWrapper.

Context {Example : Type}.
Variable base_collator : list Example -> gmap string pyval.
Variable token_counting_func : gmap string pyval -> num_tokens.

(** The inner loop: the one-row batch handed to the counting function. *)
Definition row_batch (batch : gmap string pyval) (row : Z)
  : result (gmap string pyval) :=
  foldl (fun acc key =>
           row_batch ← acc;
           match batch !! key with
           | Some v =>
               r ← py_slice v row (row + 1);
               Ok (<[key := r]> row_batch)
           | None => Ok row_batch
           end)
        (Ok ∅) _token_count_batch_keys.

(** The two lists of [output] while the row loop fills them. *)
Record counts : Type := {
  total_tokens : list Z;
  loss_generating_tokens : list Z;
}.

(** [for row in range(num_rows)]. *)
Definition count_rows (batch : gmap string pyval) (num_rows : Z)
  : result counts :=
  foldl (fun acc (row : nat) =>
           output ← acc;
           rb ← row_batch batch (Z.of_nat row);
           match token_counting_func rb with
           | CountDict total loss_generating =>
               Ok {| total_tokens := total_tokens output ++ [total];
                     loss_generating_tokens :=
                       loss_generating_tokens output ++ [loss_generating] |}
           | CountInt n =>
               Ok {| total_tokens := total_tokens output ++ [n];
                     loss_generating_tokens :=
                       loss_generating_tokens output ++ [n] |}
           end)
        (Ok {| total_tokens := []; loss_generating_tokens := [] |})
        (seq 0 (Z.to_nat num_rows)).

(** [LossGeneratingTokensCollatorWrapper.__call__]. *)
Definition __call__ (examples : list Example) : result (gmap string pyval) :=
  let batch := base_collator examples in
  input_ids ← match batch !! "input_ids" with
              | Some v => Ok v
              | None => Raise (KeyError "input_ids")
              end;
  num_rows ← shape0 input_ids;
  output ← count_rows batch num_rows;
  let batch := <["total_tokens" := PList (PInt <$> total_tokens output)]> batch in
  Ok (<["loss_generating_tokens" :=
          PList (PInt <$> loss_generating_tokens output)]> batch).

End LossGeneratingTokensCollatorWrapper.

(** *** Replication and batch size *)

(** [c > i] for a config value and an int; a string cannot be ordered
    against an int. *)
Definition gt_int (c : cfgval) (i : Z) : result bool :=
  match c with
  | CNone | CStr _ => Raise TypeError
  | CBool b => Ok (i <? Z.b2z b)
  | CInt z => Ok (i <? z)
  | CFloat (S754_zero _) => Ok (i <? 0)
  | CFloat (S754_finite s m e) =>
      let sign := if s then -1 else 1 in
      if 0 <=? e then Ok (i <? sign * (Z.pos m * 2 ^ e))
      else Ok (i * 2 ^ (- e) <? sign * Z.pos m)
  | CFloat (S754_infinity s) => Ok (negb s)
  | CFloat S754_nan => Ok false
  end.

(** [c or d]. *)
Definition py_or (c d : cfgval) : cfgval := if truthy c then c else d.

(** [isinstance(c, int)]; a bool is an int. *)
Definition is_int (c : cfgval) : bool :=
  match c with CBool _ | CInt _ => true | _ => false end.

Section ValidateDsReplication.

Variable int_of_str : string -> result Z.

(** [validate_ds_replication]: the pair it returns, together with what
    [_validate_cfg] left behind. *)
Definition validate_ds_replication (dataset_cfg : gmap string cfgval)
    (tokenizer_eos_token_id tokenizer_bos_token_id : option Z)
    (device_batch_size : cfgval) : result (validated * (cfgval * cfgval)) :=
  st ← _validate_cfg int_of_str dataset_cfg tokenizer_eos_token_id
         tokenizer_bos_token_id;
  let dataset_cfg := cfg_out st in
  parallel ← gt_int (py_or (default (CInt 1)
                              (dataset_cfg !! "seq_parallel_replication"))
                           (CInt 1)) 1;
  if parallel : bool then Raise NotImplementedError
  else if negb (is_int device_batch_size)
  then Raise (ValueError "device_batch_size should be integer.")
  else Ok (st, (py_or (default (CInt 1) (dataset_cfg !! "replication"))
                      (CInt 1),
                device_batch_size)).

End ValidateDsReplication.

(** *** Counting the tokens of a batch *)

(** [sum(v)] for a list of ints, which is what the collator wrapper stores
    under the two count keys; a list holding anything else is reported as
    [TypeError]. *)
Definition py_sum (v : pyval) : result Z :=
  match v with
  | PList l | PTuple l =>
      foldl (fun acc item =>
               a ← acc;
               match item with
               | PInt z => Ok (a + z)
               | PBool b => Ok (a + Z.b2z b)
               | _ => Raise TypeError
               end) (Ok 0) l
  | _ => Raise TypeError
  end.

(** The entries of a tensor, row after row. *)
Definition entries (t : tensor) : list Z :=
  match t with
  | T1 l => l
  | T2 rows => concat rows
  end.

(** [int(torch.sum(v).item())]. *)
Definition torch_sum (v : pyval) : result Z :=
  match v with
  | PTensor t => Ok (foldr Z.add 0 (entries t))
  | _ => Raise TypeError
  end.

(** [v.numel()]. *)
Definition numel (v : pyval) : result Z :=
  match v with
  | PTensor t => Ok (Z.of_nat (length (entries t)))
  | _ => Raise AttributeError
  end.

Section GetTokensPerBatchFunc.

(** [CROSS_ENTROPY_IGNORE_INDEX], imported from [llmfoundry.utils.consts]. *)
Variable CROSS_ENTROPY_IGNORE_INDEX : Z.

Variable decoder_only : bool.

(** [torch.count_nonzero(torch.eq(labels[..., 1:], CROSS_ENTROPY_IGNORE_INDEX))]
    on the rows of a 2-D tensor. *)
Definition count_ignored (rows : list (list Z)) : Z :=
  foldr Z.add 0
    ((fun row : list Z =>
        Z.of_nat (length (filter (fun tok => tok = CROSS_ENTROPY_IGNORE_INDEX)
                                 (drop 1 row)))) <$> rows).

(** [labels.shape[0] * (labels.shape[1] - 1) - count_nonzero(...)]: a 1-D
    tensor has no [shape[1]]. The width of a 2-D tensor is that of its
    rows; without rows the product is 0 whatever the width. *)
Definition loss_generating_of (labels : pyval) : result Z :=
  match labels with
  | PTensor (T2 rows) =>
      Ok (Z.of_nat (length rows) * (Z.of_nat (length (default [] (head rows))) - 1)
          - count_ignored rows)
  | PTensor (T1 _) => Raise IndexError
  | _ => Raise AttributeError
  end.

(** The closure [get_num_tokens_in_batch] that [get_tokens_per_batch_func]
    returns, on a batch that is a mapping. *)
Definition get_num_tokens_in_batch (batch : gmap string pyval)
  : result num_tokens :=
  if bool_decide (batch !! "attention_mask" = None)
     && bool_decide (batch !! "input_ids" = None)
  then Raise (ValueError
    "get_tokens_per_batch_func() requires a batch with an attention_mask key or an input_ids key")
  else if negb decoder_only
          && bool_decide (batch !! "decoder_attention_mask" = None)
  then Raise (ValueError
    "get_tokens_per_batch_func() for encoder decoder requires a batch with a decoder_attention_mask key")
  else
    match batch !! "total_tokens", batch !! "loss_generating_tokens" with
    | Some total_tokens, Some loss_generating_tokens =>
        total ← py_sum total_tokens;
        loss_generating ← py_sum loss_generating_tokens;
        Ok (CountDict total loss_generating)
    | _, _ =>
        input_ids_tokens ←
          match batch !! "attention_mask" with
          | Some mask => torch_sum mask
          | None =>
              input_ids ← match batch !! "input_ids" with
                          | Some v => Ok v
                          | None => Raise (KeyError "input_ids")
                          end;
              numel input_ids
          end;
        loss_generating_tokens ←
          match batch !! "labels" with
          | Some labels => Some <$> loss_generating_of labels
          | None => Ok None
          end;
        decoder_input_ids_tokens ←
          (if decoder_only then Ok 0
           else
             mask ← match batch !! "decoder_attention_mask" with
                    | Some v => Ok v
                    | None => Raise (KeyError "decoder_attention_mask")
                    end;
             torch_sum mask);
        Ok (match loss_generating_tokens with
            | Some loss_generating =>
                CountDict (input_ids_tokens + decoder_input_ids_tokens)
                          loss_generating
            | None => CountInt (input_ids_tokens + decoder_input_ids_tokens)
            end)
    end.

End GetTokensPerBatchFunc.

End DataUtils.

(** * Vocabulary of the statements *)

Import ICL DataUtils.

(** ** Sample datasets used to exercise the statements *)

(** A multiple-choice dataset with the key lists the constructor installs
    by default. *)
Definition mc_dataset (n_choices : Z) : dataset :=
  {| kind := MultipleChoice;
     num_choices := n_choices;
     eos_token_id := Some 2;
     pad_tok_id := 0;
     tokenize_labels := true;
     base_generation_kwargs := None;
     static_keys := ["mode"; "generation_kwargs"];
     list_keys := [];
     tensor_keys := ["input_ids"; "labels"; "attention_mask"];
     list_of_tensors_keys := ["continuation_indices"];
     list_of_tuples_keys := ["choice_groupings"];
     list_of_primitives := ["gold_indices"] |}.

(** A language-modelling dataset. *)
Definition lm_dataset : dataset :=
  {| kind := LanguageModeling;
     num_choices := 0;
     eos_token_id := Some 2;
     pad_tok_id := 0;
     tokenize_labels := true;
     base_generation_kwargs := None;
     static_keys := ["mode"];
     list_keys := [];
     tensor_keys :=
       ["input_ids"; "continuation_indices"; "labels"; "attention_mask"];
     list_of_tensors_keys := [];
     list_of_tuples_keys := [];
     list_of_primitives := [] |}.

(** A generation-with-answers dataset. *)
Definition gen_dataset : dataset :=
  {| kind := GenerationWithAnswers;
     num_choices := 0;
     eos_token_id := Some 2;
     pad_tok_id := 0;
     tokenize_labels := false;
     base_generation_kwargs := None;
     static_keys :=
       ["mode"; "cot_delimiter"; "generation_kwargs"; "do_normalization";
        "stopping_criteria"];
     list_keys := ["labels"];
     tensor_keys := ["input_ids"; "attention_mask"];
     list_of_tensors_keys := [];
     list_of_tuples_keys := [];
     list_of_primitives := [] |}.

(** ** Key classification *)

(** The classes that override [split_batch] with a per-key dispatch. *)
Definition dispatches_on_keys (v : variant) : bool :=
  match v with
  | MultipleChoice | Schema | GenerationWithAnswers => true
  | Base | LanguageModeling => false
  end.

(** [k] is a static key or belongs to one of the list and tensor
    classifications. *)
Definition classified (ds : dataset) (k : string) : bool :=
  key_in k (static_keys ds)
  || key_in k (list_of_tensors_keys ds)
  || key_in k (list_of_tuples_keys ds)
  || key_in k (list_of_primitives ds)
  || key_in k (list_keys ds)
  || key_in k (tensor_keys ds).

(** The loop body that the class of [ds] runs for one batch item. *)
Definition split_entry (ds : dataset) (n : Z) (k : string) (v : pyval)
  : result (option (list pyval)) :=
  match kind ds with
  | GenerationWithAnswers => GenerationWithAnswers_split_entry ds n k v
  | _ => MultipleChoice_split_entry ds n k v
  end.

(** A batch with a tensor entry followed by a key no list knows. *)
Definition batch_with_surprise : pydict :=
  [ ("input_ids", PTensor (T2 [[1; 2]; [3; 4]]));
    ("surprise", PList [PInt 7]) ].

(** ** Answer lengths *)

(** Every answer of a corpus row: the answer and its aliases. *)
Definition answers_of (e : example) : list string :=
  ex_answer e :: default [] (ex_aliases e).

(** The number of tokens of the response built for one answer of a row:
    the chain of thought and the delimiter come first when the corpus has a
    chain-of-thought column. *)
Definition response_length (tokenizer : string -> list Z) (with_cot : bool)
    (delimiter : string) (e : example) (answer : string) : Z :=
  Z.of_nat (length (tokenizer
    (if with_cot
     then default "" (ex_chain_of_thought e) +:+ delimiter +:+ answer
     else answer))).

(** [m] is the maximum of [f] over all pairs of a row of [l] and one of its
    answers, and 0 when there are none. *)
Definition is_max_over (l : list example) (f : example -> string -> Z)
    (m : Z) : Prop :=
  (forall e a, e ∈ l -> a ∈ answers_of e -> f e a <= m)
  /\ (l = [] -> m = 0)
  /\ (l <> [] -> exists e a, e ∈ l /\ a ∈ answers_of e /\ f e a = m).

(** ** Config validation *)

(** The config provides a token id under [key] that differs from the
    tokenizer's. *)
Definition token_id_mismatch (cfg : gmap string cfgval) (key : string)
    (tokenizer_id : option Z) : bool :=
  let c := default CNone (cfg !! key) in
  is_not_none c && ne_token_id c tokenizer_id.

(** The override flag [flag] is set in the config. *)
Definition override_set (cfg : gmap string cfgval) (flag : string) : bool :=
  truthy (default (CBool false) (cfg !! flag)).

(** The value is an integer: an int (or bool), or a float equal to one. *)
Definition integer_valued (c : cfgval) : bool :=
  match c with
  | CBool _ | CInt _ => true
  | CFloat f => bool_decide (is_Some (float_exact_int f))
  | CNone | CStr _ => false
  end.

(** The config provides a [max_seq_len] that is not an integer value. *)
Definition max_seq_len_not_integer (cfg : gmap string cfgval) : bool :=
  let c := default CNone (cfg !! "max_seq_len") in
  is_not_none c && negb (integer_valued c).

Definition eos_flag : string := "override_eos_token_id_mismatch_error".
Definition bos_flag : string := "override_bos_token_id_mismatch_error".

(** A parser for decimal digits only, enough to run the examples. *)
Definition digits_only (s : string) : result Z :=
  match s with
  | "128" => Ok 128
  | _ => Raise (ValueError "invalid literal for int()")
  end.

(** 2.5 as a float: 5 * 2^-1. *)
Definition two_and_a_half : spec_float := S754_finite false 5 (-1).

(** Configs that exercise the checks: an eos id that differs, a bos id that
    differs, and the eos mismatch overridden with a fractional and with an
    integral [max_seq_len]. *)
Definition cfg_eos_differs : gmap string cfgval :=
  {[ "eos_token_id" := CInt 5 ]}.
Definition cfg_bos_differs : gmap string cfgval :=
  {[ "bos_token_id" := CInt 5 ]}.
Definition cfg_fractional_len : gmap string cfgval :=
  <["max_seq_len" := CFloat two_and_a_half]>
    (<[eos_flag := CBool true]> cfg_eos_differs).
Definition cfg_overridden : gmap string cfgval :=
  <["max_seq_len" := CInt 128]> (<[eos_flag := CBool true]> cfg_eos_differs).

(** ** The token-counting wrapper *)

(** The two numbers taken from what the counting function returns. *)
Definition count_total (c : num_tokens) : Z :=
  match c with CountInt n => n | CountDict total _ => total end.
Definition count_loss_generating (c : num_tokens) : Z :=
  match c with CountInt n => n | CountDict _ loss => loss end.

(** Row [row] of a tensor, as a tensor with that single row. *)
Definition tensor_row (row : Z) (t : tensor) : tensor :=
  match t with
  | T1 l => T1 (slice l row (row + 1))
  | T2 rows => T2 (slice rows row (row + 1))
  end.

(** The entry of the one-row batch under [key]: row [row] of the tensor the
    batch holds under a token-count key. *)
Definition row_entry (batch : gmap string pyval) (row : Z) (key : string)
  : option pyval :=
  if bool_decide (key ∈ _token_count_batch_keys) then
    match batch !! key with
    | Some (PTensor t) => Some (PTensor (tensor_row row t))
    | _ => None
    end
  else None.

(** The one-row batch built for a row (empty if building it raises). *)
Definition the_row_batch (batch : gmap string pyval) (row : nat)
  : gmap string pyval :=
  match row_batch batch (Z.of_nat row) with
  | Ok rb => rb
  | Raise _ => ∅
  end.

(** A base collator that stacks token rows, and a counting function that
    counts the tokens of the rows it is given. *)
Definition stacking_collator (examples : list (list Z)) : gmap string pyval :=
  {[ "input_ids" := PTensor (T2 examples) ]}.
Definition count_input_ids (batch : gmap string pyval) : num_tokens :=
  match batch !! "input_ids" with
  | Some (PTensor (T2 rows)) => CountInt (Z.of_nat (length (concat rows)))
  | _ => CountInt 0
  end.

(** ** Multiple-choice batches *)

(** A tokenized record carries [n] per-choice contexts and as many
    continuation spans. *)
Definition carries_choices (n : nat) (r : tokenized_mc) : Prop :=
  length (tok_contexts r) = n /\ length (tok_continuation_indices r) = n.

(** Two questions with two choices each, padded to width 3. *)
Definition two_questions : list tokenized_mc :=
  [ {| tok_contexts := [[5; 6; 0]; [5; 7; 8]];
       tok_continuation_indices := [[1]; [1; 2]];
       tok_gold := 1 |};
    {| tok_contexts := [[9; 4; 0]; [9; 3; 0]];
       tok_continuation_indices := [[1]; [1]];
       tok_gold := 0 |} ].

(** How the multiple-choice splitter treats a batch entry: broadcast, split
    by rows (a multiple of the choices at a time), or split by questions. *)
Inductive key_class : Type :=
  | Static
  | PerRow
  | PerQuestion
  | PerQuestionPrimitive.

Definition mc_key_class (ds : dataset) (k : string) (v : pyval)
  : option key_class :=
  if key_in k (static_keys ds) then Some Static
  else if bool_decide (type_of v = TyList) then
    if key_in k (list_of_tensors_keys ds) then Some PerRow
    else if key_in k (list_of_tuples_keys ds) then Some PerQuestion
    else if key_in k (list_of_primitives ds) then Some PerQuestionPrimitive
    else None
  else if key_in k (tensor_keys ds) then Some PerRow
  else None.

(** An entry of a batch of [Q] questions: a row-wise entry has
    [num_choices * Q] rows, a question-wise entry has [Q] items. *)
Definition mc_entry_ok (ds : dataset) (Q : nat) (k : string) (v : pyval)
  : Prop :=
  match mc_key_class ds k v with
  | Some Static => True
  | Some PerRow =>
      match v with
      | PList l => Z.of_nat (length l) = num_choices ds * Z.of_nat Q
      | PTensor t => tensor_len t = num_choices ds * Z.of_nat Q
      | _ => False
      end
  | Some PerQuestion =>
      match v with PList l => length l = Q | _ => False end
  | Some PerQuestionPrimitive =>
      match v with
      | PList l => length l = Q /\ _check_list_is_primitives l = true
      | _ => False
      end
  | None => False
  end.

(** A multiple-choice batch of [Q] questions: a dict (no key twice) whose
    entries are all of a known class and of the right length, with the
    token tensor under ['input_ids']. *)
Definition mc_batch (ds : dataset) (Q : nat) (batch : pydict) : Prop :=
  NoDup batch.*1
  /\ (forall k v, (k, v) ∈ batch -> mc_entry_ok ds Q k v)
  /\ key_in "input_ids" (static_keys ds) = false
  /\ exists rows, dict_get batch "input_ids" = Some (PTensor (T2 rows)).

(** The [i]-th run of [size] entries. *)
Definition chunk {A} (size i : nat) (l : list A) : list A :=
  take size (drop (i * size) l).

Definition chunk_of (size i : nat) (v : pyval) : pyval :=
  match v with
  | PList l => PList (chunk size i l)
  | PTuple l => PTuple (chunk size i l)
  | PTensor (T1 l) => PTensor (T1 (chunk size i l))
  | PTensor (T2 rows) => PTensor (T2 (chunk size i rows))
  | _ => v
  end.

(** The number of chunks of a sequence of [len] entries cut every [n]. *)
Definition n_chunks (len n : Z) : nat :=
  if len <=? n then 1%nat else Z.to_nat ((len + n - 1) `div` n).

(** The values that can be sliced entry by entry. *)
Definition sliceable (v : pyval) : bool :=
  match v with
  | PList _ | PTuple _ | PTensor _ => true
  | _ => false
  end.

(** The rows of a 2-D tensor entry of a (micro)batch. *)
Definition rows_at (k : string) (mb : pydict) : option (list (list Z)) :=
  match dict_get mb k with
  | Some (PTensor (T2 rows)) => Some rows
  | _ => None
  end.

(** The items of a list entry of a (micro)batch. *)
Definition items_at (k : string) (mb : pydict) : option (list pyval) :=
  match dict_get mb k with
  | Some (PList l) => Some l
  | _ => None
  end.

(** The number of entries cut together for a class of key. *)
Definition chunk_size (ds : dataset) (n : Z) (c : key_class) : nat :=
  match c with
  | PerRow => Z.to_nat (n * num_choices ds)
  | _ => Z.to_nat n
  end.

(** The chunk sequence the first loop stores for an entry. *)
Definition mc_expect (ds : dataset) (Q : nat) (n : Z) (k : string) (v : pyval)
  : option (list pyval) :=
  match mc_key_class ds k v with
  | Some Static | None => None
  | Some c =>
      Some ((fun i => chunk_of (chunk_size ds n c) i v)
              <$> seq 0 (n_chunks (Z.of_nat Q) n))
  end.

(** The value microbatch [i] holds for an entry of the batch. *)
Definition microbatch_entry (ds : dataset) (n : Z) (i : nat) (k : string)
    (v : pyval) : pyval :=
  match mc_key_class ds k v with
  | Some Static | None => v
  | Some c => chunk_of (chunk_size ds n c) i v
  end.

(** A collated batch of three questions with two choices each. *)
Definition three_questions_batch : pydict :=
  [ ("input_ids", PTensor (T2 [[1]; [2]; [3]; [4]; [5]; [6]]));
    ("continuation_indices",
      PList [PTensor (T1 [0]); PTensor (T1 [0]); PTensor (T1 [0]);
             PTensor (T1 [0]); PTensor (T1 [0]); PTensor (T1 [0])]);
    ("mode", PStr "icl_task");
    ("labels", PTensor (T2 [[1]; [2]; [3]; [4]; [5]; [6]]));
    ("gold_indices", PList [PInt 0; PInt 1; PInt 1]);
    ("choice_groupings",
      PList [PTuple [PInt 0; PInt 2]; PTuple [PInt 2; PInt 4];
             PTuple [PInt 4; PInt 6]]);
    ("attention_mask", PTensor (T2 [[1]; [1]; [1]; [1]; [1]; [1]])) ].

(** ** Vocabulary of the further properties *)

(** The ranges of [gs] follow one another from [start] to [stop]: each
    begins where the previous one ends. *)
Fixpoint tiles (gs : list (Z * Z)) (start stop : Z) : Prop :=
  match gs with
  | [] => start = stop
  | (s, e) :: gs' => s = start /\ start <= e /\ tiles gs' e stop
  end.

(** A grouping as the batch stores it. *)
Definition grouping_tuple (g : Z * Z) : pyval :=
  PTuple [PInt g.1; PInt g.2].

(** A config whose [max_seq_len] is the float 128.0 (1 * 2^7), with the
    eos mismatch overridden. *)
Definition cfg_float_len : gmap string cfgval :=
  <["max_seq_len" := CFloat (S754_finite false 1 7)]>
    (<[eos_flag := CBool true]> cfg_eos_differs).

(** The key lists that the multiple-choice constructor installs when it is
    given none. *)
Definition standard_mc_keys (ds : dataset) : Prop :=
  static_keys ds = ["mode"; "generation_kwargs"]
  /\ tensor_keys ds = ["input_ids"; "labels"; "attention_mask"]
  /\ list_of_tensors_keys ds = ["continuation_indices"]
  /\ list_of_tuples_keys ds = ["choice_groupings"]
  /\ list_of_primitives ds = ["gold_indices"].

(** The sum of a list of ints. *)
Definition sum_Z (l : list Z) : Z := foldr Z.add 0 l.

(** An entry of a generation batch of [R] rows: static, a list of [R]
    items under a list key, or a tensor of [R] rows under a tensor key. *)
Definition gen_entry_ok (ds : dataset) (R : nat) (k : string) (v : pyval)
  : Prop :=
  if key_in k (static_keys ds) then True
  else if key_in k (list_keys ds) then
    match v with PList l => length l = R | _ => False end
  else if key_in k (tensor_keys ds) then
    match v with PTensor t => tensor_len t = Z.of_nat R | _ => False end
  else False.

(** A generation batch of [R] rows: a dict (no key twice) whose entries are
    all of a known class and of the right length, with the token tensor
    under ['input_ids']. *)
Definition gen_batch (ds : dataset) (R : nat) (batch : pydict) : Prop :=
  NoDup batch.*1
  /\ (forall k v, (k, v) ∈ batch -> gen_entry_ok ds R k v)
  /\ key_in "input_ids" (static_keys ds) = false
  /\ exists rows, dict_get batch "input_ids" = Some (PTensor (T2 rows)).

(** The chunk sequence the first loop of the generation splitter stores for
    an entry. *)
Definition gen_expect (ds : dataset) (R : nat) (n : Z) (k : string) (v : pyval)
  : option (list pyval) :=
  if key_in k (static_keys ds) then None
  else Some ((fun i => chunk_of (Z.to_nat n) i v) <$> seq 0 (n_chunks (Z.of_nat R) n)).

(** A generation batch of three prompts. *)
Definition three_prompts_batch : pydict :=
  [ ("input_ids", PTensor (T2 [[1; 2]; [3; 4]; [5; 6]]));
    ("mode", PStr "generate");
    ("labels", PList [PList [PStr "a"]; PList [PStr "b"]; PList [PStr "c"]]);
    ("attention_mask", PTensor (T2 [[1; 1]; [1; 1]; [1; 1]]));
    ("generation_kwargs", PDict [("max_new_tokens", PInt 4)]) ].

(** ** Token batches *)

(** A batch of [R] token rows, as the collators build it: a 2-D tensor of
    [R] rows under ['input_ids'] and, when present, under
    ['attention_mask'] and ['labels'] (the label rows all of one width), and
    a tensor under ['decoder_attention_mask'] when present. *)
Definition token_batch (R : nat) (batch : gmap string pyval) : Prop :=
  (exists ids, batch !! "input_ids" = Some (PTensor (T2 ids)) /\ length ids = R)
  /\ match batch !! "attention_mask" with
     | None => True
     | Some (PTensor (T2 mask)) => length mask = R
     | Some _ => False
     end
  /\ match batch !! "labels" with
     | None => True
     | Some (PTensor (T2 labels)) =>
         length labels = R
         /\ exists width, Forall (fun row => length row = width) labels
     | Some _ => False
     end
  /\ match batch !! "decoder_attention_mask" with
     | None | Some (PTensor _) => True
     | Some _ => False
     end.

(** The counting function that [get_text_collator] and
    [get_finetuning_collator] hand to the wrapper,
    [get_tokens_per_batch_func()], as a function that always returns: a
    count that raises is given as 0. *)
Definition counting_func (ignore_index : Z) (batch : gmap string pyval)
  : num_tokens :=
  match get_num_tokens_in_batch ignore_index true batch with
  | Ok n => n
  | Raise _ => CountInt 0
  end.

(** A collator that stacks token rows with their labels and a mask. *)
Definition labelled_collator (examples : list (list Z * list Z))
  : gmap string pyval :=
  {[ "input_ids" := PTensor (T2 (examples.*1));
     "labels" := PTensor (T2 (examples.*2));
     "attention_mask" :=
       PTensor (attention_mask 0 (examples.*1)) ]}.

(** What the counting function finds on the rows [sel rows] of the token
    tensors of a token batch that has no count lists. *)
Definition count_on (ignore_index : Z) (batch : gmap string pyval)
    (sel : list (list Z) -> list (list Z)) : num_tokens :=
  let tokens :=
    match batch !! "attention_mask", batch !! "input_ids" with
    | Some (PTensor (T2 mask)), _ => sum_Z (concat (sel mask))
    | _, Some (PTensor (T2 ids)) => Z.of_nat (length (concat (sel ids)))
    | _, _ => 0
    end in
  match batch !! "labels" with
  | Some (PTensor (T2 labels)) =>
      CountDict tokens
        (Z.of_nat (length (sel labels))
         * (Z.of_nat (length (default [] (head labels))) - 1)
         - count_ignored ignore_index (sel labels))
  | _ => CountInt tokens
  end.

(** The label positions that generate loss: those after the first column
    that do not hold the ignore index. *)
Definition loss_positions (ignore_index : Z) (rows : list (list Z)) : Z :=
  sum_Z ((fun row : list Z =>
            Z.of_nat (length (filter (fun tok => tok <> ignore_index)
                                     (drop 1 row)))) <$> rows).

(** ** Prompts *)

(** [''.join(l)]. *)
Definition concat_strings (l : list string) : string :=
  foldr String.append "" l.

(** A few-shot example as it is rendered after a non-empty text: example
    delimiter, prelimiter, context, continuation delimiter and answer. *)
Definition shot_text {Example : Type} (self : prompt_attrs)
    (context_of : Example -> string)
    (get_answer_from_example : Example -> bool -> string) (shot : Example)
  : string :=
  example_delimiter self +:+ prelimiter self +:+ context_of shot
  +:+ continuation_delimiter self +:+ get_answer_from_example shot true.

(** A question-answering prompt layout and three rows to draw shots
    from. *)
Definition qa_attrs : prompt_attrs :=
  {| prelimiter := "Q: ";
     example_delimiter := "|";
     continuation_delimiter := " A:";
     prefix_space := true |}.
Definition qa_rows : list (string * string) :=
  [("1+1", "2"); ("2+2", "4"); ("3+3", "6")].

(** ** Tokenized examples *)

(** A multiple-choice example ready for [tokenize_example]: the prompt with
    its few-shot examples, the context, the choices and the gold index. *)
Record prepared_mc : Type := {
  p_prompt : string;
  p_context : string;
  p_choices : list string;
  p_gold : Z;
}.

(** A toy tokenizer (one token per character, 1 in front when special
    tokens are added) and toy helpers, enough to run the examples. *)
Definition char_tokenizer (add_special_tokens : bool) (s : string) : list Z :=
  (if add_special_tokens then [1] else [])
  ++ ((fun _ => 7) <$> seq 0 (String.length s)).
Definition keep_context (context answer : list Z) (size : Z) : list Z :=
  context.
Definition span_after (context answer : list Z) : list Z :=
  (fun i : nat => Z.of_nat (length context + i)) <$> seq 0 (length answer).
Definition pad_right (context answer : list Z) (size pad : Z) (side : string)
  : list Z :=
  let row := context ++ answer in
  row ++ replicate (Z.to_nat size - length row) pad.
Definition toy_attrs : tokenize_attrs :=
  {| tokenizer_eos_token_id := Some 2;
     strips_data := false;
     adds_prefix_space := true;
     context_padding_size := 8;
     padding_token := 0;
     padding_side := "right" |}.
Definition two_prepared : list prepared_mc :=
  [ {| p_prompt := ""; p_context := "Q1"; p_choices := ["a"; "bb"];
       p_gold := 0 |};
    {| p_prompt := ""; p_context := "Q2"; p_choices := ["c"; "d"];
       p_gold := 1 |} ].

(** ** Partition by category *)

(** The string has no ['/'] in it. *)
Fixpoint slashless (s : string) : bool :=
  match s with
  | EmptyString => true
  | String c s' =>
      negb (String.eqb (String c EmptyString) "/") && slashless s'
  end.


(** * Properties *)

(** ** Effective batch size *)

Lemma floordiv_pos (a b : Z) : 0 < b -> floordiv a b = Ok (a `div` b).
Proof.
  intros Hb. unfold floordiv.
  destruct (Z.eqb_spec b 0) as [->|_]; [lia | reflexivity].
Qed.

(** C3: for the multiple-choice and schema classes
    [get_effective_batch_size n] returns [max(num_choices, n) // num_choices],
    the floor quotient; every other class returns [n] unchanged. *)
Theorem get_effective_batch_size_value (ds : dataset) (n : Z) :
  0 <= n ->
  (multi_choice (kind ds) = true -> 0 < num_choices ds ->
   exists q,
     get_effective_batch_size ds n = Ok q
     /\ q = Z.max (num_choices ds) n `div` num_choices ds
     /\ q * num_choices ds <= Z.max (num_choices ds) n
          < (q + 1) * num_choices ds)
  /\ (multi_choice (kind ds) = false -> get_effective_batch_size ds n = Ok n).
Proof.
  intros Hn. unfold get_effective_batch_size. split.
  - intros -> HN. eexists. split; [apply floordiv_pos; exact HN|].
    split; [reflexivity|].
    set (m := Z.max (num_choices ds) n).
    pose proof (Z.div_mod m (num_choices ds) ltac:(lia)) as Hdm.
    pose proof (Z.mod_pos_bound m (num_choices ds) HN) as Hmod.
    nia.
  - intros ->. reflexivity.
Qed.

Lemma get_effective_batch_size_value_witness :
  get_effective_batch_size (mc_dataset 4) 10 = Ok 2
  /\ get_effective_batch_size lm_dataset 10 = Ok 10.
Proof.
  split.
  - destruct (get_effective_batch_size_value (mc_dataset 4) 10 ltac:(lia))
      as [Hmc _].
    destruct (Hmc eq_refl ltac:(simpl; lia)) as (q & Hq & Hv & _).
    rewrite Hq, Hv. reflexivity.
  - destruct (get_effective_batch_size_value lm_dataset 10 ltac:(lia))
      as [_ Hlm].
    exact (Hlm eq_refl).
Defined.

(** C4, as stated, fails: with two choices, a requested size of 8 gives 4,
    and applying the function again gives 2. *)
Lemma get_effective_batch_size_not_idempotent :
  get_effective_batch_size (mc_dataset 2) 8 = Ok 4
  /\ (get_effective_batch_size (mc_dataset 2) 8
        ≫= get_effective_batch_size (mc_dataset 2)) = Ok 2
  /\ (get_effective_batch_size (mc_dataset 2) 8
        ≫= get_effective_batch_size (mc_dataset 2))
     <> get_effective_batch_size (mc_dataset 2) 8.
Proof. split; [reflexivity|split; [reflexivity|discriminate]]. Qed.

(** C4, amended: for the multiple-choice and schema classes and a positive
    [n], applying [get_effective_batch_size] a second time returns the same
    value exactly when there is a single choice or the first result is
    already 1, that is when [n < 2 * num_choices]. *)
Theorem get_effective_batch_size_idempotent_iff (ds : dataset) (n : Z) :
  multi_choice (kind ds) = true ->
  0 < num_choices ds ->
  0 < n ->
  (get_effective_batch_size ds n ≫= get_effective_batch_size ds)
    = get_effective_batch_size ds n
  <-> num_choices ds = 1 \/ n < 2 * num_choices ds.
Proof.
  intros Hk HN Hn. unfold get_effective_batch_size. rewrite Hk.
  set (N := num_choices ds) in *.
  rewrite (floordiv_pos _ N HN). cbn.
  rewrite (floordiv_pos _ N HN).
  set (q := Z.max N n `div` N).
  assert (Hq : q * N <= Z.max N n < (q + 1) * N).
  { pose proof (Z.div_mod (Z.max N n) N ltac:(lia)).
    pose proof (Z.mod_pos_bound (Z.max N n) N HN). subst q. nia. }
  assert (Hq1 : 1 <= q) by nia.
  set (r := Z.max N q `div` N).
  assert (Hr : r * N <= Z.max N q < (r + 1) * N).
  { pose proof (Z.div_mod (Z.max N q) N ltac:(lia)).
    pose proof (Z.mod_pos_bound (Z.max N q) N HN). subst r. nia. }
  split.
  - intros Heq. assert (r = q) by congruence.
    destruct (Z.eq_dec N 1) as [|HN1]; [left; assumption|right].
    destruct (Z_le_gt_dec q N); nia.
  - intros [HN1|Hlt]; f_equal.
    + nia.
    + assert (q = 1) by nia. nia.
Qed.

Lemma get_effective_batch_size_idempotent_iff_witness :
  (get_effective_batch_size (mc_dataset 4) 7
     ≫= get_effective_batch_size (mc_dataset 4))
  = get_effective_batch_size (mc_dataset 4) 7.
Proof.
  apply (get_effective_batch_size_idempotent_iff (mc_dataset 4) 7);
    [reflexivity | simpl; lia | lia | right; simpl; lia].
Defined.

(** ** The EOS fix-up of the preamble *)

(** C7, as stated, fails: a preamble that consists of the EOS token alone
    keeps it. *)
Lemma fix_eos_single_eos_kept :
  last [2] = Some 2
  /\ _fix_eos_on_preamble (Some 2) [2] = [2]
  /\ _fix_eos_on_preamble (Some 2) [2] <> removelast [2].
Proof. repeat split. discriminate. Qed.

(** C7, amended: [_fix_eos_on_preamble] removes the final token exactly when
    the tokenizer has an EOS id, the preamble has more than one token and
    its last token is that id; otherwise the preamble is returned
    unchanged, in particular when it is the single EOS token. *)
Theorem fix_eos_on_preamble_spec (tokenizer_eos : option Z) (ids : list Z) :
  ((exists eos, tokenizer_eos = Some eos
                /\ (1 < length ids)%nat /\ last ids = Some eos)
   -> _fix_eos_on_preamble tokenizer_eos ids = removelast ids
      /\ exists eos, tokenizer_eos = Some eos
                     /\ ids = _fix_eos_on_preamble tokenizer_eos ids ++ [eos])
  /\ (~ (exists eos, tokenizer_eos = Some eos
                     /\ (1 < length ids)%nat /\ last ids = Some eos)
      -> _fix_eos_on_preamble tokenizer_eos ids = ids)
  /\ (forall eos, _fix_eos_on_preamble (Some eos) [eos] = [eos]).
Proof.
  unfold _fix_eos_on_preamble. split; [|split].
  - intros (eos & -> & Hlen & Hlast).
    rewrite Hlast, !bool_decide_eq_true_2 by (done || lia). cbn.
    split; [reflexivity|]. exists eos. split; [reflexivity|].
    destruct ids as [|x ids _] using rev_ind; [discriminate|].
    rewrite last_snoc in Hlast. injection Hlast as ->.
    rewrite removelast_last. reflexivity.
  - intros Hno. destruct tokenizer_eos as [eos|]; [|reflexivity].
    destruct (bool_decide (1 < Z.of_nat (length ids))) eqn:Hlen;
      [|reflexivity].
    destruct (bool_decide (last ids = Some eos)) eqn:Hlast; [|reflexivity].
    exfalso. apply Hno. exists eos.
    apply bool_decide_eq_true_1 in Hlen, Hlast. repeat split; [lia|done].
  - intros eos. rewrite bool_decide_eq_false_2 by (simpl; lia). reflexivity.
Qed.

Lemma fix_eos_on_preamble_spec_witness :
  _fix_eos_on_preamble (Some 2) [5; 7; 2] = [5; 7]
  /\ _fix_eos_on_preamble (Some 2) [2] = [2].
Proof.
  destruct (fix_eos_on_preamble_spec (Some 2) [5; 7; 2]) as (Hstrip & _ & _).
  destruct (fix_eos_on_preamble_spec (Some 2) [2]) as (_ & Hkeep & _).
  split.
  - apply Hstrip. exists 2. repeat split. simpl. lia.
  - apply Hkeep. intros (eos & _ & Hlen & _). simpl in Hlen. lia.
Defined.

(** ** Microbatch splitting: rejected sizes and unexpected keys *)

(** C5: every class rejects a floating-point microbatch size with a
    [ValueError], whatever the batch. *)
Theorem split_batch_rejects_float
    (ds : dataset) (batch : pydict) (f : spec_float) :
  exists msg, split_batch ds batch (SzFloat f) = Raise (ValueError msg).
Proof. unfold split_batch. destruct (kind ds); cbn; eauto. Qed.

Lemma orb_false_split (a b : bool) : a || b = false -> a = false /\ b = false.
Proof. destruct a, b; intuition discriminate. Qed.

Lemma unclassified_entry_raises ds n k v :
  classified ds k = false ->
  exists msg, split_entry ds n k v = Raise (ValueError msg).
Proof.
  unfold classified. intros H.
  repeat (apply orb_false_split in H as [H ?]).
  unfold split_entry, GenerationWithAnswers_split_entry,
    MultipleChoice_split_entry.
  destruct (kind ds); repeat match goal with
    | Hk : key_in _ _ = false |- _ => rewrite Hk; clear Hk
    end; try destruct (bool_decide _); eauto.
Qed.

Lemma split_loop_raises entry items chunked k v :
  (k, v) ∈ items -> is_ok (entry k v) = false ->
  is_ok (split_loop entry items chunked) = false.
Proof.
  intros Hin Hbad. revert chunked.
  induction items as [|[k' v'] items IH]; intros chunked.
  - inversion Hin.
  - cbn. destruct (entry k' v') as [c|e] eqn:He; [|reflexivity]. cbn.
    apply elem_of_cons in Hin as [Heq|Hin].
    + injection Heq as -> ->. rewrite He in Hbad. discriminate.
    + apply IH, Hin.
Qed.

Lemma split_loop_value_error entry items chunked k v :
  (forall k' v', (k', v') ∈ items ->
     is_ok (entry k' v') = true \/ is_value_error (entry k' v') = true) ->
  (k, v) ∈ items -> is_ok (entry k v) = false ->
  is_value_error (split_loop entry items chunked) = true.
Proof.
  intros Hall Hin Hbad. revert chunked.
  induction items as [|[k' v'] items IH]; intros chunked.
  - inversion Hin.
  - cbn. destruct (entry k' v') as [c|e] eqn:He; cbn.
    + apply IH.
      * intros k2 v2 H2. apply Hall. right. exact H2.
      * apply elem_of_cons in Hin as [Heq|Hin]; [|exact Hin].
        injection Heq as -> ->. rewrite He in Hbad. discriminate.
    + destruct (Hall k' v' ltac:(left)) as [H|H];
        rewrite He in H; [discriminate|exact H].
Qed.

Lemma split_batch_as_loop ds batch n :
  dispatches_on_keys (kind ds) = true ->
  exists (rest : chunks -> result (list pydict)),
    split_batch ds batch (SzInt n)
    = (fun mbs : list pydict => PDict <$> mbs)
        <$> (split_loop (split_entry ds n) batch [] ≫= rest).
Proof.
  intros Hk. unfold split_batch, split_entry.
  destruct (kind ds); try discriminate; cbn;
    unfold MultipleChoice_split_batch, GenerationWithAnswers_split_batch;
    eexists (fun chunked => _); reflexivity.
Qed.

(** C6, as stated, fails: with microbatch size 0 the tensor entry that
    precedes the unexpected key makes the split raise torch's
    [RuntimeError], so the [ValueError] for the key is never reached. *)
Lemma split_batch_unexpected_key_runtime_error :
  ("surprise", PList [PInt 7]) ∈ batch_with_surprise
  /\ classified gen_dataset "surprise" = false
  /\ split_batch gen_dataset batch_with_surprise (SzInt 0)
     = Raise RuntimeError
  /\ is_value_error (split_batch gen_dataset batch_with_surprise (SzInt 0))
     = false.
Proof.
  split; [|split; [|split]]; try reflexivity.
  unfold batch_with_surprise. apply elem_of_cons. right. apply elem_of_cons.
  left. reflexivity.
Qed.

(** C6, amended: in the classes with a per-key dispatch, a batch holding a
    key that is neither static nor in any list or tensor classification is
    never split: [split_batch] raises for every integer microbatch size, and
    the exception is the [ValueError] whenever the classified entries of
    the batch are themselves split without an exception. *)
Theorem split_batch_unexpected_key
    (ds : dataset) (batch : pydict) (n : Z) (k : string) (v : pyval) :
  dispatches_on_keys (kind ds) = true ->
  (k, v) ∈ batch ->
  classified ds k = false ->
  is_ok (split_batch ds batch (SzInt n)) = false
  /\ ((forall k' v', (k', v') ∈ batch -> classified ds k' = true ->
         is_ok (split_entry ds n k' v') = true) ->
      is_value_error (split_batch ds batch (SzInt n)) = true).
Proof.
  intros Hk Hin Hun.
  destruct (split_batch_as_loop ds batch n Hk) as [rest ->].
  destruct (unclassified_entry_raises ds n k v Hun) as [msg Hraise].
  assert (Hbad : is_ok (split_entry ds n k v) = false)
    by (rewrite Hraise; reflexivity).
  split.
  - pose proof (split_loop_raises _ _ [] _ _ Hin Hbad) as H.
    destruct (split_loop _ _ _); [discriminate|reflexivity].
  - intros Hothers.
    assert (H : is_value_error (split_loop (split_entry ds n) batch []) = true).
    { apply (split_loop_value_error _ _ _ k v); [|exact Hin|exact Hbad].
      intros k' v' Hin'. destruct (classified ds k') eqn:Hc.
      - left. apply Hothers; assumption.
      - right. destruct (unclassified_entry_raises ds n k' v' Hc) as [m ->].
        reflexivity. }
    destruct (split_loop _ _ _) as [?|[]]; try discriminate. reflexivity.
Qed.

Lemma split_batch_unexpected_key_witness :
  is_ok (split_batch gen_dataset batch_with_surprise (SzInt 1)) = false
  /\ is_value_error (split_batch gen_dataset batch_with_surprise (SzInt 1))
     = true.
Proof.
  assert (Hin : ("surprise", PList [PInt 7]) ∈ batch_with_surprise).
  { unfold batch_with_surprise. apply elem_of_cons. right.
    apply elem_of_cons. left. reflexivity. }
  destruct (split_batch_unexpected_key gen_dataset batch_with_surprise 1
              "surprise" (PList [PInt 7]) eq_refl Hin eq_refl) as [Hraise Hve].
  split; [exact Hraise|]. apply Hve.
  intros k' v' Hin' Hcl. unfold batch_with_surprise in Hin'.
  apply elem_of_cons in Hin' as [Heq|Hin'].
  - injection Heq as -> ->. reflexivity.
  - apply elem_of_cons in Hin' as [Heq|Hin'].
    + injection Heq as -> ->. discriminate Hcl.
    + inversion Hin'.
Defined.

(** ** The answer-length pre-pass *)

Section MaxFold.

Context {B : Type}.
Variable answers : B -> list string.
Variable len : B -> string -> Z.

(** The inner loop only raises the running maximum, to a value it has
    seen. *)
Lemma inner_max_fold (b : B) (l : list string) (a : Z) :
  let r := foldl (fun acc answer => Z.max acc (len b answer)) a l in
  a <= r
  /\ (forall x, x ∈ l -> len b x <= r)
  /\ (r = a \/ exists x, x ∈ l /\ len b x = r).
Proof.
  revert a. induction l as [|y l IH]; intros a; cbn.
  - split; [lia|]. split; [intros x Hx; inversion Hx|left; reflexivity].
  - destruct (IH (Z.max a (len b y))) as (Hle & Hub & Hatt).
    split; [lia|]. split.
    + intros x Hx. apply elem_of_cons in Hx as [->|Hx]; [lia|auto].
    + destruct Hatt as [Heq|(x & Hx & Hlen)].
      * destruct (Z.max_spec a (len b y)) as [[_ Hm]|[_ Hm]].
        -- right. exists y. split; [left|lia].
        -- left. lia.
      * right. exists x. split; [right; exact Hx|exact Hlen].
Qed.

(** The same for the loop over the rows. *)
Lemma outer_max_fold (l : list B) (a : Z) :
  let r :=
    foldl (fun acc b =>
             foldl (fun acc answer => Z.max acc (len b answer)) acc (answers b))
          a l in
  a <= r
  /\ (forall b x, b ∈ l -> x ∈ answers b -> len b x <= r)
  /\ (r = a \/ exists b x, b ∈ l /\ x ∈ answers b /\ len b x = r).
Proof.
  revert a. induction l as [|b l IH]; intros a; cbn.
  - split; [lia|]. split; [intros b x Hb; inversion Hb|left; reflexivity].
  - set (a' := foldl _ a (answers b)).
    destruct (inner_max_fold b (answers b) a) as (Hle1 & Hub1 & Hatt1).
    fold a' in Hle1, Hub1, Hatt1.
    destruct (IH a') as (Hle & Hub & Hatt).
    split; [lia|]. split.
    + intros b' x Hb Hx. apply elem_of_cons in Hb as [->|Hb].
      * specialize (Hub1 x Hx). lia.
      * apply Hub; assumption.
    + destruct Hatt as [Heq|(b' & x & Hb & Hx & Hlen)].
      * destruct Hatt1 as [Heq1|(x & Hx & Hlen)].
        -- left. lia.
        -- right. exists b, x. split; [left|]. split; [exact Hx|lia].
      * right. exists b', x. split; [right; exact Hb|]. split; assumption.
Qed.

End MaxFold.

Lemma string_length_zero (s : string) :
  (0 <? Z.of_nat (String.length s)) = negb (String.eqb s "").
Proof. destruct s; reflexivity. Qed.

Lemma mapped_answers (e : example) (a : string) :
  a ∈ m_answer (map_example e) :: m_aliases (map_example e)
  <-> a ∈ answers_of e.
Proof.
  unfold map_example, answers_of. cbn [m_answer m_aliases].
  rewrite elem_of_cons, elem_of_remove_dups, !elem_of_cons. tauto.
Qed.

(** C8: after [read_dataset], [max_answer_length] is the maximum tokenized
    response length over every row and every answer or alias of the row
    (chain of thought and delimiter prepended when the corpus has that
    column), plus 10 exactly when [cot_delimiter] is non-empty;
    [max_seq_len] has been raised to it, with a warning, when it was
    smaller; and [padding_size] is their difference. *)
Theorem read_dataset_answer_length
    (tokenizer : string -> list Z) (self : gen_state) (loaded : corpus) :
  let st := (read_dataset tokenizer self loaded).1 in
  exists m,
    is_max_over (rows loaded)
      (response_length tokenizer (features_chain_of_thought loaded)
         (cot_delimiter self)) m
    /\ max_answer_length st
       = m + (if String.eqb (cot_delimiter self) "" then 0 else 10)
    /\ max_seq_len st = Z.max (max_seq_len self) (max_answer_length st)
    /\ padding_size st = max_seq_len st - max_answer_length st
    /\ warnings st
       = warnings self
         ++ (if bool_decide (max_seq_len self < max_answer_length st)
             then [max_seq_len_warning] else [])
    /\ has_cot st = features_chain_of_thought loaded.
Proof.
  unfold read_dataset, _get_max_answer_length. cbn zeta.
  set (with_cot := features_chain_of_thought loaded).
  set (delim := cot_delimiter self).
  set (self' := {| max_seq_len := _ |}).
  set (f := response_length tokenizer with_cot delim).
  set (raw := foldl _ 0 (map_example <$> rows loaded)).
  set (buffer := if 0 <? _ then _ else _).
  assert (Hbuffer : buffer = if String.eqb delim "" then 0 else 10).
  { subst buffer. cbn. rewrite string_length_zero.
    destruct (String.eqb _ ""); reflexivity. }
  assert (Hmax : is_max_over (rows loaded) f raw).
  { (* the loop computes the maximum over the rows of the corpus *)
    pose proof (outer_max_fold
                  (fun e => m_answer e :: m_aliases e)
                  (fun e answer =>
                     Z.of_nat (length (tokenizer
                       (response self' (m_chain_of_thought e) answer))))
                  (map_example <$> rows loaded) 0) as (Hle & Hub & Hatt).
    fold raw in Hle, Hub, Hatt. cbn zeta in *.
    assert (Hf : forall e a,
               Z.of_nat (length (tokenizer
                 (response self' (m_chain_of_thought (map_example e)) a)))
               = f e a) by reflexivity.
    split; [|split].
    - intros e a He Ha. rewrite <- Hf. apply Hub.
      + apply list_elem_of_fmap. exists e. split; [reflexivity|exact He].
      + apply mapped_answers, Ha.
    - intros Hnil. destruct Hatt as [Heq|(b & x & Hb & _)]; [exact Heq|].
      rewrite Hnil in Hb. inversion Hb.
    - intros Hne. destruct Hatt as [Heq|(b & x & Hb & Hx & Hlen)].
      + destruct (rows loaded) as [|e l] eqn:Hrows; [congruence|].
        exists e, (ex_answer e). split; [left|]. split; [left|].
        assert (f e (ex_answer e) <= raw).
        { rewrite <- Hf. apply Hub.
          - apply list_elem_of_fmap. exists e. split; [reflexivity|left].
          - apply mapped_answers. left. }
        assert (0 <= f e (ex_answer e)) by (unfold f, response_length; lia).
        lia.
      + apply list_elem_of_fmap in Hb as (e & -> & He).
        exists e, x. split; [exact He|]. split; [apply mapped_answers, Hx|].
        rewrite <- Hf. exact Hlen. }
  clearbody raw buffer. subst self'. exists raw.
  cbn [max_seq_len warnings cot_delimiter].
  destruct (Z.ltb_spec (max_seq_len self) (raw + buffer)) as [Hlt|Hge];
    cbn [fst max_answer_length max_seq_len padding_size warnings has_cot].
  - rewrite bool_decide_eq_true_2 by exact Hlt.
    rewrite <- Hbuffer. split; [exact Hmax|]. repeat split; lia.
  - rewrite bool_decide_eq_false_2 by lia. rewrite app_nil_r.
    rewrite <- Hbuffer. split; [exact Hmax|]. repeat split; lia.
Qed.

(** ** Config validation *)

Lemma float_exact_int_of_float (f : spec_float) (z : Z) :
  float_exact_int f = Some z -> int_of_float f = Ok z.
Proof.
  destruct f as [s|s| |s m e]; cbn; try discriminate.
  - intros [= <-]. reflexivity.
  - destruct (0 <=? e); [intros [= <-]; reflexivity|].
    destruct (_ =? 0); [intros [= <-]; reflexivity|discriminate].
Qed.

(** Closes the four parts of the statement once the two token-id checks
    have been decided: [Hbad] and [Hgood] describe the [max_seq_len] part
    on the branches that reach it. *)
Ltac finish_validate Hbad Hgood :=
  split; [|split; [|split]];
  [ intros; first [discriminate | reflexivity]
  | intros; first [discriminate | reflexivity]
  | first [exact Hbad | intros; reflexivity]
  | let Ho1 := fresh "Ho" in
    let Ho2 := fresh "Ho" in
    let Hc := fresh "Hc" in
    let st' := fresh "st" in
    let Hl := fresh "Hl" in
    let Hr := fresh "Hr" in
    intros Ho1 Ho2 Hc;
    first [ specialize (Ho1 eq_refl); discriminate
          | specialize (Ho2 eq_refl); discriminate
          | destruct (Hgood Hc) as (st' & Hr & Hl); exists st';
            split; [exact Hr|rewrite Hl; reflexivity] ] ].

Section ValidateCfgFacts.

Variable int_of_str : string -> result Z.

(** The outcome of the [max_seq_len] part of [_validate_cfg] for a value
    that is present. *)
Lemma max_seq_len_check (c : cfgval) (k : Z -> validated) :
  let r := i ← py_int int_of_str c;
           if ne_int c i
           then Raise (ValueError "max_seq_len must be an integer")
           else Ok (k i) in
  (integer_valued c = true -> exists i, r = Ok (k i))
  /\ (integer_valued c = false -> is_ok r = false).
Proof.
  destruct c as [|b|z|f|s]; cbn; (split; [intros Hi|intros Hn]);
    try discriminate.
  - reflexivity.
  - exists (Z.b2z b). rewrite Z.eqb_refl. reflexivity.
  - exists z. rewrite Z.eqb_refl. reflexivity.
  - apply bool_decide_eq_true_1 in Hi as [z Hz].
    rewrite (float_exact_int_of_float f z Hz). cbn. exists z.
    rewrite bool_decide_eq_true_2 by exact Hz. reflexivity.
  - apply bool_decide_eq_false_1 in Hn.
    destruct (int_of_float f) as [i|e]; [|reflexivity]. cbn.
    rewrite bool_decide_eq_false_2; [reflexivity|].
    intros Hz. apply Hn. exists i. exact Hz.
  - destruct (int_of_str s); reflexivity.
Qed.

Lemma check_token_id_unfold key flag msg tok st :
  check_token_id key flag msg tok st
  = if token_id_mismatch (cfg_out st) key tok
    then if override_set (cfg_out st) flag
         then Ok {| cfg_out := delete flag (cfg_out st);
                    logged := logged st ++ [msg] |}
         else Raise (ValueError msg)
    else Ok st.
Proof. reflexivity. Qed.

(** C9: [_validate_cfg] raises the mismatch [ValueError] when the configured
    [eos_token_id] or [bos_token_id] differs from the tokenizer's and the
    corresponding override flag is not set; with the flag set the mismatch
    only logs its warning; a [max_seq_len] that is not an integer value
    makes it raise whatever the flags are. *)
Theorem validate_cfg_errors
    (cfg : gmap string cfgval) (tok_eos tok_bos : option Z) :
  let r := _validate_cfg int_of_str cfg tok_eos tok_bos in
  let eos_differs := token_id_mismatch cfg "eos_token_id" tok_eos in
  let bos_differs := token_id_mismatch cfg "bos_token_id" tok_bos in
  (eos_differs = true -> override_set cfg eos_flag = false ->
   r = Raise (ValueError eos_mismatch_str))
  /\ (bos_differs = true -> override_set cfg bos_flag = false ->
      r = Raise (ValueError
                   (if eos_differs && negb (override_set cfg eos_flag)
                    then eos_mismatch_str else bos_mismatch_str)))
  /\ (max_seq_len_not_integer cfg = true -> is_ok r = false)
  /\ ((eos_differs = true -> override_set cfg eos_flag = true) ->
      (bos_differs = true -> override_set cfg bos_flag = true) ->
      max_seq_len_not_integer cfg = false ->
      exists st,
        r = Ok st
        /\ logged st
           = (if eos_differs then [eos_mismatch_str] else [])
             ++ (if bos_differs then [bos_mismatch_str] else [])).
Proof.
  cbn zeta. unfold _validate_cfg, max_seq_len_not_integer.
  rewrite check_token_id_unfold. cbn [cfg_out logged]. fold eos_flag bos_flag.
  set (eos_differs := token_id_mismatch cfg "eos_token_id" tok_eos).
  set (bos_differs := token_id_mismatch cfg "bos_token_id" tok_bos).
  (* the state after the eos check, when it does not raise *)
  assert (Heos : forall cfg1,
    (cfg1 = cfg \/ cfg1 = delete eos_flag cfg) ->
    token_id_mismatch cfg1 "bos_token_id" tok_bos = bos_differs
    /\ override_set cfg1 bos_flag = override_set cfg bos_flag
    /\ forall cfg2, (cfg2 = cfg1 \/ cfg2 = delete bos_flag cfg1) ->
         cfg2 !! "max_seq_len" = cfg !! "max_seq_len").
  { intros cfg1 [->| ->]; (split; [|split]);
      unfold token_id_mismatch, override_set, bos_differs, eos_flag, bos_flag;
      rewrite ?lookup_delete_ne by done; try reflexivity;
      intros cfg2 [->| ->]; rewrite ?lookup_delete_ne by done; reflexivity. }
  set (c := default CNone (cfg !! "max_seq_len")).
  (* the max_seq_len part, run from any state with the same entry *)
  assert (Hmsl : forall st, cfg_out st !! "max_seq_len" = cfg !! "max_seq_len" ->
    let r := (let max_seq_len := default CNone (cfg_out st !! "max_seq_len") in
              if is_not_none max_seq_len
              then i ← py_int int_of_str max_seq_len;
                   if ne_int max_seq_len i
                   then Raise (ValueError "max_seq_len must be an integer")
                   else Ok {| cfg_out := <["max_seq_len" := CInt i]> (cfg_out st);
                              logged := logged st |}
              else Ok st) in
    (is_not_none c && negb (integer_valued c) = true -> is_ok r = false)
    /\ (is_not_none c && negb (integer_valued c) = false ->
        exists st', r = Ok st' /\ logged st' = logged st)).
  { intros st Hst. cbn zeta. rewrite Hst. fold c.
    destruct (max_seq_len_check c
      (fun i => {| cfg_out := <["max_seq_len" := CInt i]> (cfg_out st);
                   logged := logged st |})) as [Hint Hnot].
    destruct (is_not_none c); cbn [andb].
    - destruct (integer_valued c); cbn [negb]; split; try discriminate.
      + intros _. destruct (Hint eq_refl) as [i ->]. eexists. split; reflexivity.
      + intros _. apply Hnot. reflexivity.
    - split; [discriminate|]. intros _. eexists. split; reflexivity. }
  destruct eos_differs; [destruct (override_set cfg eos_flag) eqn:Hoe|].
  - (* eos differs, overridden *)
    cbn [mbind result_bind].
    rewrite check_token_id_unfold. cbn [cfg_out logged].
    destruct (Heos (delete eos_flag cfg) ltac:(right; reflexivity))
      as (-> & -> & Hm).
    destruct bos_differs; [destruct (override_set cfg bos_flag) eqn:Hob|].
    + cbn [mbind result_bind cfg_out logged].
      edestruct (Hmsl {| cfg_out := delete bos_flag (delete eos_flag cfg);
                         logged := ([] ++ [eos_mismatch_str])
                                   ++ [bos_mismatch_str] |})
        as [Hbad Hgood]; [apply Hm; right; reflexivity|].
      finish_validate Hbad Hgood.
    + finish_validate I I.
    + cbn [mbind result_bind cfg_out logged].
      edestruct (Hmsl {| cfg_out := delete eos_flag cfg;
                         logged := [] ++ [eos_mismatch_str] |})
        as [Hbad Hgood]; [apply Hm; left; reflexivity|].
      finish_validate Hbad Hgood.
  - (* eos differs, not overridden *)
    finish_validate I I.
  - (* eos agrees *)
    cbn [mbind result_bind].
    rewrite check_token_id_unfold. cbn [cfg_out logged].
    destruct (Heos cfg ltac:(left; reflexivity)) as (-> & _ & Hm).
    destruct bos_differs; [destruct (override_set cfg bos_flag) eqn:Hob|].
    + cbn [mbind result_bind cfg_out logged].
      edestruct (Hmsl {| cfg_out := delete bos_flag cfg;
                         logged := [] ++ [bos_mismatch_str] |})
        as [Hbad Hgood]; [apply Hm; right; reflexivity|].
      finish_validate Hbad Hgood.
    + finish_validate I I.
    + cbn [mbind result_bind cfg_out logged].
      edestruct (Hmsl {| cfg_out := cfg; logged := [] |})
        as [Hbad Hgood]; [apply Hm; left; reflexivity|].
      finish_validate Hbad Hgood.
Qed.

End ValidateCfgFacts.

Lemma validate_cfg_errors_witness :
  _validate_cfg digits_only cfg_eos_differs (Some 2) (Some 1)
  = Raise (ValueError eos_mismatch_str)
  /\ _validate_cfg digits_only cfg_bos_differs (Some 2) (Some 1)
     = Raise (ValueError bos_mismatch_str)
  /\ is_ok (_validate_cfg digits_only cfg_fractional_len (Some 2) (Some 1))
     = false
  /\ exists st,
       _validate_cfg digits_only cfg_overridden (Some 2) (Some 1) = Ok st
       /\ logged st = [eos_mismatch_str].
Proof.
  split; [|split; [|split]].
  - destruct (validate_cfg_errors digits_only cfg_eos_differs (Some 2) (Some 1))
      as (H & _).
    apply H; reflexivity.
  - destruct (validate_cfg_errors digits_only cfg_bos_differs (Some 2) (Some 1))
      as (_ & H & _).
    apply H; reflexivity.
  - destruct (validate_cfg_errors digits_only cfg_fractional_len
                (Some 2) (Some 1)) as (_ & _ & H & _).
    apply H; reflexivity.
  - destruct (validate_cfg_errors digits_only cfg_overridden (Some 2) (Some 1))
      as (_ & _ & _ & H).
    destruct H as (st & Hst & Hlog);
      [reflexivity | intros Hbos; discriminate Hbos | reflexivity |].
    exists st. split; [exact Hst|exact Hlog].
Defined.

(** ** The token-counting collator wrapper *)

Lemma py_slice_tensor_row (t : tensor) (row : Z) :
  py_slice (PTensor t) row (row + 1) = Ok (PTensor (tensor_row row t)).
Proof. destruct t; reflexivity. Qed.

Section CollatorWrapperFacts.

Variable batch : gmap string pyval.

Hypothesis token_entries_are_tensors :
  forall key v, key ∈ _token_count_batch_keys -> batch !! key = Some v ->
    exists t, v = PTensor t.

(** The key loop that builds the one-row batch, from any accumulator. *)
Lemma row_batch_loop (row : Z) (keys : list string) (acc : gmap string pyval) :
  (forall key, key ∈ keys -> key ∈ _token_count_batch_keys) ->
  exists rb,
    foldl (fun acc key =>
             row_batch ← acc;
             match batch !! key with
             | Some v =>
                 r ← py_slice v row (row + 1);
                 Ok (<[key := r]> row_batch)
             | None => Ok row_batch
             end) (Ok acc) keys = Ok rb
    /\ forall key,
         rb !! key
         = match (if bool_decide (key ∈ keys) then
                    match batch !! key with
                    | Some (PTensor t) => Some (PTensor (tensor_row row t))
                    | _ => None
                    end
                  else None) with
           | Some r => Some r
           | None => acc !! key
           end.
Proof.
  revert acc. induction keys as [|k keys IH]; intros acc Hsub.
  - exists acc. split; [reflexivity|]. intros key.
    rewrite bool_decide_eq_false_2 by (intros H; inversion H). reflexivity.
  - cbn [foldl mbind result_bind].
    assert (Hk : k ∈ _token_count_batch_keys) by (apply Hsub; left).
    assert (Hrest : forall key, key ∈ keys -> key ∈ _token_count_batch_keys)
      by (intros key Hkey; apply Hsub; right; exact Hkey).
    destruct (batch !! k) as [v|] eqn:Hbk.
    + destruct (token_entries_are_tensors k v Hk Hbk) as [t ->].
      rewrite py_slice_tensor_row. cbn [mbind result_bind].
      destruct (IH (<[k := PTensor (tensor_row row t)]> acc) Hrest)
        as (rb & -> & Hrb).
      exists rb. split; [reflexivity|]. intros key. rewrite Hrb.
      destruct (decide (key = k)) as [->|Hne].
      * rewrite Hbk, lookup_insert_eq.
        rewrite (bool_decide_eq_true_2 (k ∈ k :: keys)) by left.
        destruct (bool_decide (k ∈ keys)); reflexivity.
      * rewrite lookup_insert_ne by congruence.
        rewrite (bool_decide_ext (key ∈ k :: keys) (key ∈ keys)); [reflexivity|].
        rewrite elem_of_cons. tauto.
    + destruct (IH acc Hrest) as (rb & -> & Hrb).
      exists rb. split; [reflexivity|]. intros key. rewrite Hrb.
      destruct (decide (key = k)) as [->|Hne].
      * rewrite Hbk. destruct (bool_decide (k ∈ keys));
          destruct (bool_decide (k ∈ k :: keys)); reflexivity.
      * rewrite (bool_decide_ext (key ∈ k :: keys) (key ∈ keys)); [reflexivity|].
        rewrite elem_of_cons. tauto.
Qed.

Lemma row_batch_ok (row : Z) :
  exists rb,
    row_batch batch row = Ok rb /\ forall key, rb !! key = row_entry batch row key.
Proof.
  destruct (row_batch_loop row _token_count_batch_keys ∅ ltac:(auto))
    as (rb & Hrb & Hlookup).
  exists rb. split; [exact Hrb|]. intros key. rewrite Hlookup.
  unfold row_entry. rewrite lookup_empty.
  destruct (bool_decide _); [|reflexivity].
  destruct (batch !! key) as [[]|]; reflexivity.
Qed.

Variable token_counting_func : gmap string pyval -> num_tokens.

(** The row loop, from any [output]. *)
Lemma count_rows_loop (l : list nat) (output : counts) :
  foldl (fun acc (row : nat) =>
           output ← acc;
           rb ← row_batch batch (Z.of_nat row);
           match token_counting_func rb with
           | CountDict total loss_generating =>
               Ok {| total_tokens := total_tokens output ++ [total];
                     loss_generating_tokens :=
                       loss_generating_tokens output ++ [loss_generating] |}
           | CountInt n =>
               Ok {| total_tokens := total_tokens output ++ [n];
                     loss_generating_tokens :=
                       loss_generating_tokens output ++ [n] |}
           end) (Ok output) l
  = Ok {| total_tokens :=
            total_tokens output
            ++ ((fun row => count_total (token_counting_func (the_row_batch batch row)))
                  <$> l);
          loss_generating_tokens :=
            loss_generating_tokens output
            ++ ((fun row =>
                   count_loss_generating
                     (token_counting_func (the_row_batch batch row))) <$> l) |}.
Proof.
  revert output. induction l as [|row l IH]; intros output.
  - cbn. rewrite !app_nil_r. destruct output; reflexivity.
  - cbn [foldl mbind result_bind fmap list_fmap].
    unfold the_row_batch at 1 3.
    destruct (row_batch_ok (Z.of_nat row)) as (rb & -> & _).
    cbn [mbind result_bind].
    destruct (token_counting_func rb) as [n|total loss]; rewrite IH;
      cbn [total_tokens loss_generating_tokens count_total
           count_loss_generating];
      rewrite <- !app_assoc; reflexivity.
Qed.

End CollatorWrapperFacts.

(** C10: for a base batch whose ['input_ids'] tensor has [R] rows (and whose
    token-count entries are tensors), [__call__] returns that batch with
    ['total_tokens'] and ['loss_generating_tokens'] set to lists of length
    [R], the entry for a row being computed by the counting function on the
    one-row batch of that row; every other entry of the base batch is
    unchanged and no other key appears, so that a base batch without these
    two keys is returned whole with exactly the two keys added. *)
Theorem collator_wrapper_adds_counts {Example : Type}
    (base_collator : list Example -> gmap string pyval)
    (token_counting_func : gmap string pyval -> num_tokens)
    (examples : list Example) (t : tensor) :
  let batch := base_collator examples in
  batch !! "input_ids" = Some (PTensor t) ->
  (forall key v, key ∈ _token_count_batch_keys -> batch !! key = Some v ->
     exists t', v = PTensor t') ->
  exists (totals losses : list Z) (out : gmap string pyval),
    __call__ base_collator token_counting_func examples = Ok out
    /\ out !! "total_tokens" = Some (PList (PInt <$> totals))
    /\ out !! "loss_generating_tokens" = Some (PList (PInt <$> losses))
    /\ Z.of_nat (length totals) = tensor_len t
    /\ Z.of_nat (length losses) = tensor_len t
    /\ (forall row : nat, Z.of_nat row < tensor_len t ->
          exists rb,
            row_batch batch (Z.of_nat row) = Ok rb
            /\ (forall key, rb !! key = row_entry batch (Z.of_nat row) key)
            /\ totals !! row = Some (count_total (token_counting_func rb))
            /\ losses !! row
               = Some (count_loss_generating (token_counting_func rb)))
    /\ (forall k, k <> "total_tokens" -> k <> "loss_generating_tokens" ->
          out !! k = batch !! k)
    /\ dom out = dom batch ∪ {[ "total_tokens"; "loss_generating_tokens" ]}
    /\ (batch !! "total_tokens" = None ->
        batch !! "loss_generating_tokens" = None ->
        batch ⊆ out /\ size out = S (S (size batch))).
Proof.
  intros batch Hids Htensors.
  set (R := Z.to_nat (tensor_len t)).
  assert (HR : Z.of_nat R = tensor_len t) by (subst R; destruct t; cbn; lia).
  exists ((fun row => count_total
             (token_counting_func (the_row_batch batch row))) <$> seq 0 R),
         ((fun row => count_loss_generating
             (token_counting_func (the_row_batch batch row))) <$> seq 0 R).
  eexists. split.
  { unfold __call__. fold batch. rewrite Hids. cbn [mbind result_bind shape0].
    unfold count_rows. fold R.
    rewrite (count_rows_loop batch Htensors token_counting_func).
    cbn [mbind result_bind total_tokens loss_generating_tokens app].
    reflexivity. }
  split; [|split; [|split; [|split; [|split; [|split; [|split]]]]]].
  - rewrite lookup_insert_ne by done. apply lookup_insert_eq.
  - apply lookup_insert_eq.
  - rewrite length_fmap, length_seq. exact HR.
  - rewrite length_fmap, length_seq. exact HR.
  - intros row Hrow.
    destruct (row_batch_ok batch Htensors (Z.of_nat row)) as (rb & Hrb & Hkeys).
    exists rb. split; [exact Hrb|]. split; [exact Hkeys|].
    assert (Hseq : seq 0 R !! row = Some row)
      by (apply lookup_seq; split; [reflexivity|lia]).
    rewrite !list_lookup_fmap, Hseq. cbn.
    unfold the_row_batch. rewrite Hrb. split; reflexivity.
  - intros k Hk1 Hk2. rewrite !lookup_insert_ne by congruence. reflexivity.
  - rewrite !dom_insert_L. apply set_eq. intros x.
    rewrite !elem_of_union. tauto.
  - intros Htt Hlgt. split.
    + etrans; [apply (insert_subseteq batch "total_tokens"), Htt|].
      apply insert_subseteq. rewrite lookup_insert_ne by discriminate.
      exact Hlgt.
    + rewrite !map_size_insert_None;
        rewrite ?lookup_insert_ne by discriminate; auto.
Qed.

Lemma collator_wrapper_adds_counts_witness :
  exists out,
    __call__ stacking_collator count_input_ids [[1; 2; 3]; [4; 5]] = Ok out
    /\ out !! "total_tokens" = Some (PList [PInt 3; PInt 2])
    /\ out !! "input_ids" = Some (PTensor (T2 [[1; 2; 3]; [4; 5]])).
Proof.
  destruct (collator_wrapper_adds_counts stacking_collator count_input_ids
              [[1; 2; 3]; [4; 5]] (T2 [[1; 2; 3]; [4; 5]]))
    as (totals & losses & out & Hcall & Htot & _ & _ & _ & _ & Hframe & _ & _).
  - reflexivity.
  - intros key v _ Hv. unfold stacking_collator in Hv.
    apply lookup_singleton_Some in Hv as [_ <-]. eexists. reflexivity.
  - exists out. split; [exact Hcall|]. split.
    + assert (Hout : __call__ stacking_collator count_input_ids [[1; 2; 3]; [4; 5]]
                     = Ok out) by exact Hcall.
      vm_compute in Hout. injection Hout as <-. reflexivity.
    + rewrite Hframe by done. reflexivity.
Defined.

(** ** Multiple-choice collation *)

Lemma dict_get_set {V} (d : list (string * V)) (k k' : string) (v : V) :
  dict_get (dict_set d k v) k'
  = if String.eqb k' k then Some v else dict_get d k'.
Proof.
  induction d as [|[k0 v0] d IH]; cbn.
  - reflexivity.
  - destruct (String.eqb_spec k k0) as [->|Hne]; cbn.
    + destruct (String.eqb k' k0); reflexivity.
    + rewrite IH. destruct (String.eqb_spec k' k0) as [->|]; [|reflexivity].
      destruct (String.eqb_spec k0 k) as [->|]; [congruence|reflexivity].
Qed.

(** The inner loop appends the contexts and their spans. *)
Lemma choice_loop_ok (contexts : list (list Z)) (spans : list (list Z))
    (i : nat) (b : mc_lists) :
  (i + length contexts <= length spans)%nat ->
  choice_loop i contexts spans b
  = Ok {| b_input_ids := b_input_ids b ++ contexts;
          b_continuation_indices :=
            b_continuation_indices b ++ take (length contexts) (drop i spans);
          b_labels := b_labels b ++ contexts;
          b_gold_indices := b_gold_indices b;
          b_choice_groupings := b_choice_groupings b |}.
Proof.
  revert i b. induction contexts as [|c contexts IH]; intros i b Hlen.
  - cbn. rewrite !app_nil_r. destruct b; reflexivity.
  - cbn [choice_loop length] in *. unfold getitem.
    destruct (lookup_lt_is_Some_2 spans i ltac:(lia)) as [span Hspan].
    rewrite Hspan. cbn [mbind result_bind].
    rewrite IH by lia. cbn [b_input_ids b_continuation_indices b_labels
                              b_gold_indices b_choice_groupings].
    rewrite <- !app_assoc. cbn [app].
    rewrite (drop_S _ _ _ Hspan). reflexivity.
Qed.

(** The outer loop: rows, spans and labels are concatenated in order, one
    gold index and one grouping is added per record. *)
Lemma collate_loop_ok (n : nat) (data : list tokenized_mc) (b : mc_lists) :
  Forall (carries_choices n) data ->
  collate_loop data b
  = Ok {| b_input_ids := b_input_ids b ++ concat (tok_contexts <$> data);
          b_continuation_indices :=
            b_continuation_indices b
            ++ concat (tok_continuation_indices <$> data);
          b_labels := b_labels b ++ concat (tok_contexts <$> data);
          b_gold_indices := b_gold_indices b ++ (tok_gold <$> data);
          b_choice_groupings :=
            b_choice_groupings b
            ++ ((fun q : nat =>
                   let start := Z.of_nat (length (b_continuation_indices b)) in
                   (start + Z.of_nat q * Z.of_nat n,
                    start + (Z.of_nat q + 1) * Z.of_nat n))
                  <$> seq 0 (length data)) |}.
Proof.
  intros Hdata. revert b.
  induction Hdata as [|r data [Hctx Hspans] _ IH]; intros b.
  - cbn. rewrite !app_nil_r. destruct b; reflexivity.
  - cbn [collate_loop].
    rewrite choice_loop_ok by (rewrite Hctx, Hspans; lia).
    cbn [mbind result_bind b_input_ids b_continuation_indices b_labels
         b_gold_indices b_choice_groupings].
    rewrite IH. cbn [b_input_ids b_continuation_indices b_labels
                     b_gold_indices b_choice_groupings].
    rewrite Hctx, <- Hspans, drop_0, firstn_all.
    cbn [fmap list_fmap concat length seq].
    rewrite <- !app_assoc. cbn [app].
    rewrite <- fmap_S_seq, <- list_fmap_compose.
    assert (Hlen : Z.of_nat (length (b_continuation_indices b
                                     ++ tok_continuation_indices r))
                   = Z.of_nat (length (b_continuation_indices b))
                     + Z.of_nat (length (tok_continuation_indices r)))
      by (rewrite length_app; lia).
    rewrite Hlen. do 4 f_equal.
    + f_equal; lia.
    + apply list_fmap_ext. intros _ q _. cbn. f_equal; lia.
Qed.

Lemma concat_contexts_length (n : nat) (data : list tokenized_mc) :
  Forall (carries_choices n) data ->
  length (concat (tok_contexts <$> data)) = (n * length data)%nat.
Proof.
  induction 1 as [|r data [Hctx _] _ IH]; [cbn; lia|].
  rewrite fmap_cons, concat_cons, length_app, IH, Hctx. cbn [length]. lia.
Qed.

(** C2: for [Q] tokenized records of [N] choices each, [collate_fn] returns
    a batch whose [input_ids] has [N*Q] rows (the contexts in order), with
    [Q] gold indices and [Q] groupings, the [q]-th grouping being
    [(q*N, (q+1)*N)]. *)
Theorem MultipleChoice_collate_fn_shape
    (ds : dataset) (data : list tokenized_mc) (n : nat) :
  Forall (carries_choices n) data ->
  exists batch rows gold groupings,
    MultipleChoice_collate_fn ds data = Ok batch
    /\ dict_get batch "input_ids" = Some (PTensor (T2 rows))
    /\ rows = concat (tok_contexts <$> data)
    /\ length rows = (n * length data)%nat
    /\ dict_get batch "gold_indices" = Some (PList gold)
    /\ length gold = length data
    /\ dict_get batch "choice_groupings" = Some (PList groupings)
    /\ length groupings = length data
    /\ forall q : nat, (q < length data)%nat ->
         groupings !! q
         = Some (PTuple [PInt (Z.of_nat q * Z.of_nat n);
                         PInt ((Z.of_nat q + 1) * Z.of_nat n)]).
Proof.
  intros Hdata. unfold MultipleChoice_collate_fn.
  rewrite (collate_loop_ok n data base_lists Hdata).
  cbn [mbind result_bind base_lists b_input_ids b_continuation_indices
       b_labels b_gold_indices b_choice_groupings app length].
  eexists _, (concat (tok_contexts <$> data)), (PInt <$> (tok_gold <$> data)),
    ((fun '(s, e) => PTuple [PInt s; PInt e])
       <$> ((fun q : nat => (0 + Z.of_nat q * Z.of_nat n,
                             0 + (Z.of_nat q + 1) * Z.of_nat n))
              <$> seq 0 (length data))).
  split; [reflexivity|].
  split; [rewrite dict_get_set; reflexivity|].
  split; [reflexivity|].
  split; [apply (concat_contexts_length n data Hdata)|].
  split; [rewrite dict_get_set; reflexivity|].
  split; [rewrite !length_fmap; reflexivity|].
  split; [rewrite dict_get_set; reflexivity|].
  split; [rewrite !length_fmap, length_seq; reflexivity|].
  intros q Hq. rewrite !list_lookup_fmap.
  rewrite (proj2 (lookup_seq 0 (length data) q q) (conj eq_refl Hq)). cbn.
  do 4 f_equal; lia.
Qed.

Lemma MultipleChoice_collate_fn_shape_witness :
  exists batch,
    MultipleChoice_collate_fn (mc_dataset 2) two_questions = Ok batch
    /\ dict_get batch "input_ids"
       = Some (PTensor (T2 [[5; 6; 0]; [5; 7; 8]; [9; 4; 0]; [9; 3; 0]]))
    /\ dict_get batch "choice_groupings"
       = Some (PList [PTuple [PInt 0; PInt 2]; PTuple [PInt 2; PInt 4]]).
Proof.
  destruct (MultipleChoice_collate_fn_shape (mc_dataset 2) two_questions 2)
    as (batch & rows & gold & groupings & Hcall & _).
  - repeat constructor.
  - exists batch. split; [exact Hcall|].
    vm_compute in Hcall. injection Hcall as <-. split; reflexivity.
Defined.

(** ** Microbatch splitting of multiple-choice batches *)

(** *** Chunks of a list *)

Lemma concat_chunks_take {A} (size : nat) (l : list A) (c : nat) :
  concat ((fun i => chunk size i l) <$> seq 0 c) = take (c * size) l.
Proof.
  induction c as [|c IH].
  - reflexivity.
  - rewrite seq_S, fmap_app, concat_app, IH. cbn. rewrite app_nil_r.
    unfold chunk. rewrite take_take_drop. f_equal. lia.
Qed.

Lemma take_chunks {B} (f : nat -> B) (c j : nat) :
  take j (f <$> seq 0 c) = f <$> seq 0 (j `min` c).
Proof. rewrite <- fmap_take, take_seq. reflexivity. Qed.

Lemma n_chunks_covers (len n : Z) :
  0 < n -> 0 <= len -> len <= Z.of_nat (n_chunks len n) * n.
Proof.
  intros Hn Hlen. unfold n_chunks.
  destruct (Z.leb_spec len n) as [Hle|Hgt]; [lia|].
  set (c := (len + n - 1) `div` n).
  pose proof (Z.div_mod (len + n - 1) n ltac:(lia)) as Hdm.
  pose proof (Z.mod_pos_bound (len + n - 1) n Hn) as Hmod. fold c in Hdm.
  assert (0 <= c) by (apply Z.div_pos; lia).
  rewrite Z2Nat.id by lia. nia.
Qed.

Lemma n_chunks_pos (len n : Z) : 0 < n -> 0 <= len -> (1 <= n_chunks len n)%nat.
Proof.
  intros Hn Hlen. unfold n_chunks.
  destruct (Z.leb_spec len n) as [Hle|Hgt]; [lia|].
  assert (1 <= (len + n - 1) `div` n); [|lia].
  apply Z.div_le_lower_bound; lia.
Qed.

(** Cutting [N*Q] rows every [n*N] gives as many chunks as cutting [Q]
    questions every [n]. *)
Lemma n_chunks_scale (N Q n : Z) :
  0 < N -> 0 < n -> 0 <= Q -> n_chunks (N * Q) (n * N) = n_chunks Q n.
Proof.
  intros HN Hn HQ. unfold n_chunks.
  destruct (Z.leb_spec Q n) as [Hle|Hgt].
  - destruct (Z.leb_spec (N * Q) (n * N)); [reflexivity|nia].
  - destruct (Z.leb_spec (N * Q) (n * N)); [nia|].
    f_equal. symmetry.
    set (c := (Q + n - 1) `div` n).
    pose proof (Z.div_mod (Q + n - 1) n ltac:(lia)) as Hdm.
    pose proof (Z.mod_pos_bound (Q + n - 1) n Hn) as Hmod. fold c in Hdm.
    apply (Z.div_unique_pos _ _ c (N * Q + n * N - 1 - n * N * c)); nia.
Qed.

(** *** The library splitters on sliceable values *)

Lemma mapM_fmap_ok {A B C} (f : B -> result C) (g : A -> B) (h : A -> C)
    (l : list A) :
  (forall x, x ∈ l -> f (g x) = Ok (h x)) -> mapM f (g <$> l) = Ok (h <$> l).
Proof.
  induction l as [|x l IH]; intros Hall; [reflexivity|].
  cbn. rewrite (Hall x) by left. cbn.
  rewrite IH by (intros y Hy; apply Hall; right; exact Hy). reflexivity.
Qed.

Lemma py_slice_chunk (v : pyval) (n : Z) (i : nat) :
  sliceable v = true -> 0 < n ->
  py_slice v (Z.of_nat i * n) (Z.of_nat i * n + n)
  = Ok (chunk_of (Z.to_nat n) i v).
Proof.
  intros Hv Hn.
  assert (Hstart : Z.to_nat (Z.of_nat i * n) = (i * Z.to_nat n)%nat)
    by (rewrite Z2Nat.inj_mul, Nat2Z.id by lia; reflexivity).
  assert (Hsize : (Z.to_nat (Z.of_nat i * n + n) - Z.to_nat (Z.of_nat i * n))%nat
                  = Z.to_nat n) by (rewrite Z2Nat.inj_add by nia; lia).
  destruct v as [| | | | |[l|rows]|l|l|]; try discriminate; cbn;
    unfold slice, chunk; rewrite Hsize, Hstart; reflexivity.
Qed.

Lemma chunk_of_whole (v : pyval) (len n : Z) :
  py_len v = Ok len -> len <= n -> chunk_of (Z.to_nat n) 0 v = v.
Proof.
  intros Hlen Hle.
  destruct v as [| | | | |[l|rows]|l|l|]; try reflexivity; cbn in *;
    injection Hlen as <-; unfold chunk; cbn [Nat.mul];
    rewrite drop_0, take_ge by lia; reflexivity.
Qed.

(** Both library splitters cut a sliceable value into its chunks. *)
Lemma range_slices (v : pyval) (len n : Z) :
  sliceable v = true -> 0 < n -> n < len ->
  (starts ← py_range0 len n;
   mapM (fun start => py_slice v start (start + n)) starts)
  = Ok ((fun i => chunk_of (Z.to_nat n) i v) <$> seq 0 (n_chunks len n)).
Proof.
  intros Hv Hn Hlt. unfold py_range0, n_chunks.
  destruct (Z.eqb_spec n 0); [lia|].
  destruct (Z.ltb_spec 0 n); [|lia].
  destruct (Z.ltb_spec 0 len); [|lia].
  destruct (Z.leb_spec len n); [lia|].
  cbn [mbind result_bind]. apply mapM_fmap_ok.
  intros i _. apply py_slice_chunk; assumption.
Qed.

Lemma split_list_chunks (v : pyval) (len n : Z) :
  sliceable v = true -> 0 < n -> py_len v = Ok len ->
  _split_list v n
  = Ok ((fun i => chunk_of (Z.to_nat n) i v) <$> seq 0 (n_chunks len n)).
Proof.
  intros Hv Hn Hlen. unfold _split_list. rewrite Hlen. cbn [mbind result_bind].
  destruct (Z.leb_spec len n) as [Hle|Hgt].
  - unfold n_chunks. rewrite (proj2 (Z.leb_le len n) Hle). cbn.
    rewrite (chunk_of_whole v len n Hlen Hle). reflexivity.
  - apply range_slices; assumption.
Qed.

Lemma split_tensor_chunks (t : tensor) (n : Z) :
  0 < n ->
  _split_tensor t n
  = Ok ((fun i => chunk_of (Z.to_nat n) i (PTensor t))
          <$> seq 0 (n_chunks (tensor_len t) n)).
Proof.
  intros Hn. unfold _split_tensor.
  destruct (Z.leb_spec (tensor_len t) n) as [Hle|Hgt].
  - unfold n_chunks. rewrite (proj2 (Z.leb_le _ n) Hle). cbn [seq fmap list_fmap].
    rewrite (chunk_of_whole (PTensor t) (tensor_len t) n eq_refl Hle).
    reflexivity.
  - unfold torch_split.
    destruct (Z.ltb_spec n 0); [lia|].
    destruct (Z.eqb_spec n 0); [lia|].
    destruct (Z.eqb_spec (tensor_len t) 0); [lia|].
    apply range_slices; [reflexivity|assumption|assumption].
Qed.

(** *** Lookups in the dicts that the splitter builds *)

Lemma dict_get_elem_of {V} (d : list (string * V)) (k : string) (v : V) :
  dict_get d k = Some v -> (k, v) ∈ d.
Proof.
  induction d as [|[k0 v0] d IH]; cbn; [discriminate|].
  destruct (String.eqb_spec k k0) as [->|Hne].
  - intros [= ->]. left.
  - intros H. right. apply IH, H.
Qed.

Lemma dict_get_not_key {V} (d : list (string * V)) (k : string) :
  k ∉ d.*1 -> dict_get d k = None.
Proof.
  induction d as [|[k0 v0] d IH]; cbn; [reflexivity|].
  intros Hnot. destruct (String.eqb_spec k k0) as [->|Hne].
  - exfalso. apply Hnot. left.
  - apply IH. intros Hin. apply Hnot. right. exact Hin.
Qed.

Lemma Forall_dict_set {V} (P : string * V -> Prop) (d : list (string * V))
    (k : string) (v : V) :
  Forall P d -> P (k, v) -> Forall P (dict_set d k v).
Proof.
  intros Hd Hkv. induction Hd as [|[k0 v0] d Hx Hd IH]; cbn.
  - constructor; [exact Hkv|constructor].
  - destruct (String.eqb k k0); constructor; assumption.
Qed.

Lemma mapM_ok {A B} (f : A -> result B) (h : A -> B) (l : list A) :
  (forall x, x ∈ l -> f x = Ok (h x)) -> mapM f l = Ok (h <$> l).
Proof.
  intros Hall. rewrite <- (list_fmap_id l) at 1.
  apply mapM_fmap_ok. exact Hall.
Qed.

Section SplitLoops.

Variable items : pydict.
Hypothesis items_NoDup : NoDup items.*1.

(** The first loop, when every entry is split as [expect] says. *)
Lemma split_loop_lookup
    (entry : string -> pyval -> result (option (list pyval)))
    (expect : string -> pyval -> option (list pyval)) (chunked : chunks) :
  (forall k v, (k, v) ∈ items -> entry k v = Ok (expect k v)) ->
  exists chunked',
    split_loop entry items chunked = Ok chunked'
    /\ (forall k,
          dict_get chunked' k
          = match dict_get items k ≫= expect k with
            | Some c => Some c
            | None => dict_get chunked k
            end)
    /\ (forall P : string * list pyval -> Prop,
          Forall P chunked ->
          (forall k v c, (k, v) ∈ items -> expect k v = Some c -> P (k, c)) ->
          Forall P chunked').
Proof.
  revert chunked. induction items as [|[k0 v0] l IH]; intros chunked Hentry.
  - exists chunked. split; [reflexivity|]. split; [reflexivity|auto].
  - apply NoDup_cons in items_NoDup as [Hfresh Hl].
    cbn [split_loop]. rewrite (Hentry k0 v0) by left. cbn [mbind result_bind].
    destruct (IH Hl (match expect k0 v0 with
                     | Some c => dict_set chunked k0 c
                     | None => chunked
                     end)) as (chunked' & -> & Hget & Hall).
    { intros k v Hin. apply Hentry. right. exact Hin. }
    exists chunked'. split; [reflexivity|]. split.
    + intros k. rewrite Hget. cbn [dict_get].
      destruct (String.eqb_spec k k0) as [->|Hne].
      * rewrite (dict_get_not_key l k0 Hfresh). cbn.
        destruct (expect k0 v0); [|reflexivity].
        rewrite dict_get_set, String.eqb_refl. reflexivity.
      * destruct (dict_get l k ≫= expect k); [reflexivity|].
        destruct (expect k0 v0); [|reflexivity].
        rewrite dict_get_set, (proj2 (String.eqb_neq k k0) Hne). reflexivity.
    + intros P HP Hnew. apply Hall.
      * destruct (expect k0 v0) as [c|] eqn:Hc; [|exact HP].
        apply Forall_dict_set; [exact HP|]. apply (Hnew k0 v0); [left|exact Hc].
      * intros k v c Hin. apply Hnew. right. exact Hin.
Qed.

(** The second loop. *)
Lemma broadcast_static_lookup (statics : list string) (num_chunks : nat)
    (chunked : chunks) :
  (forall k,
     dict_get (broadcast_static statics num_chunks items chunked) k
     = match (if key_in k statics then dict_get items k else None) with
       | Some v => Some (replicate num_chunks v)
       | None => dict_get chunked k
       end)
  /\ (forall P : string * list pyval -> Prop,
        Forall P chunked ->
        (forall k v, (k, v) ∈ items -> P (k, replicate num_chunks v)) ->
        Forall P (broadcast_static statics num_chunks items chunked)).
Proof.
  unfold broadcast_static. revert chunked.
  induction items as [|[k0 v0] l IH]; intros chunked.
  - split; [|auto]. intros k. destruct (key_in k statics); reflexivity.
  - apply NoDup_cons in items_NoDup as [Hfresh Hl].
    cbn [foldl]. destruct (IH Hl (if key_in k0 statics
                                  then dict_set chunked k0
                                         (replicate num_chunks v0)
                                  else chunked)) as [Hget Hall].
    split.
    + intros k. rewrite Hget. cbn [dict_get].
      destruct (String.eqb_spec k k0) as [->|Hne].
      * rewrite (dict_get_not_key l k0 Hfresh).
        destruct (key_in k0 statics); [|reflexivity].
        rewrite dict_get_set, String.eqb_refl. reflexivity.
      * destruct (if key_in k statics then dict_get l k else None);
          [reflexivity|].
        destruct (key_in k0 statics); [|reflexivity].
        rewrite dict_get_set, (proj2 (String.eqb_neq k k0) Hne). reflexivity.
    + intros P HP Hnew. apply Hall.
      * destruct (key_in k0 statics); [|exact HP].
        apply Forall_dict_set; [exact HP|]. apply Hnew. left.
      * intros k v Hin. apply Hnew. right. exact Hin.
Qed.

End SplitLoops.

(** One microbatch: entry [idx] of every chunk sequence. *)
Lemma assemble_row (chunked : chunks) (idx : nat) :
  Forall (fun kc => (idx < length kc.2)%nat) chunked ->
  exists mb,
    mapM (fun '(k, c) => v ← getitem c idx; Ok (k, v)) chunked = Ok mb
    /\ forall k, dict_get mb k = dict_get chunked k ≫= (fun c => c !! idx).
Proof.
  induction 1 as [|[k0 c0] chunked Hlen _ (mb & Hmb & Hget)].
  - exists []. split; reflexivity.
  - cbn [snd] in Hlen. cbn [mapM]. rewrite Hmb. unfold getitem.
    destruct (lookup_lt_is_Some_2 c0 idx Hlen) as [v0 Hv0].
    rewrite Hv0. cbn [mbind result_bind].
    exists ((k0, v0) :: mb). split; [reflexivity|].
    intros k. cbn [dict_get]. destruct (String.eqb k k0); [|apply Hget].
    cbn. rewrite Hv0. reflexivity.
Qed.

(** The final comprehension. *)
Lemma assemble_lookup (chunked : chunks) (num_chunks : nat) :
  Forall (fun kc => length kc.2 = num_chunks) chunked ->
  exists mbs,
    assemble chunked num_chunks = Ok mbs
    /\ length mbs = num_chunks
    /\ forall i mb, mbs !! i = Some mb ->
         forall k, dict_get mb k = dict_get chunked k ≫= (fun c => c !! i).
Proof.
  intros Hlen. unfold assemble.
  set (row := fun idx =>
         match mapM (fun '(k, c) => v ← getitem c idx; Ok (k, v)) chunked with
         | Ok mb => mb
         | Raise _ => []
         end).
  assert (Hrow : forall idx, (idx < num_chunks)%nat ->
            mapM (fun '(k, c) => v ← getitem c idx; Ok (k, v)) chunked
            = Ok (row idx)
            /\ forall k, dict_get (row idx) k
                         = dict_get chunked k ≫= (fun c => c !! idx)).
  { intros idx Hidx. destruct (assemble_row chunked idx) as (mb & Hmb & Hget).
    - eapply Forall_impl; [exact Hlen|]. intros kc Hkc. cbn in Hkc. lia.
    - subst row. cbn beta. rewrite Hmb. split; [reflexivity|exact Hget]. }
  exists (row <$> seq 0 num_chunks). split; [|split].
  - apply mapM_ok. intros idx Hidx. apply Hrow.
    apply elem_of_seq in Hidx. lia.
  - rewrite length_fmap, length_seq. reflexivity.
  - intros i mb Hmb k. rewrite list_lookup_fmap in Hmb.
    destruct (seq 0 num_chunks !! i) as [idx|] eqn:Hseq; [|discriminate].
    apply lookup_seq in Hseq as [-> Hi]. injection Hmb as <-.
    apply Hrow. exact Hi.
Qed.

(** *** The multiple-choice splitter on a well-formed batch *)

Lemma entry_expect (ds : dataset) (Q : nat) (n : Z) (k : string) (v : pyval) :
  0 < num_choices ds -> 0 < n -> mc_entry_ok ds Q k v ->
  MultipleChoice_split_entry ds n k v = Ok (mc_expect ds Q n k v).
Proof.
  intros HN Hn. unfold mc_entry_ok, mc_expect, mc_key_class,
    MultipleChoice_split_entry.
  destruct (key_in k (static_keys ds)); [reflexivity|].
  destruct (bool_decide (type_of v = TyList)) eqn:Hty.
  - apply bool_decide_eq_true_1 in Hty.
    destruct v as [| | | | | |l| |]; try discriminate.
    destruct (key_in k (list_of_tensors_keys ds)).
    { intros Hlen.
      rewrite (split_list_chunks (PList l) (num_choices ds * Z.of_nat Q)
                 (n * num_choices ds)) by (cbn; (reflexivity || nia || congruence)).
      rewrite n_chunks_scale by lia. reflexivity. }
    destruct (key_in k (list_of_tuples_keys ds)).
    { intros Hlen.
      rewrite (split_list_chunks (PList l) (Z.of_nat Q) n)
        by (cbn; (reflexivity || lia || congruence)).
      reflexivity. }
    destruct (key_in k (list_of_primitives ds)); [|contradiction].
    intros [Hlen Hprim]. cbn [_default_split_batch]. rewrite Hprim.
    rewrite (split_list_chunks (PList l) (Z.of_nat Q) n)
      by (cbn; (reflexivity || lia || congruence)).
    reflexivity.
  - destruct (key_in k (tensor_keys ds)); [|contradiction].
    destruct v as [| | | | |t|l| |]; try contradiction.
    + intros Hlen. cbn [_default_split_batch].
      rewrite split_tensor_chunks by nia.
      rewrite Hlen, n_chunks_scale by lia. reflexivity.
    + apply bool_decide_eq_false_1 in Hty. exfalso. apply Hty. reflexivity.
Qed.

Lemma replicate_lookup_lt {A} (n i : nat) (x : A) :
  (i < n)%nat -> replicate n x !! i = Some x.
Proof. intros Hi. apply lookup_replicate. split; [reflexivity|exact Hi]. Qed.

(** What the splitter returns on a well-formed batch: as many microbatches
    as there are chunks of questions, microbatch [i] holding the [i]-th
    chunk of every split entry and every static entry as it is. *)
Lemma MultipleChoice_split_batch_lookup
    (ds : dataset) (Q : nat) (batch : pydict) (n : Z) :
  0 < num_choices ds -> 0 < n -> mc_batch ds Q batch ->
  exists mbs,
    MultipleChoice_split_batch ds batch (SzInt n) = Ok mbs
    /\ length mbs = n_chunks (Z.of_nat Q) n
    /\ forall i mb, mbs !! i = Some mb ->
         forall k v, dict_get batch k = Some v ->
           dict_get mb k = Some (microbatch_entry ds n i k v).
Proof.
  intros HN Hn (Hnodup & Hentries & Hids_static & rows & Hids).
  set (C := n_chunks (Z.of_nat Q) n).
  unfold MultipleChoice_split_batch.
  destruct (split_loop_lookup batch Hnodup (MultipleChoice_split_entry ds n)
              (mc_expect ds Q n) [])
    as (chunked & -> & Hget & Hall).
  { intros k v Hin. apply entry_expect; auto. }
  cbn [mbind result_bind].
  assert (Hlen : Forall (fun kc : string * list pyval => length kc.2 = C) chunked).
  { apply Hall; [constructor|]. intros k v c _. unfold mc_expect.
    destruct (mc_key_class ds k v) as [[]|]; intros [= <-]; cbn [snd];
      rewrite length_fmap, length_seq; reflexivity. }
  (* the chunks of input_ids give the number of microbatches *)
  assert (Hids_class : mc_key_class ds "input_ids" (PTensor (T2 rows))
                       = Some PerRow).
  { pose proof (Hentries _ _ (dict_get_elem_of _ _ _ Hids)) as Hok.
    unfold mc_entry_ok, mc_key_class in *. rewrite Hids_static in *.
    cbn in *. destruct (key_in "input_ids" (tensor_keys ds));
      [reflexivity|contradiction]. }
  unfold dict_getitem. rewrite Hget, Hids. cbn [mbind option_bind].
  unfold mc_expect at 1. rewrite Hids_class. cbn [mbind result_bind].
  rewrite length_fmap, length_seq. fold C.
  destruct (broadcast_static_lookup batch Hnodup (static_keys ds) C chunked)
    as [Hbget Hball].
  destruct (assemble_lookup
              (broadcast_static (static_keys ds) C batch chunked) C)
    as (mbs & -> & Hmbs_len & Hmbs).
  { apply Hball; [exact Hlen|]. intros k v _. cbn [snd].
    apply length_replicate. }
  exists mbs. split; [reflexivity|]. split; [exact Hmbs_len|].
  intros i mb Hmb k v Hk.
  assert (Hi : (i < C)%nat)
    by (rewrite <- Hmbs_len; apply (lookup_lt_Some _ _ _ Hmb)).
  rewrite (Hmbs i mb Hmb k), Hbget, Hget, Hk. cbn [mbind option_bind].
  pose proof (Hentries _ _ (dict_get_elem_of _ _ _ Hk)) as Hok.
  unfold microbatch_entry, mc_expect, mc_entry_ok in *.
  destruct (key_in k (static_keys ds)) eqn:Hst.
  - unfold mc_key_class. rewrite Hst. cbn. apply replicate_lookup_lt, Hi.
  - assert (Hclass : mc_key_class ds k v <> Some Static).
    { unfold mc_key_class. rewrite Hst.
      repeat match goal with |- context [if ?b then _ else _] => destruct b end;
        discriminate. }
    subst C.
    destruct (mc_key_class ds k v) as [[]|]; try contradiction; cbn;
      rewrite list_lookup_fmap,
              (proj2 (lookup_seq 0 _ i i) (conj eq_refl Hi)); reflexivity.
Qed.

(** *** The partition property *)

Lemma fmap_lookup_seq {A B} (f : A -> B) (g : nat -> B) (l : list A) :
  (forall i x, l !! i = Some x -> f x = g i) ->
  f <$> l = g <$> seq 0 (length l).
Proof.
  intros Hfg. apply list_eq. intros i. rewrite !list_lookup_fmap.
  destruct (l !! i) as [x|] eqn:Hx.
  - rewrite (proj2 (lookup_seq 0 (length l) i i)
               (conj eq_refl (lookup_lt_Some _ _ _ Hx))).
    cbn. f_equal. apply (Hfg i x Hx).
  - rewrite lookup_seq_ge by (apply lookup_ge_None; exact Hx). reflexivity.
Qed.

Lemma min_scale (a b c : nat) :
  ((a * c) `min` (c * b) = c * (a `min` b))%nat.
Proof.
  destruct (Nat.le_ge_cases a b) as [Hle|Hge].
  - rewrite (Nat.min_l a b) by exact Hle. rewrite Nat.min_l by nia. lia.
  - rewrite (Nat.min_r a b) by exact Hge. rewrite Nat.min_r by nia. lia.
Qed.

Lemma length_chunk {A} (size i : nat) (l : list A) :
  length (chunk size i l) = (size `min` (length l - i * size))%nat.
Proof. unfold chunk. rewrite length_take, length_drop. reflexivity. Qed.

Lemma concat_chunks {A} (size c : nat) (l : list A) :
  (length l <= c * size)%nat ->
  concat ((fun i => chunk size i l) <$> seq 0 c) = l.
Proof. intros Hlen. rewrite concat_chunks_take. apply take_ge, Hlen. Qed.

Lemma tensor_entry_class (ds : dataset) (Q : nat) (k : string) (t : tensor) :
  mc_entry_ok ds Q k (PTensor t) -> key_in k (static_keys ds) = false ->
  mc_key_class ds k (PTensor t) = Some PerRow
  /\ tensor_len t = num_choices ds * Z.of_nat Q.
Proof.
  unfold mc_entry_ok, mc_key_class. intros Hok Hst. rewrite Hst in *.
  cbn in *. destruct (key_in k (tensor_keys ds)); [|contradiction].
  split; [reflexivity|exact Hok].
Qed.

Lemma list_entry_class (ds : dataset) (Q : nat) (k : string) (l : list pyval) :
  mc_entry_ok ds Q k (PList l) -> key_in k (static_keys ds) = false ->
  (key_in k (list_of_tensors_keys ds) = true
   /\ mc_key_class ds k (PList l) = Some PerRow
   /\ Z.of_nat (length l) = num_choices ds * Z.of_nat Q)
  \/ (key_in k (list_of_tensors_keys ds) = false
      /\ (mc_key_class ds k (PList l) = Some PerQuestion
          \/ mc_key_class ds k (PList l) = Some PerQuestionPrimitive)
      /\ length l = Q).
Proof.
  unfold mc_entry_ok, mc_key_class. intros Hok Hst. rewrite Hst in *.
  cbn in *. destruct (key_in k (list_of_tensors_keys ds)).
  - left. repeat split. exact Hok.
  - right. split; [reflexivity|].
    destruct (key_in k (list_of_tuples_keys ds)).
    + split; [left; reflexivity|exact Hok].
    + destruct (key_in k (list_of_primitives ds)); [|contradiction].
      split; [right; reflexivity|exact (proj1 Hok)].
Qed.

(** C1: on a multiple-choice batch of [Q] questions and for a positive
    microbatch size [n], [split_batch] returns as many microbatches as [Q]
    questions taken [n] at a time need, such that (1) for every tensor key
    the rows of the microbatches, concatenated in order, are the rows of
    the batch, microbatch [i] holding the [i]-th run of [n * num_choices]
    rows, and every boundary between microbatches is at a multiple of
    [num_choices], hence never strictly inside a grouping range
    [(q*N, (q+1)*N)]; (2) every list key is cut into consecutive parts
    that concatenate back, a list of tensors by runs of [n * num_choices]
    entries and the question-level lists (tuples and primitives) by runs
    of [n] items, one item for every [num_choices] rows of their
    microbatch; (3) every static entry is in every microbatch unchanged. *)
Theorem split_batch_partitions
    (ds : dataset) (batch : pydict) (n : Z) (Q : nat) :
  multi_choice (kind ds) = true ->
  0 < num_choices ds ->
  0 < n ->
  mc_batch ds Q batch ->
  exists mbs : list pydict,
    split_batch ds batch (SzInt n) = Ok (PDict <$> mbs)
    /\ length mbs = n_chunks (Z.of_nat Q) n
    /\ (forall k rows,
          dict_get batch k = Some (PTensor (T2 rows)) ->
          key_in k (static_keys ds) = false ->
          exists parts,
            rows_at k <$> mbs = Some <$> parts
            /\ concat parts = rows
            /\ (forall i part,
                  parts !! i = Some part ->
                  part = chunk (Z.to_nat (n * num_choices ds)) i rows
                  /\ Z.of_nat (length part) <= n * num_choices ds)
            /\ forall j,
                 let boundary := Z.of_nat (length (concat (take j parts))) in
                 (num_choices ds | boundary)
                 /\ forall q : Z,
                      ~ (q * num_choices ds < boundary
                         < (q + 1) * num_choices ds))
    /\ (forall k l,
          dict_get batch k = Some (PList l) ->
          key_in k (static_keys ds) = false ->
          exists parts,
            items_at k <$> mbs = Some <$> parts
            /\ concat parts = l
            /\ (forall i part,
                  parts !! i = Some part ->
                  let size :=
                    if key_in k (list_of_tensors_keys ds)
                    then n * num_choices ds else n in
                  part = chunk (Z.to_nat size) i l
                  /\ Z.of_nat (length part) <= size)
            /\ (key_in k (list_of_tensors_keys ds) = false ->
                forall i part rows,
                  parts !! i = Some part ->
                  mbs !! i ≫= rows_at "input_ids" = Some rows ->
                  Z.of_nat (length rows)
                  = num_choices ds * Z.of_nat (length part)))
    /\ (forall k v,
          dict_get batch k = Some v ->
          key_in k (static_keys ds) = true ->
          Forall (fun mb => dict_get mb k = Some v) mbs).
Proof.
  intros Hkind HN Hn Hbatch.
  destruct (MultipleChoice_split_batch_lookup ds Q batch n HN Hn Hbatch)
    as (mbs & Hsplit & Hlen & Hget).
  destruct Hbatch as (Hnodup & Hentries & Hids_static & rows0 & Hids).
  set (N := num_choices ds) in *.
  set (C := n_chunks (Z.of_nat Q) n) in *.
  set (row_size := Z.to_nat (n * N)).
  assert (Hrow_size : row_size = (Z.to_nat n * Z.to_nat N)%nat)
    by (subst row_size; apply Z2Nat.inj_mul; lia).
  assert (HC_rows : forall len : nat,
            Z.of_nat len = N * Z.of_nat Q -> (len <= C * row_size)%nat).
  { intros len Hlen'.
    pose proof (n_chunks_covers (N * Z.of_nat Q) (n * N) ltac:(nia) ltac:(nia))
      as Hcov.
    rewrite n_chunks_scale in Hcov by lia. fold C in Hcov.
    apply Nat2Z.inj_le. rewrite Nat2Z.inj_mul. subst row_size.
    rewrite Z2Nat.id by nia. lia. }
  assert (HC_questions : (Q <= C * Z.to_nat n)%nat).
  { pose proof (n_chunks_covers (Z.of_nat Q) n Hn ltac:(lia)) as Hcov.
    fold C in Hcov. apply Nat2Z.inj_le. rewrite Nat2Z.inj_mul.
    rewrite Z2Nat.id by lia. exact Hcov. }
  (* the rows of input_ids in every microbatch *)
  destruct (tensor_entry_class ds Q _ _
              (Hentries _ _ (dict_get_elem_of _ _ _ Hids)) Hids_static)
    as [Hids_class Hids_len].
  assert (Hids_rows : forall i mb, mbs !! i = Some mb ->
            rows_at "input_ids" mb = Some (chunk row_size i rows0)).
  { intros i mb Hmb. unfold rows_at. rewrite (Hget i mb Hmb _ _ Hids).
    unfold microbatch_entry. rewrite Hids_class. reflexivity. }
  assert (Hpart_of : forall {A} (size : nat) (l : list A) i part,
            ((fun i => chunk size i l) <$> seq 0 C) !! i = Some part ->
            part = chunk size i l /\ (length part <= size)%nat).
  { intros A size l i part Hpart. rewrite list_lookup_fmap in Hpart.
    destruct (seq 0 C !! i) as [i'|] eqn:Hseq; [|discriminate].
    apply lookup_seq in Hseq as [-> _]. injection Hpart as <-.
    split; [reflexivity|]. rewrite length_chunk. lia. }
  assert (Hrow_size_Z : Z.of_nat row_size = n * N)
    by (subst row_size; rewrite Z2Nat.id by nia; reflexivity).
  exists mbs. split.
  { unfold split_batch. destruct (kind ds); try discriminate;
      rewrite Hsplit; reflexivity. }
  split; [exact Hlen|].
  split; [|split].
  - (* tensor keys *)
    intros k rows Hk Hst.
    destruct (tensor_entry_class ds Q _ _
                (Hentries _ _ (dict_get_elem_of _ _ _ Hk)) Hst)
      as [Hclass Hrows].
    cbn [tensor_len] in Hrows.
    exists ((fun i => chunk row_size i rows) <$> seq 0 C).
    split; [|split; [|split]].
    + rewrite <- list_fmap_compose, <- Hlen. apply fmap_lookup_seq.
      intros i mb Hmb. unfold rows_at. rewrite (Hget i mb Hmb _ _ Hk).
      unfold microbatch_entry. rewrite Hclass. reflexivity.
    + apply concat_chunks, HC_rows, Hrows.
    + intros i part Hpart.
      destruct (Hpart_of _ _ _ _ _ Hpart) as [-> Hsize].
      split; [reflexivity|]. rewrite <- Hrow_size_Z. lia.
    + intros j. cbn zeta.
      rewrite take_chunks, concat_chunks_take, length_take.
      assert (Hlen_rows : length rows = (Z.to_nat N * Q)%nat)
        by (apply Nat2Z.inj; rewrite Nat2Z.inj_mul, Z2Nat.id by lia;
            exact Hrows).
      rewrite Hlen_rows, Hrow_size.
      replace ((j `min` C) * (Z.to_nat n * Z.to_nat N))%nat
        with (((j `min` C) * Z.to_nat n) * Z.to_nat N)%nat by lia.
      rewrite min_scale, Nat2Z.inj_mul, Z2Nat.id by lia.
      set (m := Z.of_nat (((j `min` C) * Z.to_nat n) `min` Q)).
      clearbody m. split; [exists m; ring|]. intros q [Hlo Hhi].
      assert (q < m) by nia. assert (m < q + 1) by nia. lia.
  - (* list keys *)
    intros k l Hk Hst.
    destruct (list_entry_class ds Q _ _
                (Hentries _ _ (dict_get_elem_of _ _ _ Hk)) Hst)
      as [(Hlot & Hclass & Hl)|(Hlot & Hclass & Hl)].
    + exists ((fun i => chunk row_size i l) <$> seq 0 C).
      split; [|split; [|split]].
      * rewrite <- list_fmap_compose, <- Hlen. apply fmap_lookup_seq.
        intros i mb Hmb. unfold items_at. rewrite (Hget i mb Hmb _ _ Hk).
        unfold microbatch_entry. rewrite Hclass. reflexivity.
      * apply concat_chunks, HC_rows, Hl.
      * intros i part Hpart. rewrite Hlot. cbn zeta.
        destruct (Hpart_of _ _ _ _ _ Hpart) as [-> Hsize].
        split; [reflexivity|]. rewrite <- Hrow_size_Z. lia.
      * intros Hno. congruence.
    + exists ((fun i => chunk (Z.to_nat n) i l) <$> seq 0 C).
      split; [|split; [|split]].
      * rewrite <- list_fmap_compose, <- Hlen. apply fmap_lookup_seq.
        intros i mb Hmb. unfold items_at. rewrite (Hget i mb Hmb _ _ Hk).
        unfold microbatch_entry.
        destruct Hclass as [-> | ->]; reflexivity.
      * apply concat_chunks. rewrite Hl. exact HC_questions.
      * intros i part Hpart. rewrite Hlot. cbn zeta.
        destruct (Hpart_of _ _ _ _ _ Hpart) as [-> Hsize].
        split; [reflexivity|]. lia.
      * intros _ i part rows Hpart Hrows.
        rewrite list_lookup_fmap in Hpart.
        destruct (seq 0 C !! i) as [i'|] eqn:Hseq; [|discriminate].
        apply lookup_seq in Hseq as [-> Hi]. injection Hpart as <-.
        destruct (mbs !! i) as [mb|] eqn:Hmb; [|discriminate].
        cbn in Hrows. rewrite (Hids_rows i mb Hmb) in Hrows.
        injection Hrows as <-.
        cbn [tensor_len] in Hids_len.
        assert (Hlen_rows : length rows0 = (Z.to_nat N * Q)%nat)
          by (apply Nat2Z.inj; rewrite Nat2Z.inj_mul, Z2Nat.id by lia;
              exact Hids_len).
        rewrite !length_chunk, Hlen_rows, Hl, Hrow_size.
        replace (i * (Z.to_nat n * Z.to_nat N))%nat
          with (Z.to_nat N * (i * Z.to_nat n))%nat by lia.
        rewrite <- Nat.mul_sub_distr_l, min_scale, Nat2Z.inj_mul,
          Z2Nat.id by lia.
        reflexivity.
  - (* static keys *)
    intros k v Hk Hst. apply Forall_lookup. intros i mb Hmb.
    rewrite (Hget i mb Hmb _ _ Hk). unfold microbatch_entry, mc_key_class.
    rewrite Hst. reflexivity.
Qed.

Lemma split_batch_partitions_witness :
  exists mbs parts,
    split_batch (mc_dataset 2) three_questions_batch (SzInt 2)
    = Ok (PDict <$> mbs)
    /\ length mbs = 2%nat
    /\ rows_at "input_ids" <$> mbs = Some <$> parts
    /\ concat parts = [[1]; [2]; [3]; [4]; [5]; [6]]
    /\ parts !! 0%nat = Some [[1]; [2]; [3]; [4]]
    /\ parts !! 1%nat = Some [[5]; [6]].
Proof.
  destruct (split_batch_partitions (mc_dataset 2) three_questions_batch 2 3)
    as (mbs & Hsplit & Hcount & Htensor & _).
  - reflexivity.
  - simpl. lia.
  - lia.
  - split; [|split; [|split]].
    + apply (bool_decide_unpack _). vm_compute. exact I.
    + intros k v Hin. unfold three_questions_batch in Hin.
      repeat (apply elem_of_cons in Hin as [Heq|Hin];
              [injection Heq as -> ->; vm_compute; auto|]).
      inversion Hin.
    + reflexivity.
    + eexists. reflexivity.
  - destruct (Htensor "input_ids" _ eq_refl eq_refl)
      as (parts & Hparts & Hconcat & Hchunks & _).
    exists mbs, parts. split; [exact Hsplit|]. split; [exact Hcount|].
    split; [exact Hparts|]. split; [exact Hconcat|].
    assert (Hlen : length parts = 2%nat).
    { rewrite <- (length_fmap Some parts), <- Hparts, length_fmap.
      exact Hcount. }
    destruct parts as [|p0 [|p1 [|p2 parts]]]; try discriminate Hlen.
    destruct (Hchunks 0%nat p0 eq_refl) as [-> _].
    destruct (Hchunks 1%nat p1 eq_refl) as [-> _].
    split; reflexivity.
Defined.

(** * Further properties of the modelled code *)

(** ** Effective batch size and the preamble fix-up *)

(** X1: with at least one choice the effective batch size is at least 1
    for every integer request, also a zero or negative one, and its rows
    fit a request that is at least [num_choices]; with zero choices the
    division raises. *)
Theorem get_effective_batch_size_bounds (ds : dataset) (n : Z) :
  multi_choice (kind ds) = true ->
  (0 < num_choices ds ->
   exists q, get_effective_batch_size ds n = Ok q
             /\ 1 <= q
             /\ (num_choices ds <= n -> q * num_choices ds <= n))
  /\ (num_choices ds = 0 ->
      get_effective_batch_size ds n = Raise ZeroDivisionError).
Proof.
  intros Hk. unfold get_effective_batch_size. rewrite Hk. split.
  - intros HN. rewrite floordiv_pos by exact HN. eexists. split; [reflexivity|].
    set (m := Z.max (num_choices ds) n).
    pose proof (Z.div_mod m (num_choices ds) ltac:(lia)) as Hdm.
    pose proof (Z.mod_pos_bound m (num_choices ds) HN) as Hmod.
    split; [|intros Hle]; nia.
  - intros ->. reflexivity.
Qed.

Lemma get_effective_batch_size_bounds_witness :
  (exists q, get_effective_batch_size (mc_dataset 4) (-3) = Ok q /\ 1 <= q)
  /\ get_effective_batch_size (mc_dataset 0) 8 = Raise ZeroDivisionError.
Proof.
  split.
  - destruct (get_effective_batch_size_bounds (mc_dataset 4) (-3) eq_refl)
      as [H _].
    destruct (H ltac:(simpl; lia)) as (q & Hq & Hge & _).
    exists q. split; assumption.
  - destruct (get_effective_batch_size_bounds (mc_dataset 0) 8 eq_refl)
      as [_ H].
    apply H. reflexivity.
Defined.

(** X2: [_fix_eos_on_preamble] returns a prefix of its input that is
    shorter by at most one token, and never empties a non-empty preamble. *)
Theorem fix_eos_on_preamble_prefix (tokenizer_eos : option Z) (ids : list Z) :
  let r := _fix_eos_on_preamble tokenizer_eos ids in
  r `prefix_of` ids
  /\ (length ids - 1 <= length r <= length ids)%nat
  /\ (r = [] <-> ids = []).
Proof.
  cbn zeta. unfold _fix_eos_on_preamble.
  destruct tokenizer_eos as [eos|]; [|repeat split; (reflexivity || lia || auto)].
  destruct (bool_decide (1 < Z.of_nat (length ids))) eqn:Hlen; cbn [andb];
    [|repeat split; (reflexivity || lia || auto)].
  destruct (bool_decide (last ids = Some eos)); cbn;
    [|repeat split; (reflexivity || lia || auto)].
  apply bool_decide_eq_true_1 in Hlen.
  destruct ids as [|x ids _] using rev_ind; [cbn in Hlen; lia|].
  rewrite removelast_last, length_app in *. cbn in *.
  split; [exists [x]; reflexivity|]. split; [lia|].
  split; intros H.
  - subst ids. cbn in Hlen. lia.
  - destruct ids; discriminate.
Qed.

(** ** The generation dataset after [read_dataset] *)

(** X3: after [read_dataset] the padding size is never negative, the
    maximum sequence length has not been lowered and is at least the
    maximum answer length, which is itself not negative. *)
Theorem read_dataset_padding_nonneg
    (tokenizer : string -> list Z) (self : gen_state) (loaded : corpus) :
  let st := (read_dataset tokenizer self loaded).1 in
  0 <= padding_size st
  /\ max_seq_len self <= max_seq_len st
  /\ 0 <= max_answer_length st <= max_seq_len st
  /\ padding_size st + max_answer_length st = max_seq_len st.
Proof.
  unfold read_dataset, _get_max_answer_length. cbn zeta.
  set (self' := {| max_seq_len := _ |}).
  set (raw := foldl _ 0 (map_example <$> rows loaded)).
  set (buffer := if 0 <? _ then _ else _).
  assert (Hraw : 0 <= raw).
  { pose proof (outer_max_fold
                  (fun e => m_answer e :: m_aliases e)
                  (fun e answer =>
                     Z.of_nat (length (tokenizer
                       (response self' (m_chain_of_thought e) answer))))
                  (map_example <$> rows loaded) 0) as (Hle & _).
    exact Hle. }
  assert (Hbuffer : 0 <= buffer).
  { subst buffer. unfold _MAX_ANSWER_BUFFER_LENGTH.
    destruct (0 <? _); lia. }
  clearbody raw buffer. subst self'. cbn [max_seq_len warnings cot_delimiter].
  destruct (Z.ltb_spec (max_seq_len self) (raw + buffer));
    cbn [fst max_answer_length max_seq_len padding_size]; lia.
Qed.

(** ** What [_validate_cfg] leaves in the config *)

Lemma check_token_id_ok key flag msg tok st st' :
  check_token_id key flag msg tok st = Ok st' ->
  cfg_out st'
  = (if token_id_mismatch (cfg_out st) key tok
     then delete flag (cfg_out st) else cfg_out st)
  /\ (token_id_mismatch (cfg_out st) key tok = true ->
      override_set (cfg_out st) flag = true).
Proof.
  rewrite check_token_id_unfold.
  destruct (token_id_mismatch (cfg_out st) key tok).
  - destruct (override_set (cfg_out st) flag); [|discriminate].
    intros [= <-]. split; reflexivity.
  - intros [= <-]. split; [reflexivity|discriminate].
Qed.

(** X4: when [_validate_cfg] returns, the config it leaves differs from the
    one it was given only in that an override flag is consumed exactly
    when its token id differed, and a present [max_seq_len] is stored as
    the Python int it is equal to; every other entry is untouched. *)
Theorem validate_cfg_leaves
    (int_of_str : string -> result Z) (cfg : gmap string cfgval)
    (tok_eos tok_bos : option Z) (st : validated) :
  _validate_cfg int_of_str cfg tok_eos tok_bos = Ok st ->
  (forall key, key <> eos_flag -> key <> bos_flag -> key <> "max_seq_len" ->
     cfg_out st !! key = cfg !! key)
  /\ cfg_out st !! eos_flag
     = (if token_id_mismatch cfg "eos_token_id" tok_eos
        then None else cfg !! eos_flag)
  /\ cfg_out st !! bos_flag
     = (if token_id_mismatch cfg "bos_token_id" tok_bos
        then None else cfg !! bos_flag)
  /\ (is_not_none (default CNone (cfg !! "max_seq_len")) = false ->
      cfg_out st !! "max_seq_len" = cfg !! "max_seq_len")
  /\ (is_not_none (default CNone (cfg !! "max_seq_len")) = true ->
      exists i, cfg_out st !! "max_seq_len" = Some (CInt i)
                /\ ne_int (default CNone (cfg !! "max_seq_len")) i = false).
Proof.
  unfold _validate_cfg. fold eos_flag bos_flag.
  destruct (check_token_id "eos_token_id" eos_flag _ _ _) as [st1|] eqn:H1;
    [|discriminate].
  apply check_token_id_ok in H1 as [Hcfg1 _]. cbn [cfg_out] in Hcfg1.
  cbn [mbind result_bind].
  destruct (check_token_id "bos_token_id" bos_flag _ _ st1) as [st2|] eqn:H2;
    [|discriminate].
  apply check_token_id_ok in H2 as [Hcfg2 _].
  cbn [mbind result_bind].
  assert (Hbos : token_id_mismatch (cfg_out st1) "bos_token_id" tok_bos
                 = token_id_mismatch cfg "bos_token_id" tok_bos).
  { rewrite Hcfg1.
    destruct (token_id_mismatch cfg "eos_token_id" tok_eos); [|reflexivity].
    unfold token_id_mismatch, eos_flag.
    rewrite lookup_delete_ne by done. reflexivity. }
  rewrite Hbos in Hcfg2.
  assert (Hget : forall key, cfg_out st2 !! key
            = if bool_decide (key = eos_flag)
              then (if token_id_mismatch cfg "eos_token_id" tok_eos
                    then None else cfg !! eos_flag)
              else if bool_decide (key = bos_flag)
              then (if token_id_mismatch cfg "bos_token_id" tok_bos
                    then None else cfg !! bos_flag)
              else cfg !! key).
  { intros key. rewrite Hcfg2, Hcfg1.
    destruct (token_id_mismatch cfg "eos_token_id" tok_eos),
             (token_id_mismatch cfg "bos_token_id" tok_bos);
      repeat case_bool_decide; subst;
      rewrite ?lookup_delete_eq, ?lookup_delete_ne by done;
      rewrite ?lookup_delete_eq, ?lookup_delete_ne by done;
      try reflexivity; try (unfold eos_flag, bos_flag in *; congruence). }
  assert (Hmsl : cfg_out st2 !! "max_seq_len" = cfg !! "max_seq_len")
    by (rewrite Hget; reflexivity).
  rewrite Hmsl.
  set (c := default CNone (cfg !! "max_seq_len")).
  intros Hres.
  assert (Hfinal : forall key, key <> "max_seq_len" ->
            cfg_out st !! key = cfg_out st2 !! key).
  { intros key Hkey. destruct (is_not_none c); [|injection Hres as <-; reflexivity].
    destruct (py_int int_of_str c) as [i|]; [|discriminate].
    cbn [mbind result_bind] in Hres.
    destruct (ne_int c i); [discriminate|]. injection Hres as <-.
    cbn [cfg_out]. rewrite lookup_insert_ne by congruence. reflexivity. }
  split; [|split; [|split; [|split]]].
  - intros key He Hb Hm. rewrite Hfinal, Hget by exact Hm.
    rewrite !bool_decide_eq_false_2 by assumption. reflexivity.
  - rewrite Hfinal, Hget by discriminate. reflexivity.
  - rewrite Hfinal, Hget by discriminate. reflexivity.
  - intros Hnone. rewrite Hnone in Hres. injection Hres as <-. exact Hmsl.
  - intros Hsome. rewrite Hsome in Hres.
    destruct (py_int int_of_str c) as [i|]; [|discriminate].
    cbn [mbind result_bind] in Hres.
    destruct (ne_int c i) eqn:Hne; [discriminate|]. injection Hres as <-.
    exists i. cbn [cfg_out]. rewrite lookup_insert_eq. split; [reflexivity|exact Hne].
Qed.

Lemma validate_cfg_leaves_witness :
  exists st,
    _validate_cfg digits_only cfg_float_len (Some 2) (Some 1) = Ok st
    /\ cfg_out st !! "max_seq_len" = Some (CInt 128)
    /\ cfg_out st !! eos_flag = None
    /\ cfg_out st !! "eos_token_id" = Some (CInt 5).
Proof.
  destruct (_validate_cfg digits_only cfg_float_len (Some 2) (Some 1))
    as [st|e] eqn:Hv; [|vm_compute in Hv; discriminate].
  destruct (validate_cfg_leaves _ _ _ _ _ Hv)
    as (Hother & Heos & _ & _ & Hmsl).
  exists st. split; [reflexivity|]. split; [|split].
  - destruct (Hmsl eq_refl) as (i & Hi & Hne). rewrite Hi.
    apply negb_false_iff, bool_decide_eq_true_1 in Hne.
    vm_compute in Hne. injection Hne as <-. reflexivity.
  - rewrite Heos. reflexivity.
  - rewrite Hother by discriminate. reflexivity.
Defined.

(** ** Invariants of multiple-choice collation *)

(** Whenever the inner loop returns, it has appended the contexts to
    [input_ids] and [labels] and as many spans to [continuation_indices]. *)
Lemma choice_loop_inv (contexts : list (list Z)) (spans : list (list Z))
    (i : nat) (b b' : mc_lists) :
  choice_loop i contexts spans b = Ok b' ->
  b_input_ids b' = b_input_ids b ++ contexts
  /\ b_labels b' = b_labels b ++ contexts
  /\ (exists added, b_continuation_indices b'
                    = b_continuation_indices b ++ added
                    /\ length added = length contexts)
  /\ b_gold_indices b' = b_gold_indices b
  /\ b_choice_groupings b' = b_choice_groupings b.
Proof.
  revert i b. induction contexts as [|c contexts IH]; intros i b.
  - cbn. intros [= <-]. rewrite !app_nil_r.
    repeat split; try reflexivity. exists []. rewrite app_nil_r. split; reflexivity.
  - cbn [choice_loop]. destruct (getitem spans i) as [span|]; [|discriminate].
    cbn [mbind result_bind]. intros Hloop.
    apply IH in Hloop as (Hids & Hlabels & (added & Hspans & Hlen) & Hgold & Hgr).
    cbn [b_input_ids b_continuation_indices b_labels b_gold_indices
         b_choice_groupings] in *.
    rewrite <- !app_assoc in *. cbn [app] in *.
    repeat split; try assumption.
    exists (span :: added). split; [exact Hspans|cbn; lia].
Qed.

(** Whenever the outer loop returns: labels and rows stay equal, there is
    one span per row, one gold index and one grouping per record, and the
    groupings follow one another over the rows, each as wide as its record
    has contexts. *)
Lemma collate_loop_inv (data : list tokenized_mc) (b b' : mc_lists) :
  collate_loop data b = Ok b' ->
  b_labels b = b_input_ids b ->
  length (b_continuation_indices b) = length (b_input_ids b) ->
  b_labels b' = b_input_ids b'
  /\ length (b_continuation_indices b') = length (b_input_ids b')
  /\ b_input_ids b' = b_input_ids b ++ concat (tok_contexts <$> data)
  /\ b_gold_indices b' = b_gold_indices b ++ (tok_gold <$> data)
  /\ exists gs,
       b_choice_groupings b' = b_choice_groupings b ++ gs
       /\ tiles gs (Z.of_nat (length (b_input_ids b)))
                   (Z.of_nat (length (b_input_ids b')))
       /\ Forall2 (fun r g => g.2 - g.1 = Z.of_nat (length (tok_contexts r)))
                  data gs.
Proof.
  revert b. induction data as [|r data IH]; intros b.
  - cbn. intros [= <-] Hlabels Hlen. rewrite !app_nil_r.
    repeat split; try assumption. exists []. rewrite app_nil_r.
    repeat split. constructor.
  - cbn [collate_loop].
    destruct (choice_loop 0 _ _ b) as [b1|] eqn:Hchoice; [|discriminate].
    apply choice_loop_inv in Hchoice
      as (Hids & Hlab & (added & Hspans & Hadded) & Hgold & Hgr).
    cbn [mbind result_bind]. intros Hloop Hlabels Hlen.
    apply IH in Hloop as (Hl' & Hlen' & Hids' & Hgold' & gs & Hgs & Htiles & Hw);
      cbn [b_input_ids b_continuation_indices b_labels b_gold_indices
           b_choice_groupings] in *.
    + rewrite Hids, Hgold, Hgr, Hspans in *.
      rewrite <- !app_assoc in *. cbn [app] in *.
      repeat split; try assumption.
      exists ((Z.of_nat (length (b_continuation_indices b)),
               Z.of_nat (length (b_continuation_indices b ++ added))) :: gs).
      split; [exact Hgs|]. split.
      * cbn [tiles]. rewrite !length_app in *.
        split; [rewrite Hlen; reflexivity|].
        split; [lia|]. rewrite Hadded, Hlen. exact Htiles.
      * constructor; [|exact Hw]. cbn. rewrite length_app, Hadded. lia.
    + rewrite Hids, Hlab, Hlabels. reflexivity.
    + rewrite Hids, Hspans, !length_app, Hadded, Hlen. reflexivity.
Qed.

(** X5: whenever [collate_fn] returns, for records with any numbers of
    choices: the rows of [input_ids] are all the contexts in order, there
    is one continuation span per row, one gold index and one grouping per
    record, and the groupings follow one another from row 0 to the last
    row, each as wide as its record has choices. *)
Theorem MultipleChoice_collate_fn_groupings
    (ds : dataset) (data : list tokenized_mc) (batch : pydict) :
  MultipleChoice_collate_fn ds data = Ok batch ->
  exists rows spans gs,
    dict_get batch "input_ids" = Some (PTensor (T2 rows))
    /\ rows = concat (tok_contexts <$> data)
    /\ items_at "continuation_indices" batch = Some spans
    /\ length spans = length rows
    /\ dict_get batch "gold_indices" = Some (PList (PInt <$> (tok_gold <$> data)))
    /\ dict_get batch "choice_groupings" = Some (PList (grouping_tuple <$> gs))
    /\ tiles gs 0 (Z.of_nat (length rows))
    /\ Forall2 (fun r g => g.2 - g.1 = Z.of_nat (length (tok_contexts r)))
               data gs.
Proof.
  unfold MultipleChoice_collate_fn.
  destruct (collate_loop data base_lists) as [b|] eqn:Hloop; [|discriminate].
  cbn [mbind result_bind]. intros [= <-].
  apply collate_loop_inv in Hloop
    as (Hlab & Hlen & Hids & Hgold & gs & Hgs & Htiles & Hw);
    [|reflexivity|reflexivity].
  cbn [base_lists b_input_ids b_gold_indices b_choice_groupings app length]
    in *.
  exists (b_input_ids b),
         ((if tokenize_labels ds then fun span => PTensor (T1 span)
           else token_list) <$> b_continuation_indices b), gs.
  split; [reflexivity|].
  split; [exact Hids|].
  split; [reflexivity|].
  split; [rewrite length_fmap; exact Hlen|].
  split; [cbn; rewrite Hgold; reflexivity|].
  split.
  { cbn. rewrite Hgs. do 2 f_equal.
    apply list_fmap_ext. intros _ [s e] _. reflexivity. }
  split; [exact Htiles|exact Hw].
Qed.

Lemma MultipleChoice_collate_fn_groupings_witness :
  exists batch gs,
    MultipleChoice_collate_fn (mc_dataset 2) two_questions = Ok batch
    /\ dict_get batch "choice_groupings" = Some (PList (grouping_tuple <$> gs))
    /\ tiles gs 0 4.
Proof.
  destruct (MultipleChoice_collate_fn (mc_dataset 2) two_questions)
    as [batch|e] eqn:Hc; [|vm_compute in Hc; discriminate].
  destruct (MultipleChoice_collate_fn_groupings _ _ _ Hc)
    as (rows & spans & gs & _ & Hrows & _ & _ & _ & Hgr & Htiles & _).
  exists batch, gs. split; [reflexivity|]. split; [exact Hgr|].
  rewrite Hrows in Htiles. exact Htiles.
Defined.

(** X6: whenever [collate_fn] returns, [labels] holds the same rows as
    [input_ids], and [attention_mask] has the shape of [input_ids] with a 0
    exactly where the token is the padding token. *)
Theorem MultipleChoice_collate_fn_mask
    (ds : dataset) (data : list tokenized_mc) (batch : pydict) :
  MultipleChoice_collate_fn ds data = Ok batch ->
  exists rows mask,
    dict_get batch "input_ids" = Some (PTensor (T2 rows))
    /\ dict_get batch "labels"
       = Some (if tokenize_labels ds then PTensor (T2 rows)
               else PList (token_list <$> rows))
    /\ dict_get batch "attention_mask" = Some (PTensor (T2 mask))
    /\ Forall2 (Forall2 (fun tok m =>
                           (m = 0 /\ tok = pad_tok_id ds)
                           \/ (m = 1 /\ tok <> pad_tok_id ds)))
               rows mask.
Proof.
  unfold MultipleChoice_collate_fn.
  destruct (collate_loop data base_lists) as [b|] eqn:Hloop; [|discriminate].
  cbn [mbind result_bind]. intros [= <-].
  apply collate_loop_inv in Hloop as (Hlab & _); [|reflexivity|reflexivity].
  eexists (b_input_ids b), _.
  split; [reflexivity|].
  split; [cbn; rewrite Hlab; reflexivity|].
  split.
  { destruct (base_generation_kwargs ds); reflexivity. }
  apply Forall2_fmap_r, Forall_Forall2_diag, Forall_forall. intros row _.
  apply Forall2_fmap_r, Forall_Forall2_diag, Forall_forall. intros tok _.
  cbn. destruct (Z.eqb_spec tok (pad_tok_id ds)); [left|right]; split;
    (reflexivity || assumption).
Qed.

Lemma MultipleChoice_collate_fn_mask_witness :
  exists batch rows mask,
    MultipleChoice_collate_fn (mc_dataset 2) two_questions = Ok batch
    /\ dict_get batch "input_ids" = Some (PTensor (T2 rows))
    /\ dict_get batch "attention_mask" = Some (PTensor (T2 mask))
    /\ length mask = length rows.
Proof.
  destruct (MultipleChoice_collate_fn (mc_dataset 2) two_questions)
    as [batch|e] eqn:Hc; [|vm_compute in Hc; discriminate].
  destruct (MultipleChoice_collate_fn_mask _ _ _ Hc)
    as (rows & mask & Hids & _ & Hmask & Hshape).
  exists batch, rows, mask. split; [reflexivity|].
  split; [exact Hids|]. split; [exact Hmask|].
  symmetry. apply (Forall2_length _ _ _ Hshape).
Defined.

(** ** Samples in a batch *)

(** X7: on the batch that [collate_fn] builds from [Q] records of
    [num_choices] choices each, [get_num_samples_in_batch] returns [Q]: it
    counts questions, not rows. *)
Theorem get_num_samples_in_collated_batch
    (ds : dataset) (data : list tokenized_mc) (n : nat) :
  multi_choice (kind ds) = true ->
  num_choices ds = Z.of_nat n ->
  (0 < n)%nat ->
  Forall (carries_choices n) data ->
  exists batch,
    MultipleChoice_collate_fn ds data = Ok batch
    /\ get_num_samples_in_batch ds batch = Ok (Z.of_nat (length data)).
Proof.
  intros Hk HN Hn Hdata. unfold MultipleChoice_collate_fn.
  rewrite (collate_loop_ok n data base_lists Hdata).
  cbn [mbind result_bind base_lists b_input_ids app].
  eexists. split; [reflexivity|].
  unfold get_num_samples_in_batch. rewrite Hk, HN. cbn.
  rewrite (concat_contexts_length n data Hdata).
  rewrite floordiv_pos by lia. f_equal.
  rewrite Nat2Z.inj_mul, Z.mul_comm. apply Z.div_mul. lia.
Qed.

Lemma get_num_samples_in_collated_batch_witness :
  exists batch,
    MultipleChoice_collate_fn (mc_dataset 2) two_questions = Ok batch
    /\ get_num_samples_in_batch (mc_dataset 2) batch = Ok 2.
Proof.
  apply (get_num_samples_in_collated_batch (mc_dataset 2) two_questions 2);
    [reflexivity | reflexivity | lia | repeat constructor].
Defined.

(** ** Samples in the microbatches *)

Lemma sum_Z_app (l1 l2 : list Z) : sum_Z (l1 ++ l2) = sum_Z l1 + sum_Z l2.
Proof.
  unfold sum_Z. induction l1 as [|x l1 IH]; cbn; [reflexivity|].
  rewrite IH. lia.
Qed.

Lemma sum_chunk_lengths (size c len : nat) :
  sum_Z ((fun i : nat => Z.of_nat (size `min` (len - i * size))) <$> seq 0 c)
  = Z.of_nat ((c * size) `min` len).
Proof.
  induction c as [|c IH]; [reflexivity|].
  rewrite seq_S, fmap_app, sum_Z_app, IH. cbn. lia.
Qed.

Lemma mapM_lookup_seq {A B} (f : A -> result B) (g : nat -> B) (l : list A) :
  (forall i x, l !! i = Some x -> f x = Ok (g i)) ->
  mapM f l = Ok (g <$> seq 0 (length l)).
Proof.
  revert g. induction l as [|x l IH]; intros g Hfg; [reflexivity|].
  cbn [mapM length seq fmap list_fmap].
  rewrite (Hfg 0%nat x eq_refl). cbn [mbind result_bind].
  rewrite (IH (g ∘ S)) by (intros i y Hy; apply (Hfg (S i) y Hy)).
  cbn [mbind result_bind]. rewrite <- fmap_S_seq, <- list_fmap_compose.
  reflexivity.
Qed.

Lemma n_chunks_tight (len n : Z) :
  0 < n -> 0 < len -> (Z.of_nat (n_chunks len n) - 1) * n < len.
Proof.
  intros Hn Hlen. unfold n_chunks.
  destruct (Z.leb_spec len n) as [Hle|Hgt]; [lia|].
  set (c := (len + n - 1) `div` n).
  pose proof (Z.div_mod (len + n - 1) n ltac:(lia)) as Hdm.
  pose proof (Z.mod_pos_bound (len + n - 1) n Hn) as Hmod. fold c in Hdm.
  assert (0 <= c) by (apply Z.div_pos; lia).
  rewrite Z2Nat.id by lia. nia.
Qed.

(** X8: on a multiple-choice batch of [Q] questions split with a positive
    microbatch size [n], [get_num_samples_in_batch] succeeds on every
    microbatch; the counts add up to [Q], none exceeds [n], and none is 0
    unless the batch is empty. *)
Theorem split_batch_sample_counts
    (ds : dataset) (batch : pydict) (n : Z) (Q : nat) :
  multi_choice (kind ds) = true ->
  0 < num_choices ds ->
  0 < n ->
  mc_batch ds Q batch ->
  exists mbs counts,
    split_batch ds batch (SzInt n) = Ok (PDict <$> mbs)
    /\ mapM (get_num_samples_in_batch ds) mbs = Ok counts
    /\ sum_Z counts = Z.of_nat Q
    /\ Forall (fun c => 0 <= c <= n) counts
    /\ ((0 < Q)%nat -> Forall (fun c => 1 <= c) counts).
Proof.
  intros Hk HN Hn Hb.
  destruct (MultipleChoice_split_batch_lookup ds Q batch n HN Hn Hb)
    as (mbs & Hsplit & Hlen & Hmbs).
  destruct Hb as (Hnodup & Hentries & Hst & rows & Hids).
  destruct (tensor_entry_class ds Q "input_ids" (T2 rows)) as [Hclass Hrows];
    [apply Hentries, dict_get_elem_of, Hids|exact Hst|].
  cbn [tensor_len] in Hrows.
  set (n' := Z.to_nat n). set (N' := Z.to_nat (num_choices ds)).
  set (count := fun i : nat => Z.of_nat (n' `min` (Q - i * n'))).
  exists mbs, (count <$> seq 0 (length mbs)).
  split.
  { unfold split_batch. destruct (kind ds); try discriminate;
      rewrite Hsplit; reflexivity. }
  split.
  { apply mapM_lookup_seq. intros i mb Hmb.
    unfold get_num_samples_in_batch, dict_getitem.
    rewrite (Hmbs i mb Hmb _ _ Hids). unfold microbatch_entry.
    rewrite Hclass, Hk. cbn [chunk_of chunk_size mbind result_bind py_shape0
                              tensor_len].
    rewrite floordiv_pos by exact HN. f_equal.
    rewrite length_chunk.
    assert (Hsize : Z.to_nat (n * num_choices ds) = (n' * N')%nat)
      by (subst n' N'; rewrite Z2Nat.inj_mul by lia; reflexivity).
    assert (Hrows' : length rows = (N' * Q)%nat) by (subst N'; nia).
    rewrite Hsize, Hrows'.
    replace (N' * Q - i * (n' * N'))%nat with (N' * (Q - i * n'))%nat by nia.
    rewrite min_scale. unfold count.
    rewrite Nat2Z.inj_mul. subst N'. rewrite Z2Nat.id by lia.
    rewrite Z.mul_comm. apply Z.div_mul. lia. }
  split.
  { unfold count. rewrite sum_chunk_lengths. f_equal. apply Nat.min_r.
    pose proof (n_chunks_covers (Z.of_nat Q) n Hn ltac:(lia)) as Hcov.
    rewrite Hlen. subst n'. nia. }
  split.
  { apply Forall_forall. intros c Hc.
    apply list_elem_of_fmap in Hc as (i & -> & _). unfold count. subst n'. lia. }
  intros HQ. apply Forall_forall. intros c Hc.
  apply list_elem_of_fmap in Hc as (i & -> & Hi).
  apply elem_of_seq in Hi. rewrite Hlen in Hi.
  pose proof (n_chunks_tight (Z.of_nat Q) n Hn ltac:(lia)) as Htight.
  unfold count. subst n'.
  assert (i * Z.to_nat n < Q)%nat by nia. lia.
Qed.

Lemma split_batch_sample_counts_witness :
  exists mbs counts,
    split_batch (mc_dataset 2) three_questions_batch (SzInt 2)
    = Ok (PDict <$> mbs)
    /\ mapM (get_num_samples_in_batch (mc_dataset 2)) mbs = Ok counts
    /\ sum_Z counts = 3
    /\ Forall (fun c => 1 <= c <= 2) counts.
Proof.
  destruct (split_batch_sample_counts (mc_dataset 2) three_questions_batch 2 3)
    as (mbs & counts & Hsplit & Hcounts & Hsum & Hle & Hge).
  - reflexivity.
  - reflexivity.
  - reflexivity.
  - split; [apply (bool_decide_unpack _); vm_compute; exact I|].
    split.
    { intros k v Hin. unfold three_questions_batch in Hin.
      repeat (apply elem_of_cons in Hin as [Heq|Hin];
              [injection Heq as -> ->; vm_compute; auto|]).
      inversion Hin. }
    split; [reflexivity|]. eexists. reflexivity.
  - exists mbs, counts. split; [exact Hsplit|]. split; [exact Hcounts|].
    split; [exact Hsum|].
    specialize (Hge ltac:(lia)).
    apply Forall_forall. intros c Hc.
    rewrite Forall_forall in Hle, Hge.
    specialize (Hle c Hc). specialize (Hge c Hc). lia.
Defined.

(** ** Collation followed by splitting *)

Lemma check_list_is_primitives_ints (l : list Z) :
  _check_list_is_primitives (PInt <$> l) = true.
Proof.
  destruct l as [|z l]; [reflexivity|].
  cbn [fmap list_fmap _check_list_is_primitives is_primitive andb].
  apply forallb_forall. intros v Hv. apply bool_decide_eq_true_2.
  apply list_elem_of_In in Hv. change (v ∈ PInt <$> (z :: l)) in Hv.
  apply list_elem_of_fmap in Hv as (z' & -> & _). reflexivity.
Qed.

Lemma concat_spans_length (n : nat) (data : list tokenized_mc) :
  Forall (carries_choices n) data ->
  length (concat (tok_continuation_indices <$> data)) = (n * length data)%nat.
Proof.
  induction 1 as [|r data [_ Hspans] _ IH]; [cbn; lia|].
  rewrite fmap_cons, concat_cons, length_app, IH, Hspans. cbn [length]. lia.
Qed.

(** Evaluate the key tests on literal keys. *)
Ltac eval_key_tests :=
  repeat match goal with
         | |- context [key_in ?k ?l] =>
             let b := eval vm_compute in (key_in k l) in
             change (key_in k l) with b
         | |- context [bool_decide (?a = ?b)] =>
             let c := eval vm_compute in (bool_decide (a = b)) in
             change (bool_decide (a = b)) with c
         end.

(** X9: with the default key lists and tokenized labels, the batch that
    [collate_fn] builds from [Q] records of [num_choices] choices each is a
    well-formed multiple-choice batch of [Q] questions, and [split_batch]
    cuts it into as many microbatches as [Q] questions taken [m] at a time
    need. *)
Theorem collated_batch_splits
    (ds : dataset) (data : list tokenized_mc) (n : nat) (m : Z) :
  multi_choice (kind ds) = true ->
  standard_mc_keys ds ->
  tokenize_labels ds = true ->
  num_choices ds = Z.of_nat n ->
  (0 < n)%nat ->
  0 < m ->
  Forall (carries_choices n) data ->
  exists batch mbs,
    MultipleChoice_collate_fn ds data = Ok batch
    /\ mc_batch ds (length data) batch
    /\ split_batch ds batch (SzInt m) = Ok (PDict <$> mbs)
    /\ length mbs = n_chunks (Z.of_nat (length data)) m.
Proof.
  intros Hk (Hst & Hte & Hlt & Hltu & Hlp) Htl HN Hn Hm Hdata.
  assert (Hbatch : exists batch,
             MultipleChoice_collate_fn ds data = Ok batch
             /\ mc_batch ds (length data) batch).
  { unfold MultipleChoice_collate_fn.
    rewrite (collate_loop_ok n data base_lists Hdata).
    cbn [mbind result_bind base_lists b_input_ids b_continuation_indices
         b_labels b_gold_indices b_choice_groupings app length].
    eexists. split; [reflexivity|].
    unfold convert_tokens_to_tensors. rewrite Htl.
    cbn [b_input_ids b_continuation_indices b_labels b_gold_indices
         b_choice_groupings].
    set (rows := concat (tok_contexts <$> data)).
    set (spans := concat (tok_continuation_indices <$> data)).
    assert (Hrows : length rows = (n * length data)%nat)
      by apply (concat_contexts_length n data Hdata).
    assert (Hspans : length spans = (n * length data)%nat)
      by apply (concat_spans_length n data Hdata).
    assert (Hgold : _check_list_is_primitives (PInt <$> (tok_gold <$> data))
                    = true) by apply check_list_is_primitives_ints.
    split.
    { destruct (base_generation_kwargs ds);
        apply (bool_decide_unpack _); vm_compute; exact I. }
    split.
    { intros k v Hin.
      destruct (base_generation_kwargs ds) as [kw|];
        cbn [app dict_set String.eqb Ascii.eqb Bool.eqb] in Hin;
        repeat (apply elem_of_cons in Hin as [Heq|Hin];
                [injection Heq as -> ->;
                 unfold mc_entry_ok, mc_key_class;
                 rewrite ?Hst, ?Hte, ?Hlt, ?Hltu, ?Hlp; cbn [type_of];
                 eval_key_tests; cbv iota;
                 unfold attention_mask; cbn [tensor_len];
                 rewrite ?length_fmap, ?length_seq, ?Hrows, ?Hspans, ?HN;
                 first [exact I | lia | split; [reflexivity|exact Hgold]]|]);
        inversion Hin. }
    split; [rewrite Hst; reflexivity|].
    exists rows. destruct (base_generation_kwargs ds); reflexivity. }
  destruct Hbatch as (batch & Hcollate & Hwf).
  destruct (MultipleChoice_split_batch_lookup ds (length data) batch m)
    as (mbs & Hsplit & Hlen & _); [lia|exact Hm|exact Hwf|].
  exists batch, mbs. split; [exact Hcollate|]. split; [exact Hwf|].
  split; [|exact Hlen].
  unfold split_batch. destruct (kind ds); try discriminate;
    rewrite Hsplit; reflexivity.
Qed.

Lemma collated_batch_splits_witness :
  exists batch mbs,
    MultipleChoice_collate_fn (mc_dataset 2) two_questions = Ok batch
    /\ split_batch (mc_dataset 2) batch (SzInt 1) = Ok (PDict <$> mbs)
    /\ length mbs = 2%nat.
Proof.
  destruct (collated_batch_splits (mc_dataset 2) two_questions 2 1)
    as (batch & mbs & Hcollate & _ & Hsplit & Hlen).
  - reflexivity.
  - repeat split.
  - reflexivity.
  - reflexivity.
  - lia.
  - lia.
  - repeat constructor.
  - exists batch, mbs. split; [exact Hcollate|]. split; [exact Hsplit|].
    exact Hlen.
Defined.

(** ** Splitting a batch without token rows *)

(** The first loop stores nothing under a key whose entries it passes
    over. *)
Lemma split_loop_no_key entry (items : pydict) (chunked chunked' : chunks)
    (key : string) :
  (forall v c, (key, v) ∈ items -> entry key v <> Ok (Some c)) ->
  dict_get chunked key = None ->
  split_loop entry items chunked = Ok chunked' ->
  dict_get chunked' key = None.
Proof.
  revert chunked. induction items as [|[k v] items IH]; intros chunked Hpass Hnone.
  - cbn. intros [= <-]. exact Hnone.
  - cbn [split_loop]. destruct (entry k v) as [c|] eqn:He; [|discriminate].
    cbn [mbind result_bind]. apply IH.
    + intros v' c' Hin. apply Hpass. right. exact Hin.
    + destruct c as [c|]; [|exact Hnone].
      rewrite dict_get_set. destruct (String.eqb_spec key k) as [->|]; [|exact Hnone].
      exfalso. apply (Hpass v c); [left|exact He].
Qed.

Lemma split_loop_all_static entry (items : pydict) (chunked : chunks) :
  Forall (fun kv => entry kv.1 kv.2 = Ok None) items ->
  split_loop entry items chunked = Ok chunked.
Proof.
  induction 1 as [|[k v] items He _ IH]; [reflexivity|].
  cbn [split_loop]. cbn in He. rewrite He. exact IH.
Qed.

Lemma elem_of_dict_get {V} (d : list (string * V)) (k : string) (v : V) :
  (k, v) ∈ d -> dict_get d k <> None.
Proof.
  induction d as [|[k0 v0] d IH]; intros Hin; [inversion Hin|].
  cbn. destruct (String.eqb_spec k k0); [discriminate|].
  apply elem_of_cons in Hin as [[= -> ->]|Hin]; [contradiction|].
  apply IH, Hin.
Qed.

(** X10: in the classes with a per-key dispatch, a batch that has no
    ['input_ids'] entry, or whose ['input_ids'] is listed as static, is
    never split: [split_batch] raises for every microbatch size. When all
    the keys of the batch are static (the empty batch included) the
    exception is [KeyError('input_ids')]. *)
Theorem split_batch_needs_input_ids
    (ds : dataset) (batch : pydict) (size : mbsize) :
  dispatches_on_keys (kind ds) = true ->
  dict_get batch "input_ids" = None
  \/ key_in "input_ids" (static_keys ds) = true ->
  is_ok (split_batch ds batch size) = false
  /\ (forall n, size = SzInt n ->
      Forall (fun kv => key_in kv.1 (static_keys ds) = true) batch ->
      split_batch ds batch size = Raise (KeyError "input_ids")).
Proof.
  intros Hk Hids.
  assert (Hpass : forall n v c, ("input_ids", v) ∈ batch ->
            split_entry ds n "input_ids" v <> Ok (Some c)).
  { intros n v c Hin. destruct Hids as [Hnone|Hstatic].
    - exfalso. apply (elem_of_dict_get _ _ _ Hin Hnone).
    - unfold split_entry, MultipleChoice_split_entry,
        GenerationWithAnswers_split_entry.
      rewrite Hstatic. destruct (kind ds); discriminate. }
  split.
  - destruct size as [n|f]; [|unfold split_batch; destruct (kind ds); reflexivity].
    specialize (Hpass n). unfold split_entry in Hpass.
    unfold split_batch, MultipleChoice_split_batch,
      GenerationWithAnswers_split_batch.
    destruct (kind ds); try discriminate;
      (destruct (split_loop _ batch []) as [chunked|] eqn:Hloop;
       [|reflexivity]);
      apply (split_loop_no_key _ _ [] _ "input_ids" Hpass eq_refl) in Hloop;
      cbn [mbind result_bind fmap result_fmap]; unfold dict_getitem;
      rewrite Hloop; reflexivity.
  - intros n -> Hall.
    unfold split_batch, MultipleChoice_split_batch,
      GenerationWithAnswers_split_batch.
    destruct (kind ds); try discriminate;
      (rewrite split_loop_all_static;
       [reflexivity|
        eapply Forall_impl; [exact Hall|]; intros [k v] Hst; cbn in *;
        unfold MultipleChoice_split_entry, GenerationWithAnswers_split_entry;
        rewrite Hst; reflexivity]).
Qed.

Lemma split_batch_needs_input_ids_witness :
  is_ok (split_batch gen_dataset [("labels", PList [PStr "a"])] (SzInt 1))
  = false
  /\ split_batch (mc_dataset 2) [("mode", PStr "icl_task")] (SzInt 1)
     = Raise (KeyError "input_ids").
Proof.
  split.
  - apply (split_batch_needs_input_ids gen_dataset
             [("labels", PList [PStr "a"])] (SzInt 1));
      [reflexivity|left; reflexivity].
  - destruct (split_batch_needs_input_ids (mc_dataset 2)
                [("mode", PStr "icl_task")] (SzInt 1)) as [_ Hkey];
      [reflexivity|left; reflexivity|].
    apply (Hkey 1); [reflexivity|]. repeat constructor.
Defined.

(** ** Generation arguments *)

Lemma dict_update_lookup {V} (d new : list (string * V)) (k : string) :
  NoDup new.*1 ->
  dict_get (dict_update d new) k
  = match dict_get new k with
    | Some v => Some v
    | None => dict_get d k
    end.
Proof.
  unfold dict_update. revert d.
  induction new as [|[k0 v0] new IH]; intros d Hnodup; [reflexivity|].
  apply NoDup_cons in Hnodup as [Hfresh Hnodup].
  cbn [foldl fst snd dict_get]. rewrite (IH _ Hnodup), dict_get_set.
  destruct (String.eqb_spec k k0) as [->|Hne]; [|reflexivity].
  rewrite (dict_get_not_key new k0 Hfresh). reflexivity.
Qed.

(** X11: [update_generation_kwargs] with a non-empty argument leaves every
    other entry of [base_batch] as it was, and afterwards
    ['generation_kwargs'] holds a dict in which every passed key has the
    passed value and every other key keeps the value it had (none, if the
    entry did not exist). *)
Theorem update_generation_kwargs_lookup
    (base_batch generation_kwargs old : pydict) :
  NoDup generation_kwargs.*1 ->
  generation_kwargs <> [] ->
  dict_get base_batch "generation_kwargs" = Some (PDict old)
  \/ (dict_get base_batch "generation_kwargs" = None /\ old = []) ->
  exists base_batch' new,
    update_generation_kwargs base_batch generation_kwargs = Ok base_batch'
    /\ dict_get base_batch' "generation_kwargs" = Some (PDict new)
    /\ (forall k, dict_get new k
                  = match dict_get generation_kwargs k with
                    | Some v => Some v
                    | None => dict_get old k
                    end)
    /\ (forall k, k <> "generation_kwargs" ->
                  dict_get base_batch' k = dict_get base_batch k).
Proof.
  intros Hnodup Hne Hold. unfold update_generation_kwargs.
  destruct generation_kwargs as [|kv kw]; [contradiction|].
  set (new := dict_update old (kv :: kw)).
  destruct Hold as [Hold|[Hold ->]]; rewrite Hold; unfold dict_getitem;
    rewrite ?dict_get_set, ?Hold; cbn [String.eqb mbind result_bind];
    eexists _, new; (split; [reflexivity|]);
    (split; [rewrite !dict_get_set; reflexivity|]);
    (split; [intros k; apply dict_update_lookup, Hnodup|]);
    intros k Hk; rewrite !dict_get_set;
    rewrite (proj2 (String.eqb_neq _ _) Hk); reflexivity.
Qed.

Lemma update_generation_kwargs_lookup_witness :
  exists base_batch' new,
    update_generation_kwargs
      [("mode", PStr "generate");
       ("generation_kwargs", PDict [("num_beams", PInt 1)])]
      [("max_new_tokens", PInt 5)] = Ok base_batch'
    /\ dict_get base_batch' "generation_kwargs" = Some (PDict new)
    /\ dict_get new "max_new_tokens" = Some (PInt 5)
    /\ dict_get new "num_beams" = Some (PInt 1)
    /\ dict_get base_batch' "mode" = Some (PStr "generate").
Proof.
  destruct (update_generation_kwargs_lookup
              [("mode", PStr "generate");
               ("generation_kwargs", PDict [("num_beams", PInt 1)])]
              [("max_new_tokens", PInt 5)] [("num_beams", PInt 1)])
    as (base' & new & Hcall & Hget & Hnew & Hframe).
  - repeat constructor. intros Hin. inversion Hin.
  - discriminate.
  - left. reflexivity.
  - exists base', new. split; [exact Hcall|]. split; [exact Hget|].
    split; [apply (Hnew "max_new_tokens")|].
    split; [apply (Hnew "num_beams")|].
    apply (Hframe "mode"). discriminate.
Defined.

(** ** The answers of the generation dataset *)

(** X12: after [read_dataset], the answer that [get_answer_from_example]
    builds for any row of the dataset (chain of thought and delimiter
    included when the corpus has them) tokenizes to at most
    [max_answer_length] tokens, with the buffer of 10 to spare when
    [cot_delimiter] is non-empty; hence it also fits in [max_seq_len]. *)
Theorem read_dataset_answers_fit
    (tokenizer : string -> list Z) (self : gen_state) (loaded : corpus) :
  let st := (read_dataset tokenizer self loaded).1 in
  let dataset := (read_dataset tokenizer self loaded).2 in
  Forall (fun example =>
            Z.of_nat (length (tokenizer
              (GenerationWithAnswers_get_answer_from_example st example)))
            + (if String.eqb (cot_delimiter st) "" then 0 else 10)
            <= max_answer_length st
            /\ max_answer_length st <= max_seq_len st)
         dataset.
Proof.
  unfold read_dataset, _get_max_answer_length. cbn zeta.
  set (self' := {| max_seq_len := _ |}).
  set (raw := foldl _ 0 (map_example <$> rows loaded)).
  set (buffer := if 0 <? _ then _ else _).
  assert (Hbuffer : buffer = if String.eqb (cot_delimiter self) "" then 0 else 10).
  { subst buffer. cbn. rewrite string_length_zero.
    destruct (String.eqb _ ""); reflexivity. }
  pose proof (outer_max_fold
                (fun e => m_answer e :: m_aliases e)
                (fun e answer =>
                   Z.of_nat (length (tokenizer
                     (response self' (m_chain_of_thought e) answer))))
                (map_example <$> rows loaded) 0) as (_ & Hub & _).
  fold raw in Hub. cbn zeta in Hub.
  clearbody raw buffer. subst self'. cbn [max_seq_len warnings cot_delimiter].
  unfold GenerationWithAnswers_get_answer_from_example.
  destruct (Z.ltb_spec (max_seq_len self) (raw + buffer));
    cbn [fst snd max_answer_length max_seq_len has_cot cot_delimiter];
    rewrite <- Hbuffer; apply Forall_forall; intros example Hin;
    specialize (Hub example (m_answer example) Hin ltac:(left));
    unfold response in Hub; cbn [has_cot cot_delimiter] in Hub; lia.
Qed.

(** ** Microbatch splitting of generation batches *)

Lemma gen_entry_expect (ds : dataset) (R : nat) (n : Z) (k : string)
    (v : pyval) :
  0 < n -> gen_entry_ok ds R k v ->
  GenerationWithAnswers_split_entry ds n k v = Ok (gen_expect ds R n k v).
Proof.
  intros Hn. unfold gen_entry_ok, gen_expect, GenerationWithAnswers_split_entry.
  destruct (key_in k (static_keys ds)); [reflexivity|].
  destruct (key_in k (list_keys ds)).
  { destruct v as [| | | | | |l| |]; try contradiction. intros Hlen.
    rewrite (split_list_chunks (PList l) (Z.of_nat R) n)
      by (cbn; (reflexivity || lia || congruence)).
    reflexivity. }
  destruct (key_in k (tensor_keys ds)); [|contradiction].
  destruct v as [| | | | |t| | |]; try contradiction. intros Hlen.
  cbn [_default_split_batch]. rewrite split_tensor_chunks, Hlen by exact Hn.
  reflexivity.
Qed.

(** What the generation splitter returns on a well-formed batch: microbatch
    [i] holds the [i]-th chunk of every split entry and every static entry
    as it is. *)
Lemma GenerationWithAnswers_split_batch_lookup
    (ds : dataset) (R : nat) (batch : pydict) (n : Z) :
  0 < n -> gen_batch ds R batch ->
  exists mbs,
    GenerationWithAnswers_split_batch ds batch (SzInt n) = Ok mbs
    /\ length mbs = n_chunks (Z.of_nat R) n
    /\ forall i mb, mbs !! i = Some mb ->
         forall k v, dict_get batch k = Some v ->
           dict_get mb k
           = Some (if key_in k (static_keys ds) then v
                   else chunk_of (Z.to_nat n) i v).
Proof.
  intros Hn (Hnodup & Hentries & Hids_static & rows & Hids).
  set (C := n_chunks (Z.of_nat R) n).
  unfold GenerationWithAnswers_split_batch.
  destruct (split_loop_lookup batch Hnodup
              (GenerationWithAnswers_split_entry ds n) (gen_expect ds R n) [])
    as (chunked & -> & Hget & Hall).
  { intros k v Hin. apply gen_entry_expect; auto. }
  cbn [mbind result_bind].
  assert (Hlen : Forall (fun kc : string * list pyval => length kc.2 = C)
                        chunked).
  { apply Hall; [constructor|]. intros k v c _. unfold gen_expect.
    destruct (key_in k (static_keys ds)); intros [= <-]; cbn [snd].
    rewrite length_fmap, length_seq. reflexivity. }
  unfold dict_getitem. rewrite Hget, Hids. cbn [mbind option_bind].
  unfold gen_expect at 1. rewrite Hids_static. cbn [mbind result_bind].
  rewrite length_fmap, length_seq. fold C.
  destruct (broadcast_static_lookup batch Hnodup (static_keys ds) C chunked)
    as [Hbget Hball].
  destruct (assemble_lookup
              (broadcast_static (static_keys ds) C batch chunked) C)
    as (mbs & -> & Hmbs_len & Hmbs).
  { apply Hball; [exact Hlen|]. intros k v _. cbn [snd].
    apply length_replicate. }
  exists mbs. split; [reflexivity|]. split; [exact Hmbs_len|].
  intros i mb Hmb k v Hk.
  assert (Hi : (i < C)%nat)
    by (rewrite <- Hmbs_len; apply (lookup_lt_Some _ _ _ Hmb)).
  rewrite (Hmbs i mb Hmb k), Hbget, Hget, Hk. cbn [mbind option_bind].
  unfold gen_expect. destruct (key_in k (static_keys ds)) eqn:Hst; cbn.
  - apply replicate_lookup_lt, Hi.
  - subst C. rewrite list_lookup_fmap,
      (proj2 (lookup_seq 0 _ i i) (conj eq_refl Hi)). reflexivity.
Qed.

(** X13: on a generation batch of [R] rows and for a positive microbatch
    size [n], [split_batch] returns as many microbatches as [R] rows taken
    [n] at a time need, such that (1) for every tensor key the rows of the
    microbatches, concatenated in order, are the rows of the batch, at most
    [n] per microbatch; (2) every list key is cut into consecutive parts
    that concatenate back, each part as long as its microbatch has rows of
    [input_ids]; (3) every static entry is in every microbatch unchanged. *)
Theorem GenerationWithAnswers_split_batch_partitions
    (ds : dataset) (batch : pydict) (n : Z) (R : nat) :
  kind ds = GenerationWithAnswers ->
  0 < n ->
  gen_batch ds R batch ->
  exists mbs : list pydict,
    split_batch ds batch (SzInt n) = Ok (PDict <$> mbs)
    /\ length mbs = n_chunks (Z.of_nat R) n
    /\ (forall k rows,
          dict_get batch k = Some (PTensor (T2 rows)) ->
          key_in k (static_keys ds) = false ->
          exists parts,
            rows_at k <$> mbs = Some <$> parts
            /\ concat parts = rows
            /\ Forall (fun part => Z.of_nat (length part) <= n) parts)
    /\ (forall k l,
          dict_get batch k = Some (PList l) ->
          key_in k (static_keys ds) = false ->
          exists parts,
            items_at k <$> mbs = Some <$> parts
            /\ concat parts = l
            /\ forall i part rows,
                 parts !! i = Some part ->
                 mbs !! i ≫= rows_at "input_ids" = Some rows ->
                 length rows = length part)
    /\ (forall k v,
          dict_get batch k = Some v ->
          key_in k (static_keys ds) = true ->
          Forall (fun mb => dict_get mb k = Some v) mbs).
Proof.
  intros Hkind Hn Hbatch.
  destruct (GenerationWithAnswers_split_batch_lookup ds R batch n Hn Hbatch)
    as (mbs & Hsplit & Hlen & Hget).
  destruct Hbatch as (Hnodup & Hentries & Hids_static & rows0 & Hids).
  set (C := n_chunks (Z.of_nat R) n) in *.
  set (n' := Z.to_nat n).
  assert (HC : (R <= C * n')%nat).
  { pose proof (n_chunks_covers (Z.of_nat R) n Hn ltac:(lia)) as Hcov.
    fold C in Hcov. subst n'. nia. }
  assert (Hlen_of : forall k v, dict_get batch k = Some v ->
            key_in k (static_keys ds) = false ->
            match v with
            | PList l => length l = R
            | PTensor t => tensor_len t = Z.of_nat R
            | _ => False
            end).
  { intros k v Hk Hst.
    pose proof (Hentries _ _ (dict_get_elem_of _ _ _ Hk)) as Hok.
    unfold gen_entry_ok in Hok. rewrite Hst in Hok.
    destruct (key_in k (list_keys ds)).
    - destruct v; try contradiction. exact Hok.
    - destruct (key_in k (tensor_keys ds)); [|contradiction].
      destruct v; try contradiction. exact Hok. }
  exists mbs. split.
  { unfold split_batch. rewrite Hkind, Hsplit. reflexivity. }
  split; [exact Hlen|]. split; [|split].
  - intros k rows Hk Hst. pose proof (Hlen_of _ _ Hk Hst) as Hrows.
    cbn [tensor_len] in Hrows.
    exists ((fun i => chunk n' i rows) <$> seq 0 C). split; [|split].
    + rewrite <- list_fmap_compose, <- Hlen. apply fmap_lookup_seq.
      intros i mb Hmb. unfold rows_at. rewrite (Hget i mb Hmb _ _ Hk), Hst.
      reflexivity.
    + apply concat_chunks. apply Nat2Z.inj in Hrows. rewrite Hrows. exact HC.
    + apply Forall_forall. intros part Hpart.
      apply list_elem_of_fmap in Hpart as (i & -> & _).
      rewrite length_chunk. subst n'. lia.
  - intros k l Hk Hst. pose proof (Hlen_of _ _ Hk Hst) as Hl.
    exists ((fun i => chunk n' i l) <$> seq 0 C). split; [|split].
    + rewrite <- list_fmap_compose, <- Hlen. apply fmap_lookup_seq.
      intros i mb Hmb. unfold items_at. rewrite (Hget i mb Hmb _ _ Hk), Hst.
      reflexivity.
    + apply concat_chunks. rewrite Hl. exact HC.
    + intros i part rows Hpart Hrows.
      rewrite list_lookup_fmap in Hpart.
      destruct (seq 0 C !! i) as [i'|] eqn:Hseq; [|discriminate].
      apply lookup_seq in Hseq as [-> Hi]. injection Hpart as <-.
      destruct (mbs !! i) as [mb|] eqn:Hmb; [|discriminate].
      cbn in Hrows. unfold rows_at in Hrows.
      rewrite (Hget i mb Hmb _ _ Hids), Hids_static in Hrows.
      injection Hrows as <-.
      pose proof (Hlen_of _ _ Hids Hids_static) as Hrows0.
      cbn [tensor_len] in Hrows0. apply Nat2Z.inj in Hrows0.
      rewrite !length_chunk, Hrows0, Hl. reflexivity.
  - intros k v Hk Hst. apply Forall_lookup. intros i mb Hmb.
    rewrite (Hget i mb Hmb _ _ Hk), Hst. reflexivity.
Qed.

Lemma GenerationWithAnswers_split_batch_partitions_witness :
  exists mbs parts,
    split_batch gen_dataset three_prompts_batch (SzInt 2) = Ok (PDict <$> mbs)
    /\ length mbs = 2%nat
    /\ items_at "labels" <$> mbs = Some <$> parts
    /\ concat parts = [PList [PStr "a"]; PList [PStr "b"]; PList [PStr "c"]].
Proof.
  destruct (GenerationWithAnswers_split_batch_partitions gen_dataset
              three_prompts_batch 2 3)
    as (mbs & Hsplit & Hlen & _ & Hlist & _).
  - reflexivity.
  - lia.
  - split; [|split; [|split]].
    + apply (bool_decide_unpack _). vm_compute. exact I.
    + intros k v Hin. unfold three_prompts_batch in Hin.
      repeat (apply elem_of_cons in Hin as [Heq|Hin];
              [injection Heq as -> ->; vm_compute; auto|]).
      inversion Hin.
    + reflexivity.
    + eexists. reflexivity.
  - destruct (Hlist "labels" _ eq_refl eq_refl) as (parts & Hparts & Hconcat & _).
    exists mbs, parts. split; [exact Hsplit|]. split; [exact Hlen|].
    split; assumption.
Defined.

(** ** Replication and batch size *)

(** [_validate_cfg] touches only the two override flags and
    [max_seq_len]. *)
Lemma validate_cfg_frame (int_of_str : string -> result Z)
    (cfg : gmap string cfgval) (tok_eos tok_bos : option Z) (st : validated)
    (key : string) :
  _validate_cfg int_of_str cfg tok_eos tok_bos = Ok st ->
  key <> eos_flag -> key <> bos_flag -> key <> "max_seq_len" ->
  cfg_out st !! key = cfg !! key.
Proof.
  unfold _validate_cfg. fold eos_flag bos_flag. intros Hres He Hb Hm.
  destruct (check_token_id "eos_token_id" eos_flag _ _ _) as [st1|] eqn:H1;
    [|discriminate].
  apply check_token_id_ok in H1 as [Hcfg1 _]. cbn [cfg_out] in Hcfg1.
  cbn [mbind result_bind] in Hres.
  destruct (check_token_id "bos_token_id" bos_flag _ _ st1) as [st2|] eqn:H2;
    [|discriminate].
  apply check_token_id_ok in H2 as [Hcfg2 _].
  cbn [mbind result_bind] in Hres.
  assert (Hst2 : cfg_out st2 !! key = cfg !! key).
  { rewrite Hcfg2.
    destruct (token_id_mismatch _ "bos_token_id" tok_bos); rewrite Hcfg1;
      destruct (token_id_mismatch cfg "eos_token_id" tok_eos);
      rewrite ?lookup_delete_ne by congruence; reflexivity. }
  rewrite <- Hst2.
  destruct (is_not_none _); [|injection Hres as <-; reflexivity].
  destruct (py_int int_of_str _) as [i|]; [|discriminate].
  cbn [mbind result_bind] in Hres.
  destruct (ne_int _ i); [discriminate|]. injection Hres as <-.
  cbn [cfg_out]. rewrite lookup_insert_ne by congruence. reflexivity.
Qed.

(** X14: when [validate_ds_replication] returns, [_validate_cfg] has
    accepted the config, the device batch size is returned as given and is
    an int, the replication returned is the config's ['replication'] when
    that is truthy and 1 otherwise (so never 0 or [None]), and the config
    does not ask for a sequence-parallel replication above 1. *)
Theorem validate_ds_replication_returns
    (int_of_str : string -> result Z) (cfg : gmap string cfgval)
    (tok_eos tok_bos : option Z) (device_batch_size : cfgval)
    (st : validated) (replication size : cfgval) :
  validate_ds_replication int_of_str cfg tok_eos tok_bos device_batch_size
  = Ok (st, (replication, size)) ->
  _validate_cfg int_of_str cfg tok_eos tok_bos = Ok st
  /\ size = device_batch_size
  /\ is_int size = true
  /\ replication = py_or (default (CInt 1) (cfg !! "replication")) (CInt 1)
  /\ truthy replication = true
  /\ gt_int (py_or (default (CInt 1) (cfg !! "seq_parallel_replication"))
                   (CInt 1)) 1 = Ok false.
Proof.
  unfold validate_ds_replication.
  destruct (_validate_cfg int_of_str cfg tok_eos tok_bos) as [st'|] eqn:Hv;
    [|discriminate].
  cbn [mbind result_bind].
  rewrite !(validate_cfg_frame _ _ _ _ _ _ Hv) by discriminate.
  destruct (gt_int _ 1) as [[]|] eqn:Hgt; try discriminate.
  cbn [mbind result_bind].
  destruct (is_int device_batch_size) eqn:Hint; [|discriminate].
  cbn [negb]. intros [= <- <- <-].
  repeat split; try assumption.
  unfold py_or.
  destruct (truthy (default (CInt 1) (cfg !! "replication"))) eqn:Ht;
    [exact Ht|reflexivity].
Qed.

Lemma validate_ds_replication_returns_witness :
  exists st,
    validate_ds_replication digits_only
      (<["replication" := CInt 0]> cfg_overridden) (Some 2) (Some 1) (CInt 8)
    = Ok (st, (CInt 1, CInt 8))
    /\ _validate_cfg digits_only (<["replication" := CInt 0]> cfg_overridden)
         (Some 2) (Some 1) = Ok st.
Proof.
  destruct (validate_ds_replication digits_only
              (<["replication" := CInt 0]> cfg_overridden) (Some 2) (Some 1)
              (CInt 8)) as [[st [r s]]|e] eqn:Hv; [|vm_compute in Hv; discriminate].
  destruct (validate_ds_replication_returns _ _ _ _ _ _ _ _ Hv)
    as (Hcfg & -> & _ & -> & _).
  exists st. split; [reflexivity|exact Hcfg].
Defined.

(** X15: a config that asks for a sequence-parallel replication above 1 is
    never accepted, whatever the device batch size; unless [_validate_cfg]
    itself rejects the config, the exception is [NotImplementedError], also
    when the device batch size is not an int. *)
Theorem validate_ds_replication_sequence_parallel
    (int_of_str : string -> result Z) (cfg : gmap string cfgval)
    (tok_eos tok_bos : option Z) (device_batch_size : cfgval) (z : Z) :
  cfg !! "seq_parallel_replication" = Some (CInt z) ->
  1 < z ->
  is_ok (validate_ds_replication int_of_str cfg tok_eos tok_bos
           device_batch_size) = false
  /\ (is_ok (_validate_cfg int_of_str cfg tok_eos tok_bos) = true ->
      validate_ds_replication int_of_str cfg tok_eos tok_bos device_batch_size
      = Raise NotImplementedError).
Proof.
  intros Hkey Hz. unfold validate_ds_replication.
  destruct (_validate_cfg int_of_str cfg tok_eos tok_bos) as [st|] eqn:Hv;
    [|split; [reflexivity|discriminate]].
  cbn [mbind result_bind].
  rewrite (validate_cfg_frame _ _ _ _ _ "seq_parallel_replication" Hv)
    by discriminate.
  rewrite Hkey. unfold py_or.
  change (default (CInt 1) (Some (CInt z))) with (CInt z). cbn [truthy].
  destruct (Z.eqb_spec z 0); [lia|]. cbn [negb gt_int].
  destruct (Z.ltb_spec 1 z); [|lia]. split; reflexivity.
Qed.

Lemma validate_ds_replication_sequence_parallel_witness :
  validate_ds_replication digits_only
    (<["seq_parallel_replication" := CInt 2]> cfg_overridden)
    (Some 2) (Some 1) (CFloat two_and_a_half)
  = Raise NotImplementedError.
Proof.
  apply (validate_ds_replication_sequence_parallel digits_only
           (<["seq_parallel_replication" := CInt 2]> cfg_overridden)
           (Some 2) (Some 1) (CFloat two_and_a_half) 2);
    [reflexivity | lia | reflexivity].
Defined.

(** ** Counting the tokens of a batch *)

Lemma py_sum_ints (l : list Z) : py_sum (PList (PInt <$> l)) = Ok (sum_Z l).
Proof.
  unfold py_sum.
  assert (H : forall a,
            foldl (fun acc item =>
                     a ← acc;
                     match item with
                     | PInt z => Ok (a + z)
                     | PBool b => Ok (a + Z.b2z b)
                     | _ => Raise TypeError
                     end) (Ok a) (PInt <$> l) = Ok (a + sum_Z l)).
  { induction l as [|z l IH]; intros a; cbn; [f_equal; lia|].
    rewrite IH. f_equal. unfold sum_Z. lia. }
  rewrite H. reflexivity.
Qed.

(** A measure of row lists that adds up over concatenation adds up over the
    rows taken one at a time. *)
Lemma sum_over_rows {A} (g : list A -> Z) (l : list A) (R : nat) :
  g [] = 0 -> (forall a b, g (a ++ b) = g a + g b) -> length l = R ->
  sum_Z ((fun r : nat => g (slice l (Z.of_nat r) (Z.of_nat r + 1)))
           <$> seq 0 R) = g l.
Proof.
  intros Hnil Happ Hlen.
  assert (Hparts : forall parts : list (list A),
            sum_Z (g <$> parts) = g (concat parts)).
  { induction parts as [|p parts IH]; cbn; [symmetry; exact Hnil|].
    rewrite Happ. unfold sum_Z in IH. rewrite IH. reflexivity. }
  transitivity (g (concat ((fun i => chunk 1 i l) <$> seq 0 R)));
    [|rewrite concat_chunks by lia; reflexivity].
  rewrite <- Hparts, <- list_fmap_compose.
  f_equal. apply list_fmap_ext. intros _ r _. cbn. f_equal.
  unfold slice, chunk. rewrite Nat2Z.id, Nat.mul_1_r. f_equal. lia.
Qed.

Lemma count_ignored_app (ignore_index : Z) (a b : list (list Z)) :
  count_ignored ignore_index (a ++ b)
  = count_ignored ignore_index a + count_ignored ignore_index b.
Proof. unfold count_ignored. rewrite fmap_app. apply sum_Z_app. Qed.

(** On rows of one width, the loss-generating count is the number of
    positions after the first column, less the ignored ones. *)
Lemma loss_generating_dense (ignore_index : Z) (rows : list (list Z))
    (width : nat) :
  Forall (fun row => length row = width) rows ->
  loss_generating_of ignore_index (PTensor (T2 rows))
  = Ok (Z.of_nat (length rows) * (Z.of_nat width - 1)
        - count_ignored ignore_index rows).
Proof.
  intros Hdense. cbn [loss_generating_of]. f_equal.
  destruct Hdense as [|row rows Hrow _]; [reflexivity|].
  change (default [] (head (row :: rows))) with row. rewrite Hrow.
  reflexivity.
Qed.

(** The same for a part of the rows, with the width read off the whole
    tensor. *)
Lemma loss_generating_part (ignore_index : Z) (labels part : list (list Z))
    (width : nat) :
  Forall (fun row => length row = width) labels ->
  Forall (fun row => length row = width) part ->
  (labels = [] -> part = []) ->
  loss_generating_of ignore_index (PTensor (T2 part))
  = Ok (Z.of_nat (length part)
        * (Z.of_nat (length (default [] (head labels))) - 1)
        - count_ignored ignore_index part).
Proof.
  intros Hlabels Hpart Hempty.
  rewrite (loss_generating_dense ignore_index part width Hpart). f_equal.
  destruct Hlabels as [|row labels Hrow _].
  - rewrite (Hempty eq_refl). reflexivity.
  - change (default [] (head (row :: labels))) with row. rewrite Hrow.
    reflexivity.
Qed.

Lemma slice_nil {A} (start stop : Z) : slice (@nil A) start stop = [].
Proof. unfold slice. rewrite drop_nil. apply take_nil. Qed.

Lemma slice_dense {A} (l : list (list A)) (width : nat) (start stop : Z) :
  Forall (fun row => length row = width) l ->
  Forall (fun row => length row = width) (slice l start stop).
Proof. intros H. unfold slice. apply Forall_take, Forall_drop, H. Qed.

Section TokenBatchFacts.

Variable ignore_index : Z.
Variable batch : gmap string pyval.
Variable R : nat.
Hypothesis batch_ok : token_batch R batch.

Lemma token_batch_tensors (key : string) (v : pyval) :
  key ∈ _token_count_batch_keys -> batch !! key = Some v ->
  exists t, v = PTensor t.
Proof.
  destruct batch_ok as ((ids & Hids & _) & Hmask & Hlabels & Hdec).
  unfold _token_count_batch_keys. intros Hkey Hv.
  repeat (apply elem_of_cons in Hkey as [->|Hkey]);
    [| | | |inversion Hkey]; rewrite Hv in *.
  - injection Hids as ->. eauto.
  - destruct v as [| | | | |t| | |]; try contradiction. eauto.
  - destruct v as [| | | | |t| | |]; try contradiction. eauto.
  - destruct v as [| | | | |t| | |]; try contradiction. eauto.
Qed.

(** The one-row batch holds the row of every token tensor and nothing
    else. *)
Lemma the_row_batch_lookup (row : nat) (key : string) :
  the_row_batch batch row !! key = row_entry batch (Z.of_nat row) key.
Proof.
  unfold the_row_batch.
  destruct (row_batch_ok batch token_batch_tensors (Z.of_nat row))
    as (rb & -> & Hrb).
  apply Hrb.
Qed.

Lemma count_one_row (row : nat) :
  get_num_tokens_in_batch ignore_index true (the_row_batch batch row)
  = Ok (count_on ignore_index batch
          (fun rows => slice rows (Z.of_nat row) (Z.of_nat row + 1))).
Proof.
  destruct batch_ok as ((ids & Hids & _) & Hmask & Hlabels & _).
  unfold get_num_tokens_in_batch, count_on.
  rewrite !the_row_batch_lookup. unfold row_entry.
  repeat match goal with
         | |- context [bool_decide (?k ∈ _token_count_batch_keys)] =>
             let b := eval vm_compute in
                        (bool_decide (k ∈ _token_count_batch_keys)) in
             change (bool_decide (k ∈ _token_count_batch_keys)) with b
         end.
  cbv iota. rewrite Hids.
  destruct (batch !! "attention_mask") as [[| | | | |[|mask]| | |]|];
    try contradiction;
    (destruct (batch !! "labels") as [[| | | | |[|labels]| | |]|];
     try contradiction);
    rewrite ?(bool_decide_eq_false_2 (Some _ = None)) by discriminate;
    rewrite ?(bool_decide_eq_true_2 (None = None)) by reflexivity;
    cbn [negb andb tensor_row torch_sum numel entries mbind result_bind
         fmap result_fmap];
    try (destruct Hlabels as (_ & width & Hdense);
         rewrite (loss_generating_part ignore_index labels _ width Hdense)
           by first [apply slice_dense; exact Hdense
                    |intros ->; apply slice_nil];
         cbn [fmap result_fmap mbind result_bind]);
    rewrite Z.add_0_r; reflexivity.
Qed.

(** The whole batch, counted directly. *)
Lemma count_whole_batch :
  batch !! "total_tokens" = None \/ batch !! "loss_generating_tokens" = None ->
  get_num_tokens_in_batch ignore_index true batch
  = Ok (count_on ignore_index batch id).
Proof.
  intros Hfresh.
  destruct batch_ok as ((ids & Hids & _) & Hmask & Hlabels & _).
  unfold get_num_tokens_in_batch, count_on. rewrite Hids.
  destruct Hfresh as [Hf|Hf]; rewrite Hf;
    [|destruct (batch !! "total_tokens")];
    (destruct (batch !! "attention_mask") as [[| | | | |[|mask]| | |]|];
     try contradiction);
    (destruct (batch !! "labels") as [[| | | | |[|labels]| | |]|];
     try contradiction);
    rewrite ?(bool_decide_eq_false_2 (Some _ = None)) by discriminate;
    rewrite ?(bool_decide_eq_true_2 (None = None)) by reflexivity;
    cbn [negb andb torch_sum numel entries mbind result_bind
         fmap result_fmap];
    try (destruct Hlabels as (_ & width & Hdense);
         rewrite (loss_generating_part ignore_index labels _ width Hdense)
           by first [exact Hdense|intros ->; reflexivity];
         cbn [fmap result_fmap mbind result_bind]);
    rewrite Z.add_0_r; reflexivity.
Qed.

(** The counts of the rows add up to the count of the batch. *)
Lemma count_rows_add_up :
  sum_Z ((fun row : nat =>
            count_total
              (count_on ignore_index batch
                 (fun rows => slice rows (Z.of_nat row) (Z.of_nat row + 1))))
           <$> seq 0 R)
  = count_total (count_on ignore_index batch id)
  /\ sum_Z ((fun row : nat =>
               count_loss_generating
                 (count_on ignore_index batch
                    (fun rows => slice rows (Z.of_nat row) (Z.of_nat row + 1))))
              <$> seq 0 R)
     = count_loss_generating (count_on ignore_index batch id).
Proof.
  destruct batch_ok as ((ids & Hids & Hlen) & Hmask & Hlabels & _).
  unfold count_on. rewrite Hids.
  destruct (batch !! "attention_mask") as [[| | | | |[|mask]| | |]|];
    try contradiction;
    (destruct (batch !! "labels") as [[| | | | |[|labels]| | |]|];
     try contradiction);
    cbn [count_total count_loss_generating id];
    try apply proj1 in Hlabels;
    split;
    first
      [ apply (sum_over_rows (fun rows => sum_Z (concat rows)));
        [reflexivity
        |intros a b; rewrite concat_app; apply sum_Z_app
        |assumption]
      | apply (sum_over_rows
                 (fun rows : list (list Z) => Z.of_nat (length (concat rows))));
        [reflexivity
        |intros a b; rewrite concat_app, length_app; lia
        |assumption]
      | apply (sum_over_rows
                 (fun rows : list (list Z) =>
                    Z.of_nat (length rows)
                    * (Z.of_nat (length (default [] (head labels))) - 1)
                    - count_ignored ignore_index rows));
        [reflexivity
        |intros a b; rewrite length_app, count_ignored_app; lia
        |assumption] ].
Qed.

End TokenBatchFacts.

(** X16: for a base batch of [R] token rows that does not yet carry both
    count lists, the wrapper built with [get_tokens_per_batch_func()]
    counts every row without an exception, and the counting function then
    finds on the wrapped batch, through its short cut, the same total and
    the same loss-generating count that it finds on the base batch
    directly (an int count standing for both numbers). *)
Theorem wrapper_counts_add_up {Example : Type}
    (base_collator : list Example -> gmap string pyval)
    (ignore_index : Z) (examples : list Example) (R : nat) :
  let batch := base_collator examples in
  let count := get_num_tokens_in_batch ignore_index true in
  token_batch R batch ->
  batch !! "total_tokens" = None \/ batch !! "loss_generating_tokens" = None ->
  exists out c,
    __call__ base_collator (counting_func ignore_index) examples = Ok out
    /\ Forall (fun row => is_ok (count (the_row_batch batch row)) = true)
              (seq 0 R)
    /\ count batch = Ok c
    /\ count out = Ok (CountDict (count_total c) (count_loss_generating c)).
Proof.
  intros batch count Hbatch Hfresh.
  pose proof Hbatch as ((ids & Hids & Hlen) & Hmask & _).
  pose proof (token_batch_tensors batch R Hbatch) as Htensors.
  destruct (count_rows_add_up ignore_index batch R Hbatch) as [Htotal Hloss].
  assert (Hrow : forall row,
            counting_func ignore_index (the_row_batch batch row)
            = count_on ignore_index batch
                (fun rows => slice rows (Z.of_nat row) (Z.of_nat row + 1))).
  { intros row. unfold counting_func.
    rewrite (count_one_row ignore_index batch R Hbatch). reflexivity. }
  eexists. exists (count_on ignore_index batch id). split.
  { unfold __call__. fold batch. rewrite Hids. cbn [mbind result_bind shape0
                                                    tensor_len].
    unfold count_rows. rewrite Nat2Z.id, Hlen.
    rewrite (count_rows_loop batch Htensors (counting_func ignore_index)).
    cbn [mbind result_bind total_tokens loss_generating_tokens app].
    reflexivity. }
  split.
  { apply Forall_forall. intros row _. unfold count.
    rewrite (count_one_row ignore_index batch R Hbatch). reflexivity. }
  split; [apply (count_whole_batch ignore_index batch R Hbatch Hfresh)|].
  unfold count, get_num_tokens_in_batch.
  rewrite !lookup_insert_eq.
  rewrite !(lookup_insert_ne _ "loss_generating_tokens") by discriminate.
  rewrite !lookup_insert_eq.
  rewrite !(lookup_insert_ne _ "total_tokens") by discriminate.
  rewrite Hids.
  rewrite (bool_decide_eq_false_2 (Some _ = None)) by discriminate.
  rewrite andb_false_r. cbn [negb andb].
  rewrite !py_sum_ints. cbn [mbind result_bind].
  rewrite <- Htotal, <- Hloss. do 2 f_equal;
    f_equal; apply list_fmap_ext; intros _ row _; rewrite Hrow; reflexivity.
Qed.

Lemma wrapper_counts_add_up_witness :
  exists out,
    __call__ labelled_collator (counting_func (-100))
      [([1; 2; 0], [-100; 2; -100]); ([4; 5; 6], [-100; 5; 6])] = Ok out
    /\ get_num_tokens_in_batch (-100) true out = Ok (CountDict 5 3).
Proof.
  destruct (wrapper_counts_add_up labelled_collator (-100)
              [([1; 2; 0], [-100; 2; -100]); ([4; 5; 6], [-100; 5; 6])] 2)
    as (out & c & Hcall & _ & Hc & Hout).
  - split; [eexists; split; reflexivity|].
    split; [reflexivity|]. split; [|exact I].
    split; [reflexivity|]. exists 3%nat. repeat constructor.
  - left. reflexivity.
  - exists out. split; [exact Hcall|].
    vm_compute in Hc. injection Hc as <-. exact Hout.
Defined.

Lemma count_ignored_complement (ignore_index : Z) (rows : list (list Z))
    (width : nat) :
  Forall (fun row => length row = width) rows ->
  (0 < width)%nat ->
  Z.of_nat (length rows) * (Z.of_nat width - 1)
  - count_ignored ignore_index rows
  = loss_positions ignore_index rows
  /\ 0 <= loss_positions ignore_index rows
     <= Z.of_nat (length rows) * (Z.of_nat width - 1).
Proof.
  intros Hdense Hwidth. unfold count_ignored, loss_positions, sum_Z.
  induction Hdense as [|row rows Hrow _ IH]; [cbn; lia|].
  cbn [fmap list_fmap foldr length].
  pose proof (filter_app_complement (fun tok => tok = ignore_index)
                (drop 1 row)) as Hperm.
  apply Permutation_length in Hperm.
  rewrite length_app, length_drop, Hrow in Hperm.
  destruct IH as [IH1 IH2]. fold (@fmap list _) in *. split; nia.
Qed.

(** X17: on a batch of [R] token rows whose labels are [width >= 1] wide,
    the loss-generating count that [get_num_tokens_in_batch] returns is the
    number of label positions after the first column that do not hold the
    ignore index; it lies between 0 and [R * (width - 1)]. *)
Theorem loss_generating_counts_targets
    (ignore_index : Z) (batch : gmap string pyval) (R width : nat)
    (labels : list (list Z)) :
  token_batch R batch ->
  batch !! "total_tokens" = None \/ batch !! "loss_generating_tokens" = None ->
  batch !! "labels" = Some (PTensor (T2 labels)) ->
  Forall (fun row => length row = width) labels ->
  (0 < width)%nat ->
  exists total loss,
    get_num_tokens_in_batch ignore_index true batch
    = Ok (CountDict total loss)
    /\ loss = loss_positions ignore_index labels
    /\ 0 <= loss <= Z.of_nat R * (Z.of_nat width - 1).
Proof.
  intros Hbatch Hfresh Hlabels Hdense Hwidth.
  rewrite (count_whole_batch ignore_index batch R Hbatch Hfresh).
  destruct Hbatch as (_ & _ & Hrows & _). rewrite Hlabels in Hrows.
  destruct Hrows as [Hrows _].
  unfold count_on. rewrite Hlabels. cbn [id].
  destruct (count_ignored_complement ignore_index labels width Hdense Hwidth)
    as [Heq Hbound].
  eexists _, _. split; [reflexivity|].
  assert (Hw : Z.of_nat (length (default [] (head labels))) = Z.of_nat width
               \/ labels = []).
  { destruct Hdense as [|row rows Hrow _]; [right; reflexivity|].
    left. change (default [] (head (row :: rows))) with row.
    rewrite Hrow. reflexivity. }
  destruct Hw as [-> | ->].
  - rewrite Heq, <- Hrows. split; [reflexivity|exact Hbound].
  - cbn in *. subst R. split; [reflexivity|lia].
Qed.

Lemma loss_generating_counts_targets_witness :
  exists total,
    get_num_tokens_in_batch (-100) true
      (labelled_collator
         [([1; 2; 0], [-100; 2; -100]); ([4; 5; 6], [-100; 5; 6])])
    = Ok (CountDict total 3).
Proof.
  destruct (loss_generating_counts_targets (-100)
              (labelled_collator
                 [([1; 2; 0], [-100; 2; -100]); ([4; 5; 6], [-100; 5; 6])])
              2 3 [[-100; 2; -100]; [-100; 5; 6]])
    as (total & loss & Hcount & -> & _).
  - split; [eexists; split; reflexivity|].
    split; [reflexivity|]. split; [|exact I].
    split; [reflexivity|]. exists 3%nat. repeat constructor.
  - left. reflexivity.
  - reflexivity.
  - repeat constructor.
  - lia.
  - exists total. exact Hcount.
Defined.

(** ** Prompt construction *)

Lemma string_app_cons (x : Ascii.ascii) (a b : string) :
  String x a +:+ b = String x (a +:+ b).
Proof. reflexivity. Qed.

Lemma string_app_assoc (a b c : string) : (a +:+ b) +:+ c = a +:+ (b +:+ c).
Proof.
  induction a as [|x a IH]; [reflexivity|].
  rewrite !string_app_cons, IH. reflexivity.
Qed.

Lemma string_app_nil_r (a : string) : a +:+ "" = a.
Proof.
  induction a as [|x a IH]; [reflexivity|].
  rewrite string_app_cons, IH. reflexivity.
Qed.

Lemma nonempty_true (s : string) : s <> "" -> nonempty s = true.
Proof. destruct s; [congruence|reflexivity]. Qed.

Lemma string_app_nonempty (a b : string) : a <> "" -> a +:+ b <> "".
Proof. destruct a; [congruence|discriminate]. Qed.

Lemma string_prefix_app (a b : string) : String.prefix a (a +:+ b) = true.
Proof.
  induction a as [|x a IH]; [destruct b; reflexivity|].
  rewrite string_app_cons. cbn [String.prefix].
  destruct (Ascii.ascii_dec x x); [exact IH|congruence].
Qed.

Section PromptFacts.

Context {Example : Type}.
Variable self : prompt_attrs.
Variable context_of : Example -> string.
Variable get_answer_from_example : Example -> bool -> string.
Variable dataset : list Example.

(** The loop over the sampled indices, from any text. *)
Lemma few_shot_loop (idxs : list nat) (shots : list Example) (text : string) :
  Forall2 (fun idx shot => dataset !! idx = Some shot) idxs shots ->
  exists rest,
    foldl (fun acc fewshot_idx =>
             few_shot_text ← acc;
             shot ← getitem dataset fewshot_idx;
             let ctxt :=
               construct_context self context_of get_answer_from_example
                 shot few_shot_text true in
             Ok (few_shot_text +:+ ctxt))
          (Ok text) idxs = Ok (text +:+ rest)
    /\ (text <> "" ->
        rest = concat_strings
                 (shot_text self context_of get_answer_from_example <$> shots)).
Proof.
  intros Hshots. revert text.
  induction Hshots as [|idx shot idxs shots Hshot _ IH]; intros text.
  - exists "". split; [cbn; rewrite string_app_nil_r; reflexivity|reflexivity].
  - assert (Hget : getitem dataset idx = Ok shot)
      by (unfold getitem; rewrite Hshot; reflexivity).
    cbn [foldl mbind result_bind]. rewrite Hget. cbn [mbind result_bind].
    destruct (IH (text +:+ construct_context self context_of
                              get_answer_from_example shot text true))
      as (rest & Hfold & Hrest).
    exists (construct_context self context_of get_answer_from_example shot
              text true +:+ rest).
    split; [rewrite <- string_app_assoc; exact Hfold|].
    intros Htext. rewrite Hrest by (apply string_app_nonempty, Htext).
    unfold construct_context, shot_text. rewrite (nonempty_true _ Htext).
    cbn [fmap list_fmap concat_strings foldr].
    rewrite !string_app_assoc. reflexivity.
Qed.

End PromptFacts.

(** X18: when the sampled indices are in range, the few-shot prompt starts
    with the preamble; after a non-empty preamble it is the preamble
    followed by every sampled example rendered as delimiter, prelimiter,
    context, continuation delimiter and answer, and the context of the test
    example that follows it is rendered the same way without an answer.
    With no shots asked for, the prompt is the preamble. *)
Theorem few_shot_prompt_layout {Example : Type}
    (self : prompt_attrs) (context_of : Example -> string)
    (get_answer_from_example : Example -> bool -> string)
    (get_fewshot_sample_idxs : Z -> Z -> Z -> list nat)
    (dataset : list Example) (num_fewshot example_idx : Z)
    (preamble : string) (shots : list Example) (example : Example) :
  let prompt_of :=
    _generate_few_shot_prompt self context_of get_answer_from_example
      get_fewshot_sample_idxs dataset in
  Forall2 (fun idx shot => dataset !! idx = Some shot)
          (get_fewshot_sample_idxs (Z.of_nat (length dataset)) num_fewshot
             example_idx) shots ->
  exists prompt,
    prompt_of num_fewshot example_idx preamble = Ok prompt
    /\ String.prefix preamble prompt = true
    /\ (num_fewshot <= 0 -> prompt = preamble)
    /\ (0 < num_fewshot -> preamble <> "" ->
        prompt
        = preamble
          +:+ concat_strings
                (shot_text self context_of get_answer_from_example <$> shots)
        /\ construct_context self context_of get_answer_from_example example
             prompt false
           = example_delimiter self +:+ prelimiter self +:+ context_of example
             +:+ continuation_delimiter self).
Proof.
  intros prompt_of Hshots. subst prompt_of. unfold _generate_few_shot_prompt.
  destruct (Z.ltb_spec 0 num_fewshot) as [Hpos|Hle].
  - destruct (few_shot_loop self context_of get_answer_from_example dataset
                _ shots preamble Hshots) as (rest & Hfold & Hrest).
    exists (preamble +:+ rest). split; [exact Hfold|].
    split; [apply string_prefix_app|]. split; [lia|].
    intros _ Hpre. rewrite <- (Hrest Hpre). split; [reflexivity|].
    unfold construct_context.
    rewrite (nonempty_true _ (string_app_nonempty _ rest Hpre)).
    rewrite !string_app_assoc. reflexivity.
  - exists preamble. split; [reflexivity|].
    split; [rewrite <- (string_app_nil_r preamble) at 2;
            apply string_prefix_app|].
    split; [reflexivity|lia].
Qed.

Lemma few_shot_prompt_layout_witness :
  _generate_few_shot_prompt qa_attrs fst (fun shot _ => shot.2)
    (fun _ _ _ => [2%nat; 0%nat]) qa_rows 2 1 "Add."
  = Ok "Add.|Q: 3+3 A:6|Q: 1+1 A:2".
Proof.
  destruct (few_shot_prompt_layout qa_attrs fst (fun shot _ => shot.2)
              (fun _ _ _ => [2%nat; 0%nat]) qa_rows 2 1 "Add."
              [("3+3", "6"); ("1+1", "2")] ("2+2", "4"))
    as (prompt & Hprompt & _ & _ & Hlayout).
  - repeat constructor.
  - destruct (Hlayout ltac:(lia) ltac:(discriminate)) as [-> _].
    exact Hprompt.
Defined.

(** ** From tokenized examples to a batch *)

Section TokenizeFacts.

Variable tokenizer : bool -> string -> list Z.
Variable rstrip : string -> string.
Variable trim_context : list Z -> list Z -> Z -> list Z.
Variable get_continuation_span : list Z -> list Z -> list Z.
Variable make_padded_input : list Z -> list Z -> Z -> Z -> string -> list Z.
Variable self : tokenize_attrs.

(** A loop that appends one choice per item adds one entry to each of the
    three lists per item. *)
Lemma append_choice_loop {A} (context_of answer_of : A -> list Z)
    (items : list A) (acc : tokenized_lists) :
  let result :=
    foldl (fun tokenized_example item =>
             append_choice trim_context get_continuation_span
               make_padded_input self (context_of item) (answer_of item)
               tokenized_example) acc items in
  length (t_contexts result) = (length (t_contexts acc) + length items)%nat
  /\ length (t_continuation_indices result)
     = (length (t_continuation_indices acc) + length items)%nat
  /\ t_answers result = t_answers acc ++ (answer_of <$> items).
Proof.
  revert acc. induction items as [|item items IH]; intros acc.
  - cbn. rewrite app_nil_r. repeat split; lia.
  - cbn [foldl]. cbn zeta in IH |- *.
    destruct (IH (append_choice trim_context get_continuation_span
                    make_padded_input self (context_of item) (answer_of item)
                    acc)) as (Hc & Hs & Ha).
    rewrite Hc, Hs, Ha. unfold append_choice.
    cbn [t_contexts t_continuation_indices t_answers length fmap list_fmap].
    rewrite !length_app, <- app_assoc. cbn [length app]. repeat split; lia.
Qed.

End TokenizeFacts.

(** X19: [tokenize_example] of the multiple-choice class returns, for an
    example with [N] choices, [N] padded contexts, [N] continuation spans
    and the [N] tokenized choices (each with a leading space added when
    [prefix_space] is set and it has none); hence for [Q] examples of
    [num_choices] choices each, [collate_fn] accepts the tokenized examples
    and returns a batch of [num_choices * Q] rows whose gold indices are
    those of the examples. *)
Theorem tokenized_examples_collate
    (tokenizer : bool -> string -> list Z) (rstrip : string -> string)
    (trim_context : list Z -> list Z -> Z -> list Z)
    (get_continuation_span : list Z -> list Z -> list Z)
    (make_padded_input : list Z -> list Z -> Z -> Z -> string -> list Z)
    (self : tokenize_attrs) (ds : dataset) (examples : list prepared_mc)
    (n : nat) :
  let tokenize := fun e =>
    MultipleChoice_tokenize_example tokenizer rstrip trim_context
      get_continuation_span make_padded_input self
      (p_prompt e) (p_context e) (p_choices e) (p_gold e) in
  Forall (fun e => length (p_choices e) = n) examples ->
  Forall (fun e =>
            carries_choices n (tokenize e).1
            /\ (tokenize e).2
               = (fun choice =>
                    tokenizer false
                      (if adds_prefix_space self
                       then with_leading_space choice else choice))
                   <$> p_choices e)
         examples
  /\ exists batch rows,
       MultipleChoice_collate_fn ds ((fun e => (tokenize e).1) <$> examples)
       = Ok batch
       /\ dict_get batch "input_ids" = Some (PTensor (T2 rows))
       /\ length rows = (n * length examples)%nat
       /\ dict_get batch "gold_indices"
          = Some (PList (PInt <$> (p_gold <$> examples))).
Proof.
  intros tokenize Hchoices.
  assert (Hcarry : Forall (fun e =>
            carries_choices n (tokenize e).1
            /\ (tokenize e).2
               = (fun choice =>
                    tokenizer false
                      (if adds_prefix_space self
                       then with_leading_space choice else choice))
                   <$> p_choices e) examples).
  { eapply Forall_impl; [exact Hchoices|]. intros e He.
    subst tokenize. unfold MultipleChoice_tokenize_example, carries_choices.
    cbn [fst snd tok_contexts tok_continuation_indices].
    set (preamble := _fix_eos_on_preamble _ _).
    set (context := preamble ++ _).
    destruct (append_choice_loop trim_context get_continuation_span
                make_padded_input self
                (fun _ : string => context)
                (fun choice => tokenizer false
                   (if adds_prefix_space self
                    then with_leading_space choice else choice))
                (p_choices e) no_lists) as (Hc & Hs & Ha).
    cbn zeta in Hc, Hs, Ha. rewrite Hc, Hs, Ha, He. repeat split. }
  split; [exact Hcarry|].
  assert (Hdata : Forall (carries_choices n)
                         ((fun e => (tokenize e).1) <$> examples)).
  { apply Forall_fmap. eapply Forall_impl; [exact Hcarry|].
    intros e [He _]. exact He. }
  unfold MultipleChoice_collate_fn.
  rewrite (collate_loop_ok n _ base_lists Hdata).
  cbn [mbind result_bind base_lists b_input_ids b_gold_indices app].
  eexists _, _. split; [reflexivity|].
  split; [reflexivity|].
  split.
  { pose proof (concat_contexts_length n _ Hdata) as Hlen.
    rewrite length_fmap in Hlen. exact Hlen. }
  cbn [dict_set dict_get convert_tokens_to_tensors b_gold_indices app
       String.eqb Ascii.eqb Bool.eqb].
  rewrite <- !list_fmap_compose. reflexivity.
Qed.

Lemma tokenized_examples_collate_witness :
  exists batch rows,
    MultipleChoice_collate_fn (mc_dataset 2)
      ((fun e =>
          (MultipleChoice_tokenize_example char_tokenizer id keep_context
             span_after pad_right toy_attrs
             (p_prompt e) (p_context e) (p_choices e) (p_gold e)).1)
         <$> two_prepared) = Ok batch
    /\ dict_get batch "input_ids" = Some (PTensor (T2 rows))
    /\ length rows = 4%nat.
Proof.
  destruct (tokenized_examples_collate char_tokenizer id keep_context
              span_after pad_right toy_attrs (mc_dataset 2) two_prepared 2)
    as (_ & batch & rows & Hcollate & Hrows & Hlen & _).
  - repeat constructor.
  - exists batch, rows. split; [exact Hcollate|]. split; [exact Hrows|].
    exact Hlen.
Defined.

(** ** The contexts of a schema example *)

Lemma py_getitem_fmap {A B} (f : A -> B) (l : list A) (i : Z) (x : A) :
  py_getitem l i = Ok x -> py_getitem (f <$> l) i = Ok (f x).
Proof.
  unfold py_getitem, getitem. rewrite length_fmap, !list_lookup_fmap.
  destruct (0 <=? i).
  - destruct (l !! Z.to_nat i); [|discriminate]. intros [= <-]. reflexivity.
  - destruct (_ <=? i); [|discriminate].
    destruct (l !! Z.to_nat _); [|discriminate]. intros [= <-]. reflexivity.
Qed.

(** X20: for a schema example whose gold index is valid,
    [_construct_multiple_contexts] returns one context per option, and the
    few-shot rendering of the example by [construct_context] extends the
    gold one of them: by the continuation when there is preceding text and
    the data is not stripped, but by the continuation delimiter and the
    continuation when there is no preceding text, where the test contexts
    carry no continuation delimiter. [tokenize_example] then returns one
    padded context and one span per option, and the tokenized continuation
    once per option. *)
Theorem schema_contexts
    (tokenizer : bool -> string -> list Z) (rstrip : string -> string)
    (trim_context : list Z -> list Z -> Z -> list Z)
    (get_continuation_span : list Z -> list Z -> list Z)
    (make_padded_input : list Z -> list Z -> Z -> Z -> string -> list Z)
    (attrs : tokenize_attrs) (self : prompt_attrs)
    (context_options : list string) (gold_idx : Z)
    (continuation preceding_text : string) (context : string) :
  let contexts :=
    _construct_multiple_contexts self (strips_data attrs) rstrip
      context_options preceding_text in
  let rendered :=
    Schema_construct_context self context_options gold_idx continuation
      preceding_text in
  let tokenized :=
    Schema_tokenize_example tokenizer trim_context get_continuation_span
      make_padded_input attrs preceding_text contexts continuation gold_idx in
  py_getitem context_options gold_idx = Ok context ->
  length contexts = length context_options
  /\ (exists option,
        py_getitem contexts gold_idx = Ok option
        /\ (preceding_text = "" ->
            option = prelimiter self +:+ context
            /\ rendered = Ok (option +:+ continuation_delimiter self
                              +:+ continuation))
        /\ (preceding_text <> "" -> strips_data attrs = false ->
            rendered = Ok (option +:+ continuation)))
  /\ carries_choices (length context_options) tokenized.1
  /\ tokenized.2
     = replicate (length context_options)
         (tokenizer false
            (if adds_prefix_space attrs then with_leading_space continuation
             else continuation))
  /\ tok_gold tokenized.1 = gold_idx.
Proof.
  intros contexts rendered tokenized Hgold.
  assert (Hlen : length contexts = length context_options).
  { subst contexts. unfold _construct_multiple_contexts.
    destruct (nonempty preceding_text); apply length_fmap. }
  split; [exact Hlen|]. split.
  { subst contexts rendered.
    unfold _construct_multiple_contexts, Schema_construct_context.
    rewrite Hgold. cbn [mbind result_bind].
    destruct preceding_text as [|c text].
    - cbn [nonempty String.length Z.of_nat Z.ltb Z.compare].
      eexists. split; [apply (py_getitem_fmap _ _ _ _ Hgold)|].
      split; [|congruence]. intros _. split; [reflexivity|].
      rewrite !string_app_assoc. reflexivity.
    - rewrite (nonempty_true (String c text)) by discriminate.
      eexists. split; [apply (py_getitem_fmap _ _ _ _ Hgold)|].
      split; [discriminate|]. intros _ ->.
      rewrite !string_app_assoc. reflexivity. }
  subst tokenized. unfold Schema_tokenize_example, carries_choices.
  cbn [fst snd tok_contexts tok_continuation_indices tok_gold].
  set (preamble := _fix_eos_on_preamble _ _).
  set (answer := tokenizer false _).
  destruct (append_choice_loop trim_context get_continuation_span
              make_padded_input attrs (fun context : list Z => context)
              (fun _ : list Z => answer)
              ((fun c => preamble ++ tokenizer false c) <$> contexts) no_lists)
    as (Hc & Hs & Ha).
  cbn zeta in Hc, Hs, Ha. rewrite Hc, Hs, Ha, !length_fmap, Hlen.
  repeat split. cbn [no_lists t_answers app].
  rewrite <- Hlen. clear. induction contexts as [|c l IH]; [reflexivity|].
  cbn. f_equal. exact IH.
Qed.

Lemma schema_contexts_witness :
  Schema_construct_context qa_attrs ["he"; "she"] 1 " ran" "Fill."
  = Ok "Q: |she A: ran"
  /\ _construct_multiple_contexts qa_attrs false id ["he"; "she"] "Fill."
     = ["Q: |he A:"; "Q: |she A:"].
Proof.
  destruct (schema_contexts char_tokenizer id keep_context span_after
              pad_right toy_attrs qa_attrs ["he"; "she"] 1 " ran" "Fill."
              "she")
    as (_ & (option & Hoption & _ & Hrendered) & _).
  - reflexivity.
  - split; [|reflexivity].
    rewrite (Hrendered ltac:(discriminate) eq_refl).
    vm_compute in Hoption. injection Hoption as <-. reflexivity.
Defined.

(** ** Partition by category *)

Lemma split_slash_nonempty (s : string) : split_slash s <> [].
Proof.
  destruct s as [|c s]; cbn [split_slash]; [discriminate|].
  destruct (String.eqb (String c EmptyString) "/"); [discriminate|].
  destruct (split_slash s); discriminate.
Qed.

Lemma split_slash_slashless (s : string) :
  slashless s = true -> split_slash s = [s].
Proof.
  induction s as [|c s IH]; [reflexivity|]. cbn [slashless split_slash].
  destruct (String.eqb (String c EmptyString) "/"); [discriminate|].
  cbn [negb andb].
  intros Hs. rewrite (IH Hs). reflexivity.
Qed.

(** Splitting distributes over a ['/'] between two parts. *)
Lemma split_slash_app (a b : string) :
  split_slash (a +:+ "/" +:+ b) = split_slash a ++ split_slash b.
Proof.
  induction a as [|c a IH]; [reflexivity|].
  rewrite string_app_cons. cbn [split_slash].
  destruct (String.eqb (String c EmptyString) "/"); [rewrite IH; reflexivity|].
  rewrite IH. pose proof (split_slash_nonempty a) as Hne.
  destruct (split_slash a); [contradiction|reflexivity].
Qed.

(** Joining what was split gives the string back. *)
Lemma join_split_slash (s : string) : join_slash (split_slash s) = s.
Proof.
  induction s as [|c s IH]; [reflexivity|]. cbn [split_slash].
  destruct (String.eqb_spec (String c EmptyString) "/") as [Hc|Hc].
  - injection Hc as ->. pose proof (split_slash_nonempty s) as Hne.
    cbn [join_slash]. destruct (split_slash s) as [|h t]; [contradiction|].
    rewrite IH. reflexivity.
  - pose proof (split_slash_nonempty s) as Hne.
    destruct (split_slash s) as [|h t]; [contradiction|].
    cbn [join_slash] in *. destruct t; rewrite <- IH; reflexivity.
Qed.

Lemma string_length_app (a b : string) :
  String.length (a +:+ b) = (String.length a + String.length b)%nat.
Proof.
  induction a as [|c a IH]; [reflexivity|].
  rewrite string_app_cons. cbn [String.length]. rewrite IH. reflexivity.
Qed.

Lemma string_app_inj_r (a b s : string) : a +:+ s = b +:+ s -> a = b.
Proof.
  revert b. induction a as [|c a IH]; intros [|d b] Heq.
  - reflexivity.
  - apply (f_equal String.length) in Heq.
    rewrite !string_length_app in Heq. cbn [String.length] in Heq. lia.
  - apply (f_equal String.length) in Heq.
    rewrite !string_length_app in Heq. cbn [String.length] in Heq. lia.
  - rewrite !string_app_cons in Heq. injection Heq as -> Heq.
    f_equal. apply IH, Heq.
Qed.

(** X21: the file of a category is always defined; for a destination
    [dir/name] it is [dir/cat_name], in the same directory; for a
    destination without any ['/'] it is [/cat_name], at the root; and two
    categories never share a file. *)
Theorem category_destination_paths (destination_path cat : string) :
  (exists file, category_destination destination_path cat = Ok file)
  /\ (forall dir name,
        destination_path = dir +:+ "/" +:+ name -> slashless name = true ->
        category_destination destination_path cat
        = Ok (dir +:+ "/" +:+ cat +:+ "_" +:+ name))
  /\ (slashless destination_path = true ->
      category_destination destination_path cat
      = Ok ("/" +:+ cat +:+ "_" +:+ destination_path))
  /\ (forall cat',
        category_destination destination_path cat'
        = category_destination destination_path cat -> cat' = cat).
Proof.
  unfold category_destination.
  pose proof (split_slash_nonempty destination_path) as Hne.
  destruct (last (split_slash destination_path)) as [name|] eqn:Hlast;
    [|apply last_None in Hlast; contradiction].
  cbn [mbind result_bind]. split; [eauto|]. split; [|split].
  - intros dir name' -> Hname.
    rewrite split_slash_app, (split_slash_slashless _ Hname) in Hlast |- *.
    rewrite last_snoc in Hlast. injection Hlast as <-.
    rewrite removelast_last, join_split_slash. reflexivity.
  - intros Hdest.
    rewrite (split_slash_slashless _ Hdest) in Hlast |- *.
    injection Hlast as <-. reflexivity.
  - intros cat' [= Heq]. apply (inj (String.append _)) in Heq.
    apply (inj (String.append _)) in Heq.
    apply (string_app_inj_r _ _ _ Heq).
Qed.

Lemma category_destination_paths_witness :
  category_destination "data/eval/arc.jsonl" "easy"
  = Ok "data/eval/easy_arc.jsonl"
  /\ category_destination "arc.jsonl" "easy" = Ok "/easy_arc.jsonl".
Proof.
  split.
  - destruct (category_destination_paths "data/eval/arc.jsonl" "easy")
      as (_ & Hdir & _).
    apply (Hdir "data/eval" "arc.jsonl"); reflexivity.
  - destruct (category_destination_paths "arc.jsonl" "easy")
      as (_ & _ & Hroot & _).
    apply Hroot. reflexivity.
Defined.




Section PartitionFacts.

Context {Row : Type}.
Variable category_of : Row -> string.
Variable abspath : string -> string.
Variable all_gather_object : string -> list string.
Variable dataset : list Row.
Variable destination_path : string.
Variable file_of : string -> string.

Hypothesis file_of_ok :
  forall cat, category_destination destination_path cat = Ok (file_of cat).
Hypothesis gathered : forall p, all_gather_object p <> [].


End PartitionFacts.


